(** * wrangler: the cgap extraction job and the rack routes

    A shallow embedding of [wrangler/jobs/cgap_extraction.py] and
    [wrangler/racks.py].  Python code that talks to the warehouse, to
    SequenceScape and to the logger is written in a state-and-exception
    monad over an explicit world; the helpers the two modules import are
    the fields of an interface record. *)

From Stdlib Require Import ZArith Lia Bool Sorted OrderedTypeEx.
From stdpp Require Import base option list gmap strings.

Set Default Proof Using "Type".
Open Scope string_scope.
Open Scope list_scope.

(** ** Python runtime fragments *)

Module Py.

(** Exception classes.  All of them derive from [Exception];
    [OtherException] stands for any further class that derives from
    [Exception] but not from [ValueError]. *)
Inductive ExnClass :=
| ValueError
| AttributeError
| IndexError
| ProgrammingError
| Exception_
| OtherException (name : string).

Record PyExn := mkExn { exn_class : ExnClass; exn_args : string }.

#[export] Instance ExnClass_eq_dec : EqDecision ExnClass.
Proof. solve_decision. Defined.

#[export] Instance PyExn_eq_dec : EqDecision PyExn.
Proof. solve_decision. Defined.

(** [isinstance(e, ValueError)], the test of an [except ValueError] clause. *)
Definition is_ValueError (e : PyExn) : bool :=
  match exn_class e with ValueError => true | _ => false end.

(** [str(e)] *)
Definition str_exn (e : PyExn) : string := exn_args e.

(** The result of running a piece of Python: a value, or an exception on
    its way up. *)
Inductive Result (A : Type) :=
| Ok (a : A)
| Raise (e : PyExn).
Arguments Ok {A} a.
Arguments Raise {A} e.

(** [e.message]: exception objects carry [args] only, the attribute lookup
    fails with an [AttributeError]. *)
Definition getattr_message (e : PyExn) : Result string :=
  Raise (mkExn AttributeError "object has no attribute 'message'").

(** Code with side effects on a world [W]. *)
Definition M (W A : Type) : Type := W -> Result A * W.

Definition ret {W A} (a : A) : M W A := fun w => (Ok a, w).

Definition bind {W A B} (m : M W A) (k : A -> M W B) : M W B :=
  fun w => match m w with
           | (Ok a, w') => k a w'
           | (Raise e, w') => (Raise e, w')
           end.

Definition raise {W A} (e : PyExn) : M W A := fun w => (Raise e, w).

Definition lift {W A} (r : Result A) : M W A := fun w => (r, w).

(** [try: m except ...: h] *)
Definition try_except {W A} (m : M W A) (h : PyExn -> M W A) : M W A :=
  fun w => match m w with
           | (Ok a, w') => (Ok a, w')
           | (Raise e, w') => h e w'
           end.

Declare Scope py_scope.
Delimit Scope py_scope with py.
Notation "'do' x <- m ; k" := (bind m (fun x => k))
  (at level 10, x pattern, m at level 100, k at level 200) : py_scope.

(** [itertools.groupby] over a list.  [groupby_from key k acc l] is the
    iterator in the middle of a group: [k] is the key of the group, [acc]
    its elements so far, [l] what is still to be read. *)
Fixpoint groupby_from {A K} `{EqDecision K} (key : A -> K) (k : K)
    (acc : list A) (l : list A) : list (K * list A) :=
  match l with
  | [] => [(k, acc)]
  | x :: l' =>
      if decide (key x = k) then groupby_from key k (acc ++ [x]) l'
      else (k, acc) :: groupby_from key (key x) [x] l'
  end.

Definition groupby {A K} `{EqDecision K} (key : A -> K) (l : list A)
  : list (K * list A) :=
  match l with
  | [] => []
  | x :: l' => groupby_from key (key x) [x] l'
  end.

(** A group is non-empty and holds elements of its key only. *)
Definition group_ok {A K} (key : A -> K) (kg : K * list A) : Prop :=
  kg.2 ≠ [] ∧ Forall (fun x => key x = kg.1) kg.2.

(** [sep.join(ls)] *)
Definition join (sep : string) (ls : list string) : string :=
  String.concat sep ls.

End Py.
Import Py.
Open Scope py_scope.

(** [http.HTTPStatus], an [IntEnum]. *)
Module HTTPStatus.
Definition OK : Z := 200.
Definition CREATED : Z := 201.
Definition NOT_FOUND : Z := 404.
Definition INTERNAL_SERVER_ERROR : Z := 500.
End HTTPStatus.

(** ** wrangler/jobs/cgap_extraction.py *)

Module Cgap.

(** [wrangler.helpers.general_helpers.LabwareType].  The job tests a value
    of this type against [PLATE] and [TUBE_RACK] only; [OtherLabware] is
    any other value, with its printed form. *)
Inductive LabwareType :=
| PLATE
| TUBE_RACK
| OtherLabware (repr : string).

#[export] Instance LabwareType_eq_dec : EqDecision LabwareType.
Proof. solve_decision. Defined.

(** A row of the warehouse table, as the cursor returns it: the columns
    the job and its queries name, and the remaining ones by name. *)
Record MlwhRow := mkRow {
  container_barcode : string;
  study : string;
  destination : string;
  wrangled : option Z;
  columns : list (string * string)
}.

#[export] Instance MlwhRow_eq_dec : EqDecision MlwhRow.
Proof. solve_decision. Defined.

(** [app.config], the two keys the job reads. *)
Record Config := mkConfig {
  MLWH_DB_TABLE : string;
  CGAP_EXTRACTION_DESTINATION : string
}.

(** What the job imports from [wrangler.constants] and [wrangler.helpers]:
    constants are strings, helpers that reach SequenceScape read and
    change the state [Env] of the world outside the warehouse.  A lookup
    or the classifier may raise; [create_plate] and [create_tube_rack]
    give a response and a status, as their call sites take them; the
    builders of the request bodies are functions.  [NOW] is the clock of
    the warehouse.

    [iter_set l] is the order in which the interpreter iterates the set
    of strings built from the items [l].  It depends on the hash seed of
    the process, so nothing is known of it but that every item of the
    set comes once.  [sql_reserved] tells the words that the language of
    the warehouse does not read as a name. *)
Class Collaborators := {
  Env : Type;
  Body : Type;
  Resp : Type;
  STUDY_ENTITY : string;
  PLATE_PURPOSE_ENTITY : string;
  LYSATE_PLATE_PURPOSE : string;
  LYSATE_TR_PURPOSE : string;
  get_entity_uuid : string -> string -> Env -> Result string * Env;
  determine_labware_type : string -> list MlwhRow -> Result LabwareType;
  create_plate_body :
    string -> list MlwhRow -> option string -> option string -> Body;
  create_tube_rack_body :
    string -> list MlwhRow -> option string -> option string -> Body;
  create_plate : Body -> Env -> (Resp * Z) * Env;
  create_tube_rack : Body -> Env -> (Resp * Z) * Env;
  NOW : Env -> Z;
  iter_set : list string -> list string;
  iter_set_NoDup : forall l, NoDup (iter_set l);
  iter_set_elem : forall l x, x ∈ iter_set l <-> x ∈ l;
  sql_reserved : string -> bool
}.

Section Job.
Context `{Collaborators}.

(** [SSResponse = namedtuple("SSResponse", "barcode body successful")] *)
Record SSResponse := mkSSResponse {
  barcode : string;
  body : Resp;
  successful : bool
}.

Inductive Level := INFO | ERROR.

Inductive Message :=
| Text (s : string)
| Payload (r : Resp).

(** The statements the job sends to the warehouse. *)
Inductive Query :=
| SelectUnwrangled (table dest : string)
| UpdateWrangled (table : string) (container_barcodes : list string).

(** What the job does to the outside, in the order it does it.  A call of
    [create_plate] or [create_tube_rack] is recorded with what it
    returned. *)
Inductive Event :=
| EvLog (lvl : Level) (msg : Message)
| EvExecute (q : Query)
| EvGetEntityUuid (entity name : string)
| EvDetermineLabwareType (bc : string)
| EvCreateBody (t : LabwareType) (bc : string)
    (study_uuid purpose_uuid : option string)
| EvCreateLabware (t : LabwareType) (bc : string) (b : Body)
    (response : Resp) (status_code : Z).

Record World := mkWorld {
  mlwh : gmap string (list MlwhRow);
  outside : Env;
  trace : list Event
}.

Definition emit (e : Event) : M World unit :=
  fun w => (Ok tt, mkWorld (mlwh w) (outside w) (trace w ++ [e])).

Definition logger_info (s : string) : M World unit := emit (EvLog INFO (Text s)).
Definition logger_error (m : Message) : M World unit := emit (EvLog ERROR m).

(** *** The warehouse *)

Definition unwrangled (dest : string) (r : MlwhRow) : Prop :=
  destination r = dest /\ wrangled r = None.

#[export] Instance unwrangled_dec dest r : Decision (unwrangled dest r).
Proof. unfold unwrangled. apply _. Defined.

(** The rows in the order of their barcodes, compared as strings of
    bytes; rows of one barcode keep the order they have in the table. *)
Fixpoint insert_by_barcode (r : MlwhRow) (l : list MlwhRow) : list MlwhRow :=
  match l with
  | [] => [r]
  | x :: l' =>
      if String.leb (container_barcode r) (container_barcode x)
      then r :: x :: l'
      else x :: insert_by_barcode r l'
  end.

(** [ORDER BY container_barcode] *)
Definition order_by_container_barcode (l : list MlwhRow) : list MlwhRow :=
  foldr insert_by_barcode [] l.

(** [SET wrangled = NOW() WHERE container_barcode IN (...)], on one row. *)
Definition set_wrangled (t : Z) (r : MlwhRow) : MlwhRow :=
  mkRow (container_barcode r) (study r) (destination r) (Some t) (columns r).

Definition mark_wrangled (now : Z) (bcs : list string) (r : MlwhRow) : MlwhRow :=
  if decide (container_barcode r ∈ bcs) then set_wrangled now r else r.

(** The job pastes the table and the destination into the text of its
    statements, and the statements are held here by these parts.  The
    parts are what the warehouse reads in the text when the table is a
    plain name, of letters, digits and underscores, not starting with a
    digit and not reserved, and the destination has no character that
    ends or escapes a quoted string: no quote, of code 39, and no
    backslash, of code 92. *)
Definition digit_char (c : Ascii.ascii) : bool :=
  Nat.leb 48 (Ascii.nat_of_ascii c) && Nat.leb (Ascii.nat_of_ascii c) 57.

Definition name_char (c : Ascii.ascii) : bool :=
  digit_char c
  || Nat.leb 65 (Ascii.nat_of_ascii c) && Nat.leb (Ascii.nat_of_ascii c) 90
  || Nat.leb 97 (Ascii.nat_of_ascii c) && Nat.leb (Ascii.nat_of_ascii c) 122
  || Nat.eqb (Ascii.nat_of_ascii c) 95.

Definition sql_identifier (s : string) : bool :=
  match s with
  | EmptyString => false
  | String c _ =>
      negb (digit_char c) && forallb name_char (String.list_ascii_of_string s)
      && negb (sql_reserved s)
  end.

Definition quote_char (c : Ascii.ascii) : bool :=
  Nat.eqb (Ascii.nat_of_ascii c) 39 || Nat.eqb (Ascii.nat_of_ascii c) 92.

Definition sql_literal (s : string) : bool :=
  forallb (fun c => negb (quote_char c)) (String.list_ascii_of_string s).

(** [cursor.execute(query)], and the commit that follows an update.  A
    statement on a table that is not there fails, and so does an update
    with an empty list, whose text ends in [IN ()]. *)
Definition execute (q : Query) : M World (list MlwhRow) :=
  do _ <- emit (EvExecute q);
  fun w =>
    match q with
    | SelectUnwrangled table dest =>
        match mlwh w !! table with
        | None => (Raise (mkExn ProgrammingError "table does not exist"), w)
        | Some rows =>
            (Ok (order_by_container_barcode (filter (unwrangled dest) rows)), w)
        end
    | UpdateWrangled table bcs =>
        match bcs, mlwh w !! table with
        | [], _ => (Raise (mkExn ProgrammingError "syntax error near ')'"), w)
        | _, None => (Raise (mkExn ProgrammingError "table does not exist"), w)
        | _, Some rows =>
            (Ok [],
             mkWorld (<[table := mark_wrangled (NOW (outside w)) bcs <$> rows]> (mlwh w))
                     (outside w) (trace w))
        end
    end.

Definition get_unwrangled_labware (table dest : string) : M World (list MlwhRow) :=
  execute (SelectUnwrangled table dest).

Definition update_wrangled_labware (table : string) (container_barcodes : list string)
  : M World unit :=
  do _ <- execute (UpdateWrangled table container_barcodes);
  ret tt.

(** *** Identifier lookups *)

Definition call_get_entity_uuid (entity name : string) : M World string :=
  do _ <- emit (EvGetEntityUuid entity name);
  fun w =>
    let '(r, env') := get_entity_uuid entity name (outside w) in
    (r, mkWorld (mlwh w) env' (trace w)).

(** The dict comprehension of [get_study_uuids], over the studies in the
    order in which the iterable yields them. *)
Fixpoint study_uuid_dict (studies : list string) (d : gmap string string)
  : M World (gmap string string) :=
  match studies with
  | [] => ret d
  | study :: studies' =>
      do u <- call_get_entity_uuid STUDY_ENTITY study;
      study_uuid_dict studies' (<[study := u]> d)
  end.

(** [studies] is the iterable by the items it yields, in order; [run]
    passes a set, iterated in the order [iter_set] gives. *)
Definition get_study_uuids (studies : list string) : M World (gmap string string) :=
  study_uuid_dict studies ∅.

Definition get_plate_purpose_uuid : M World string :=
  call_get_entity_uuid PLATE_PURPOSE_ENTITY LYSATE_PLATE_PURPOSE.

Definition get_tube_rack_purpose_uuid : M World string :=
  call_get_entity_uuid PLATE_PURPOSE_ENTITY LYSATE_TR_PURPOSE.

(** *** Creating the labware *)

(** The keyword arguments of [create_labwares]; a key may be absent. *)
Record Kwargs := mkKwargs {
  study_uuids : option (gmap string string);
  plate_purpose_uuids : option (list (LabwareType * string))
}.

(** [d.get(k)] on a dict keyed by labware type. *)
Fixpoint dict_get (d : list (LabwareType * string)) (k : LabwareType)
  : option string :=
  match d with
  | [] => None
  | (k', v) :: d' => if decide (k' = k) then Some v else dict_get d' k
  end.

Definition call_determine_labware_type (bc : string) (rows : list MlwhRow)
  : M World LabwareType :=
  do _ <- emit (EvDetermineLabwareType bc);
  lift (determine_labware_type bc rows).

(** A call of [create_plate] or [create_tube_rack], [send] being the
    helper applied to the request body. *)
Definition call_create_labware (t : LabwareType) (bc : string) (b : Body)
    (send : Env -> (Resp * Z) * Env) : M World (Resp * Z) :=
  fun w =>
    let '((response, status_code), env') := send (outside w) in
    (Ok (response, status_code),
     mkWorld (mlwh w) env'
             (trace w ++ [EvCreateLabware t bc b response status_code])).

(** [container_rows[0]] *)
Definition first_row (container_rows : list MlwhRow) : M World MlwhRow :=
  match container_rows with
  | r :: _ => ret r
  | [] => raise (mkExn IndexError "list index out of range")
  end.

(** The body of the [for] loop of [create_labwares], up to its [yield]. *)
Definition create_labware (kwargs : Kwargs) (g : string * list MlwhRow)
  : M World SSResponse :=
  let '(bc, container_rows) := g in
  do labware_type <- call_determine_labware_type bc container_rows;
  do row0 <- first_row container_rows;
  let study_uuid := default ∅ (study_uuids kwargs) !! study row0 in
  match labware_type with
  | PLATE =>
      let purpose_uuid := dict_get (default [] (plate_purpose_uuids kwargs)) PLATE in
      do _ <- emit (EvCreateBody PLATE bc study_uuid purpose_uuid);
      let labware_body := create_plate_body bc container_rows study_uuid purpose_uuid in
      do rs <- call_create_labware PLATE bc labware_body (create_plate labware_body);
      ret (mkSSResponse bc (fst rs) (bool_decide (snd rs = HTTPStatus.CREATED)))
  | TUBE_RACK =>
      let purpose_uuid := dict_get (default [] (plate_purpose_uuids kwargs)) TUBE_RACK in
      do _ <- emit (EvCreateBody TUBE_RACK bc study_uuid purpose_uuid);
      let labware_body := create_tube_rack_body bc container_rows study_uuid purpose_uuid in
      do rs <- call_create_labware TUBE_RACK bc labware_body (create_tube_rack labware_body);
      ret (mkSSResponse bc (fst rs) (bool_decide (snd rs = HTTPStatus.CREATED)))
  | OtherLabware repr =>
      raise (mkExn Exception_
               ("cgap extraction job can not handle labware type: " +:+ repr))
  end.

(** [create_labwares] is a generator: calling it runs nothing, and each
    [next] runs the loop body for one more group of rows.  Its state is
    the groups still to come. *)
Record Generator := mkGenerator {
  gen_kwargs : Kwargs;
  gen_groups : list (string * list MlwhRow)
}.

Definition create_labwares (mlwh_rows : list MlwhRow) (kwargs : Kwargs) : Generator :=
  mkGenerator kwargs (groupby container_barcode mlwh_rows).

(** [next(gen)]; [None] is [StopIteration]. *)
Definition gen_next (gen : Generator) : M World (option SSResponse * Generator) :=
  match gen_groups gen with
  | [] => ret (None, gen)
  | g :: groups =>
      do r <- create_labware (gen_kwargs gen) g;
      ret (Some r, mkGenerator (gen_kwargs gen) groups)
  end.

(** *** [groupby(ss_responses, lambda x: x.successful)]

    The iterator that [itertools.groupby] builds over the generator.  A key
    that is [None] is the fresh object the iterator starts from. *)
Record GroupBy := mkGroupBy {
  gb_it : Generator;
  tgtkey : option bool;
  currkey : option bool;
  currvalue : option SSResponse
}.

Definition groupby_init (gen : Generator) : GroupBy :=
  mkGroupBy gen None None None.

(** [while self.currkey == self.tgtkey: self.currvalue = next(self.it); ...] *)
Fixpoint groupby_skip (kwargs : Kwargs) (tgt : option bool)
    (groups : list (string * list MlwhRow))
  : M World (option SSResponse * list (string * list MlwhRow)) :=
  match groups with
  | [] => ret (None, [])
  | g :: groups' =>
      do r <- create_labware kwargs g;
      if decide (Some (successful r) = tgt)
      then groupby_skip kwargs tgt groups'
      else ret (Some r, groups')
  end.

(** [next(groupby_object)]: the key of the next group, or [None] at
    [StopIteration]. *)
Definition groupby_next (gb : GroupBy) : M World (option bool * GroupBy) :=
  if decide (currkey gb = tgtkey gb) then
    do res <- groupby_skip (gen_kwargs (gb_it gb)) (tgtkey gb) (gen_groups (gb_it gb));
    match fst res with
    | None =>
        ret (None, mkGroupBy (mkGenerator (gen_kwargs (gb_it gb)) [])
                     (tgtkey gb) (currkey gb) (currvalue gb))
    | Some r =>
        ret (Some (successful r),
             mkGroupBy (mkGenerator (gen_kwargs (gb_it gb)) (snd res))
               (Some (successful r)) (Some (successful r)) (Some r))
    end
  else
    ret (currkey gb,
         mkGroupBy (gb_it gb) (currkey gb) (currkey gb) (currvalue gb)).

(** [list(responses)]: the group iterator yields the current value and
    pulls from the generator until the key changes or the generator is
    exhausted. *)
Fixpoint grouper_list (kwargs : Kwargs) (tgt : bool) (cur : SSResponse)
    (groups : list (string * list MlwhRow))
  : M World (list SSResponse * GroupBy) :=
  match groups with
  | [] =>
      ret ([cur], mkGroupBy (mkGenerator kwargs []) (Some tgt) (Some tgt) (Some cur))
  | g :: groups' =>
      do r <- create_labware kwargs g;
      if decide (successful r = tgt)
      then do res <- grouper_list kwargs tgt r groups';
           ret (cur :: fst res, snd res)
      else ret ([cur], mkGroupBy (mkGenerator kwargs groups')
                         (Some tgt) (Some (successful r)) (Some r))
  end.

Definition list_responses (gb : GroupBy) : M World (list SSResponse * GroupBy) :=
  match currvalue gb, tgtkey gb with
  | Some cur, Some tgt =>
      grouper_list (gen_kwargs (gb_it gb)) tgt cur (gen_groups (gb_it gb))
  | _, _ => ret ([], gb)
  end.

(** *** The job *)

Fixpoint log_bodies (response_list : list SSResponse) : M World unit :=
  match response_list with
  | [] => ret tt
  | response :: rest =>
      do _ <- logger_error (Payload (body response));
      log_bodies rest
  end.

(** The body of the [for successful, responses in groupby(...)] loop. *)
Definition report (app : Config) (successful : bool)
    (response_list : list SSResponse) : M World unit :=
  let labware_barcodes := barcode <$> response_list in
  if successful then
    do _ <- update_wrangled_labware (MLWH_DB_TABLE app) labware_barcodes;
    logger_info ("The following labware were successfully created: "
                 +:+ join "," labware_barcodes)
  else
    do _ <- logger_error (Text ("The following labware failed to be created: "
                                +:+ join "," labware_barcodes));
    log_bodies response_list.

(** The [for] loop itself.  Every iteration consumes at least one response
    of the generator, so the recursion is on a bound [fuel] of iterations;
    [None] is the bound reached. *)
Fixpoint for_groups (fuel : nat) (app : Config) (gb : GroupBy)
  : M World (option unit) :=
  match fuel with
  | O => ret None
  | S fuel' =>
      do nx <- groupby_next gb;
      match fst nx with
      | None => ret (Some tt)
      | Some successful =>
          do rl <- list_responses (snd nx);
          do _ <- report app successful (fst rl);
          for_groups fuel' app (snd rl)
      end
  end.

Definition run (app : Config) : M World (option unit) :=
  do _ <- logger_info "Starting cgap extraction job";
  do mlwh_rows <-
    get_unwrangled_labware (MLWH_DB_TABLE app) (CGAP_EXTRACTION_DESTINATION app);
  if Nat.eqb (length mlwh_rows) 0 then ret (Some tt)
  else
    do study_uuids <- get_study_uuids (iter_set (study <$> mlwh_rows));
    do plate_purpose_uuid <- get_plate_purpose_uuid;
    do rack_purpose_uuid <- get_tube_rack_purpose_uuid;
    let ss_responses :=
      create_labwares mlwh_rows
        (mkKwargs (Some study_uuids)
           (Some [(PLATE, plate_purpose_uuid); (TUBE_RACK, rack_purpose_uuid)])) in
    for_groups (S (length mlwh_rows)) app (groupby_init ss_responses).

(** *** Reading a trace

    The observations the statements below are written with. *)

(** The barcode lists of the marker writes, one per statement. *)
Definition updates (tr : list Event) : list (list string) :=
  omap (fun ev => match ev with
                  | EvExecute (UpdateWrangled _ bcs) => Some bcs
                  | _ => None
                  end) tr.

(** The submissions, each with what SequenceScape answered. *)
Definition submissions (tr : list Event) : list (string * Resp * Z) :=
  omap (fun ev => match ev with
                  | EvCreateLabware _ bc _ response status_code =>
                      Some (bc, response, status_code)
                  | _ => None
                  end) tr.

Definition submitted (tr : list Event) : list string :=
  (fun s => s.1.1) <$> submissions tr.

(** The entity lookups. *)
Definition lookups (tr : list Event) : list (string * string) :=
  omap (fun ev => match ev with
                  | EvGetEntityUuid entity name => Some (entity, name)
                  | _ => None
                  end) tr.

(** What was logged at level ERROR. *)
Definition failure_log (tr : list Event) : list Message :=
  omap (fun ev => match ev with
                  | EvLog ERROR m => Some m
                  | _ => None
                  end) tr.

Definition is_container_event (ev : Event) : bool :=
  match ev with
  | EvDetermineLabwareType _ | EvCreateBody _ _ _ _ | EvCreateLabware _ _ _ _ _ => true
  | _ => false
  end.

(** The calls made for the containers: classify, build, submit. *)
Definition container_events (tr : list Event) : list Event :=
  List.filter is_container_event tr.

Definition is_report (ev : Event) : bool :=
  match ev with
  | EvLog _ _ | EvExecute (UpdateWrangled _ _) => true
  | _ => false
  end.

(** The reporting: marker writes and log lines. *)
Definition reports (tr : list Event) : list Event :=
  List.filter is_report tr.

(** What a submission tells of a container that went through. *)
Definition succeeded (s : string * Resp * Z) : bool :=
  bool_decide (s.2 = HTTPStatus.CREATED).

(** Every marker write of a trace names only containers whose submission
    was answered with the created status before it, [seen] being the
    submissions before the trace. *)
Fixpoint writes_follow_submissions (seen : list (string * Resp * Z))
    (tr : list Event) : Prop :=
  match tr with
  | [] => True
  | ev :: tr' =>
      match ev with
      | EvExecute (UpdateWrangled _ bcs) =>
          ∀ b, b ∈ bcs → ∃ response, (b, response, HTTPStatus.CREATED) ∈ seen
      | _ => True
      end ∧
      writes_follow_submissions
        (seen ++ match ev with
                 | EvCreateLabware _ bc _ response status_code =>
                     [(bc, response, status_code)]
                 | _ => []
                 end) tr'
  end.

(** The barcode lists that the groups of submissions with the created
    status give, in order. *)
Definition written (G : list (bool * list (string * Resp * Z))) : list (list string) :=
  (fun kg : bool * list (string * Resp * Z) =>
     (fun s : string * Resp * Z => s.1.1) <$> kg.2)
    <$> List.filter (fun kg => kg.1) G.

(** Every row of the table with barcode [b] has its marker set. *)
Definition wrangled_in (app : Config) (b : string) (w : World) : Prop :=
  ∀ rows r, mlwh w !! MLWH_DB_TABLE app = Some rows → r ∈ rows →
            container_barcode r = b → is_Some (wrangled r).

(** The rows the fetch of [run] returns in a world, if the table exists. *)
Definition fetched (app : Config) (w : World) : option (list MlwhRow) :=
  (fun rows => order_by_container_barcode
                 (filter (unwrangled (CGAP_EXTRACTION_DESTINATION app)) rows))
    <$> mlwh w !! MLWH_DB_TABLE app.

(** The lookups [run] makes before it creates labware: one per study of
    the rows, then the two purposes. *)
Definition wanted (rows : list MlwhRow) : list (string * string) :=
  ((fun s => (STUDY_ENTITY, s)) <$> iter_set (study <$> rows))
  ++ [(PLATE_PURPOSE_ENTITY, LYSATE_PLATE_PURPOSE);
      (PLATE_PURPOSE_ENTITY, LYSATE_TR_PURPOSE)].

(** Every lookup of the list succeeds, whatever the state outside. *)
Definition resolves (l : list (string * string)) : Prop :=
  ∀ p, p ∈ l → ∀ env, ∃ u env', get_entity_uuid p.1 p.2 env = (Ok u, env').

(** The classifier answers plate or tube rack. *)
Definition recognised (g : string * list MlwhRow) : Prop :=
  determine_labware_type g.1 g.2 = Ok PLATE ∨
  determine_labware_type g.1 g.2 = Ok TUBE_RACK.

(** The request body for a container, and the call that submits it. *)
Definition labware_body (t : LabwareType) (g : string * list MlwhRow)
    (su pu : option string) : Body :=
  match t with
  | TUBE_RACK => create_tube_rack_body g.1 g.2 su pu
  | _ => create_plate_body g.1 g.2 su pu
  end.

Definition send (t : LabwareType) (b : Body) (env : Env) : (Resp * Z) * Env :=
  match t with
  | TUBE_RACK => create_tube_rack b env
  | _ => create_plate b env
  end.

(** One container that went through: its rows, the type the classifier
    gave, and SequenceScape's answer. *)
Record Outcome := mkOutcome {
  o_group : string * list MlwhRow;
  o_type : LabwareType;
  o_response : Resp;
  o_status : Z
}.

Definition study_uuid_of (kwargs : Kwargs) (rows : list MlwhRow) : option string :=
  match rows with
  | r :: _ => default ∅ (study_uuids kwargs) !! study r
  | [] => None
  end.

Definition purpose_uuid_of (kwargs : Kwargs) (t : LabwareType) : option string :=
  dict_get (default [] (plate_purpose_uuids kwargs)) t.

Definition o_body (kwargs : Kwargs) (o : Outcome) : Body :=
  labware_body (o_type o) (o_group o)
    (study_uuid_of kwargs (o_group o).2) (purpose_uuid_of kwargs (o_type o)).

Definition submission_of (o : Outcome) : string * Resp * Z :=
  ((o_group o).1, o_response o, o_status o).

Definition response_of (o : Outcome) : SSResponse :=
  mkSSResponse (o_group o).1 (o_response o)
    (bool_decide (o_status o = HTTPStatus.CREATED)).

Definition step_events (kwargs : Kwargs) (o : Outcome) : list Event :=
  [EvDetermineLabwareType (o_group o).1;
   EvCreateBody (o_type o) (o_group o).1
     (study_uuid_of kwargs (o_group o).2) (purpose_uuid_of kwargs (o_type o));
   EvCreateLabware (o_type o) (o_group o).1 (o_body kwargs o)
     (o_response o) (o_status o)].

Definition valid_outcome (kwargs : Kwargs) (o : Outcome) : Prop :=
  determine_labware_type (o_group o).1 (o_group o).2 = Ok (o_type o) ∧
  (o_type o = PLATE ∨ o_type o = TUBE_RACK) ∧
  (o_group o).2 ≠ [] ∧
  ∃ env, (send (o_type o) (o_body kwargs o) env).1 = (o_response o, o_status o).

(** How the loop body of [create_labwares] fails for a group. *)
Definition step_fails (g : string * list MlwhRow) (e : PyExn) : Prop :=
  determine_labware_type g.1 g.2 = Raise e ∨
  (∃ repr, determine_labware_type g.1 g.2 = Ok (OtherLabware repr) ∧
           e = mkExn Exception_
                 ("cgap extraction job can not handle labware type: " +:+ repr)) ∨
  (g.2 = [] ∧ e = mkExn IndexError "list index out of range").

(** The events of one pass through the body of the loop of [run]. *)
Definition report_events (app : Config) (successful : bool)
    (response_list : list SSResponse) : list Event :=
  if successful then
    [EvExecute (UpdateWrangled (MLWH_DB_TABLE app) (barcode <$> response_list));
     EvLog INFO (Text ("The following labware were successfully created: "
                       +:+ join "," (barcode <$> response_list)))]
  else
    EvLog ERROR (Text ("The following labware failed to be created: "
                       +:+ join "," (barcode <$> response_list)))
    :: ((fun r => EvLog ERROR (Payload (body r))) <$> response_list).

(** The events of the loop of [run] while the group with key [tgt] and
    responses [acc] is open and the containers [os] are still to go
    through; [completed] tells whether the generator then ends or the
    loop is cut short there. *)
Fixpoint schedule (app : Config) (kwargs : Kwargs) (tgt : bool)
    (acc : list SSResponse) (os : list Outcome) (completed : bool) : list Event :=
  match os with
  | [] => if completed then report_events app tgt acc else []
  | o :: os' =>
      step_events kwargs o ++
      if decide (successful (response_of o) = tgt)
      then schedule app kwargs tgt (acc ++ [response_of o]) os' completed
      else report_events app tgt acc ++
           schedule app kwargs (successful (response_of o)) [response_of o] os' completed
  end.

Definition loop_events (app : Config) (kwargs : Kwargs) (os : list Outcome)
    (completed : bool) : list Event :=
  match os with
  | [] => []
  | o :: os' =>
      step_events kwargs o ++
      schedule app kwargs (successful (response_of o)) [response_of o] os' completed
  end.

(** The reports on a list of responses: one pass of the loop body for
    each group of consecutive responses with the same outcome, the last
    group left out when the loop is cut short. *)
Definition reported (app : Config) (completed : bool)
    (responses : list SSResponse) : list Event :=
  concat ((fun kg : bool * list SSResponse => report_events app kg.1 kg.2)
            <$> (if completed then groupby successful responses
                 else removelast (groupby successful responses))).

(** The rows of the table after marker writes naming [bcs]: a row with
    one of these barcodes has its marker set, the others are as before. *)
Definition marked_rows (bcs : list string) (rows rows' : list MlwhRow) : Prop :=
  Forall2 (fun r r' =>
             (container_barcode r ∈ bcs → ∃ t, r' = set_wrangled t r) ∧
             (container_barcode r ∉ bcs → r' = r)) rows rows'.

(** The same, column by column: the rows are the same in the same places
    but for the marker, which holds a time on the rows of the barcodes
    [bcs] and is as before on the others. *)
Definition markers_set (bcs : list string) (rows rows' : list MlwhRow) : Prop :=
  Forall2 (fun r r' =>
             container_barcode r' = container_barcode r ∧
             study r' = study r ∧
             destination r' = destination r ∧
             columns r' = columns r ∧
             (container_barcode r ∈ bcs → ∃ t, wrangled r' = Some t) ∧
             (container_barcode r ∉ bcs → wrangled r' = wrangled r)) rows rows'.

(** The order of the barcodes under [ORDER BY]. *)
Definition barcode_le (a b : string) : Prop := String.leb a b = true.
Definition barcode_lt (a b : string) : Prop := String.ltb a b = true.

Definition rows_le (r r' : MlwhRow) : Prop :=
  barcode_le (container_barcode r) (container_barcode r').

(** The events [run] starts with. *)
Definition prologue (app : Config) : list Event :=
  [EvLog INFO (Text "Starting cgap extraction job");
   EvExecute (SelectUnwrangled (MLWH_DB_TABLE app) (CGAP_EXTRACTION_DESTINATION app))].

Definition lookup_events (l : list (string * string)) : list Event :=
  (fun p => EvGetEntityUuid p.1 p.2) <$> l.

(** The world after one pass through the body of the loop of [run], when
    the table holds [rows]. *)
Definition after_report (app : Config) (successful : bool)
    (response_list : list SSResponse) (rows : list MlwhRow) (w : World) : World :=
  mkWorld
    (if successful
     then <[MLWH_DB_TABLE app :=
              mark_wrangled (NOW (outside w)) (barcode <$> response_list) <$> rows]> (mlwh w)
     else mlwh w)
    (outside w)
    (trace w ++ report_events app successful response_list).

(** What a run of the loop over [groups] leaves behind: the containers
    [os] went through, the events [tr] were added, and the rows [rows1] of
    the table became [rows']; the loop ended, or a container failed. *)
Definition loop_post (app : Config) (kwargs : Kwargs) (rows1 : list MlwhRow)
    (groups : list (string * list MlwhRow))
    (events : list Outcome → bool → list Event)
    (w : World) (res : Result (option unit)) (w' : World) : Prop :=
  ∃ os tr rows',
    Forall (valid_outcome kwargs) os ∧
    trace w' = trace w ++ tr ∧
    mlwh w' = <[MLWH_DB_TABLE app := rows']> (mlwh w) ∧
    marked_rows (concat (updates tr)) rows1 rows' ∧
    ((res = Ok (Some tt) ∧ o_group <$> os = groups ∧ tr = events os true) ∨
     (∃ e g rest, res = Raise e ∧ groups = (o_group <$> os) ++ g :: rest ∧
                  step_fails g e ∧
                  tr = events os false ++ [EvDetermineLabwareType g.1])).

(** *** Further observations *)

(** The statements sent to the warehouse. *)
Definition statements (tr : list Event) : list Query :=
  omap (fun ev => match ev with
                  | EvExecute q => Some q
                  | _ => None
                  end) tr.

(** The response bodies logged at level ERROR. *)
Definition logged_bodies (tr : list Event) : list Resp :=
  omap (fun ev => match ev with
                  | EvLog ERROR (Payload r) => Some r
                  | _ => None
                  end) tr.

(** What was logged at level INFO. *)
Definition info_log (tr : list Event) : list Message :=
  omap (fun ev => match ev with
                  | EvLog INFO m => Some m
                  | _ => None
                  end) tr.

(** The INFO line that follows a marker write. *)
Definition success_line (labware_barcodes : list string) : Message :=
  Text ("The following labware were successfully created: "
        +:+ join "," labware_barcodes).

(** The rows a fetch for [dest] returns from the rows of a table. *)
Definition select_unwrangled (dest : string) (rows : list MlwhRow) : list MlwhRow :=
  order_by_container_barcode (filter (unwrangled dest) rows).

End Job.
End Cgap.

(** ** wrangler/racks.py *)

Module Racks.

(** What the routes import from [.helper]. *)
Class Helpers := {
  Env : Type;
  Tubes : Type;
  Request : Type;
  parse_tube_rack_csv : string -> Env -> Result Tubes * Env;
  wrangle_tubes : string -> Env -> Result Request * Env;
  send_request_to_sequencescape : Request -> Env -> Result unit * Env
}.

Section Routes.
Context `{Helpers}.

Inductive Level := DEBUG | WARNING | ERROR.

Record World := mkWorld {
  outside : Env;
  log : list (Level * string)
}.

(** What a view function returns: a value on its own, or a pair of a body
    and a status; a body is a text or a dict with the key [error]. *)
Inductive ResponseBody :=
| TextBody (s : string)
| ErrorBody (error : string).

Inductive ViewResult :=
| Plain (t : Tubes)
| WithStatus (b : ResponseBody) (status : Z).

Definition logger (lvl : Level) (s : string) : M World unit :=
  fun w => (Ok tt, mkWorld (outside w) (log w ++ [(lvl, s)])).

Definition call {A} (f : Env -> Result A * Env) : M World A :=
  fun w => let '(r, env') := f (outside w) in (r, mkWorld env' (log w)).

(** The route [/tube_rack/<tube_rack_barcode>]. *)
Definition get_tubes_from_rack_barcode (tube_rack_barcode : string)
  : M World ViewResult :=
  try_except
    (do t <- call (parse_tube_rack_csv tube_rack_barcode);
     ret (Plain t))
    (fun e =>
       if is_ValueError e then
         do _ <- logger WARNING (str_exn e);
         ret (WithStatus (ErrorBody (str_exn e)) HTTPStatus.NOT_FOUND)
       else
         do _ <- logger ERROR (str_exn e);
         ret (WithStatus (ErrorBody ("Server error: " +:+ str_exn e))
                HTTPStatus.INTERNAL_SERVER_ERROR)).

(** The [try] block of the route [/wrangle/<tube_rack_barcode>]. *)
Definition wrangle_try (tube_rack_barcode : string) : M World ViewResult :=
  do _ <- logger DEBUG ("tube_rack_barcode: " +:+ tube_rack_barcode);
  do tube_request_body <- call (wrangle_tubes tube_rack_barcode);
  do _ <- call (send_request_to_sequencescape tube_request_body);
  ret (WithStatus (TextBody "POST request successfully sent to Sequencescape")
         HTTPStatus.OK).

(** The route [/wrangle/<tube_rack_barcode>]. *)
Definition wrangle (tube_rack_barcode : string) : M World ViewResult :=
  try_except
    (wrangle_try tube_rack_barcode)
    (fun e =>
       if is_ValueError e then
         do _ <- logger WARNING (str_exn e);
         do message <- lift (getattr_message e);
         ret (WithStatus (ErrorBody message) HTTPStatus.NOT_FOUND)
       else
         ret (WithStatus (ErrorBody ("Server error: " +:+ str_exn e))
                HTTPStatus.NOT_FOUND)).

Definition status_of (v : ViewResult) : option Z :=
  match v with
  | Plain _ => None
  | WithStatus _ status => Some status
  end.

End Routes.
End Racks.

(** ** A concrete warehouse and SequenceScape

    Used to run the job on explicit inputs. *)

Module Scenario.
Import Cgap.

(** Labware is a tube rack when every row has a tube barcode column, a
    plate when none has, and cannot be determined otherwise. *)
Definition has_tube (r : MlwhRow) : bool :=
  bool_decide (is_Some (list_to_map (M := gmap string string) (columns r) !! "tube_barcode")).

Definition labware_type_of (bc : string) (rows : list MlwhRow) : Result LabwareType :=
  if forallb has_tube rows then Ok TUBE_RACK
  else if forallb (fun r => negb (has_tube r)) rows then Ok PLATE
  else if bool_decide (bc = "ODD") then Ok (OtherLabware "LabwareType.WELL")
  else Raise (mkExn (OtherException "IndeterminableLabwareException") bc).

(** SequenceScape accepts every container but those whose barcode starts
    with an F; it knows every entity but the study named [unknown].  Its
    state counts the requests it has served. *)
Definition accept (b : string) (n : nat) : (string * Z) * nat :=
  match b with
  | String (Ascii.Ascii false true true false false false true false) _ => ("barcode rejected: " +:+ b, 422%Z, S n)
  | _ => ("created " +:+ b, HTTPStatus.CREATED, S n)
  end.

Definition entity_uuid (entity name : string) (n : nat) : Result string * nat :=
  if bool_decide (name = "unknown")
  then (Raise (mkExn Exception_ ("Entity name does not exist: " +:+ name)), S n)
  else (Ok ("uuid-" +:+ name), S n).

#[export] Instance sequencescape : Collaborators := {|
  Env := nat;
  Body := string;
  Resp := string;
  STUDY_ENTITY := "studies";
  PLATE_PURPOSE_ENTITY := "plate_purposes";
  LYSATE_PLATE_PURPOSE := "Heron Lysed Plate";
  LYSATE_TR_PURPOSE := "Heron Lysed Tube Rack";
  get_entity_uuid := entity_uuid;
  determine_labware_type := labware_type_of;
  create_plate_body := fun bc _ _ _ => bc;
  create_tube_rack_body := fun bc _ _ _ => bc;
  create_plate := accept;
  create_tube_rack := accept;
  NOW := fun n => Z.of_nat n;
  iter_set := remove_dups;
  iter_set_NoDup := NoDup_remove_dups;
  iter_set_elem := elem_of_remove_dups;
  sql_reserved := fun s =>
    bool_decide (s ∈ ["select"; "from"; "where"; "order"; "by"; "update"; "set";
                      "in"; "and"; "or"; "is"; "null"; "table"])
|}.

(** The same SequenceScape in a process that iterates its sets the other
    way round. *)
Definition sequencescape_reversed : Collaborators := {|
  Env := nat;
  Body := string;
  Resp := string;
  STUDY_ENTITY := "studies";
  PLATE_PURPOSE_ENTITY := "plate_purposes";
  LYSATE_PLATE_PURPOSE := "Heron Lysed Plate";
  LYSATE_TR_PURPOSE := "Heron Lysed Tube Rack";
  get_entity_uuid := entity_uuid;
  determine_labware_type := labware_type_of;
  create_plate_body := fun bc _ _ _ => bc;
  create_tube_rack_body := fun bc _ _ _ => bc;
  create_plate := accept;
  create_tube_rack := accept;
  NOW := fun n => Z.of_nat n;
  iter_set := fun l => remove_dups (reverse l);
  iter_set_NoDup := fun l => NoDup_remove_dups (reverse l);
  iter_set_elem := fun l x =>
    iff_trans (elem_of_remove_dups (reverse l) x) (elem_of_reverse x l);
  sql_reserved := fun _ => false
|}.

Definition app : Config := mkConfig "cgap_heron" "CGAP".

Definition well (bc st : string) : MlwhRow :=
  mkRow bc st "CGAP" None [("coordinate", "A1")].

Definition tube (bc st : string) : MlwhRow :=
  mkRow bc st "CGAP" None [("tube_barcode", "T1")].

Definition world (rows : list MlwhRow) : World :=
  mkWorld {[ "cgap_heron" := rows ]} 0%nat [].

(** Three containers, the middle one rejected. *)
Definition rows_AFC : list MlwhRow :=
  [well "A" "s1"; well "A" "s1"; tube "F" "s2"; well "G" "s1"].

(** Nothing to do: one row is marked, the other goes elsewhere. *)
Definition rows_done : list MlwhRow :=
  [mkRow "A" "s1" "CGAP" (Some 5%Z) [("coordinate", "A1")];
   mkRow "B" "s1" "ELSEWHERE" None [("coordinate", "A1")]].

(** A study that SequenceScape does not know. *)
Definition rows_unknown : list MlwhRow :=
  [well "A" "unknown"].

(** Two studies, one of them unknown to SequenceScape. *)
Definition rows_two : list MlwhRow :=
  [well "A" "unknown"; well "B" "s1"].

(** A container between two plates with a well and a tube. *)
Definition rows_odd : list MlwhRow :=
  [well "Z" "s1"; well "ODD" "s1"; tube "ODD" "s1"; well "A" "s1"].

(** The world a run leaves behind. *)
Definition after (w : World) : World := (run app w).2.

(** The rack helpers: a rack is known unless its barcode is empty. *)
#[export] Instance rack_helpers : Racks.Helpers := {|
  Racks.Env := unit;
  Racks.Tubes := list string;
  Racks.Request := string;
  Racks.parse_tube_rack_csv := fun bc env => (Ok [bc], env);
  Racks.wrangle_tubes := fun bc env =>
    if bool_decide (bc = "") then (Raise (mkExn ValueError "no rack"), env)
    else (Ok bc, env);
  Racks.send_request_to_sequencescape := fun _ env => (Ok tt, env)
|}.

End Scenario.

(** * Properties *)

Close Scope string_scope.

(** ** [groupby] on lists *)

Section GroupbyFacts.
Context {A K : Type} `{EqDecision K} (key : A -> K).

Lemma groupby_from_concat k acc l :
  concat ((fun kg => kg.2) <$> groupby_from key k acc l) = acc ++ l.
Proof.
  revert k acc. induction l as [|x l IH]; intros k acc; simpl.
  - reflexivity.
  - destruct (decide (key x = k)); simpl.
    + rewrite IH, <- app_assoc. reflexivity.
    + rewrite IH. reflexivity.
Qed.

Lemma groupby_concat l : concat ((fun kg => kg.2) <$> groupby key l) = l.
Proof. destruct l as [|x l]; [reflexivity|]. apply groupby_from_concat. Qed.

Lemma groupby_from_groups k acc l :
  acc ≠ [] → Forall (fun x => key x = k) acc →
  Forall (group_ok key) (groupby_from key k acc l).
Proof.
  revert k acc. induction l as [|x l IH]; intros k acc Hne Hacc; simpl.
  - constructor; [split; assumption | constructor].
  - destruct (decide (key x = k)) as [Hk|Hk].
    + apply IH.
      * destruct acc; discriminate.
      * apply Forall_app. split; [assumption | constructor; [assumption | constructor]].
    + constructor; [split; assumption |].
      apply IH; [discriminate | constructor; [reflexivity | constructor]].
Qed.

Lemma groupby_groups l : Forall (group_ok key) (groupby key l).
Proof.
  destruct l as [|x l]; [constructor|].
  apply groupby_from_groups; [discriminate | constructor; [reflexivity | constructor]].
Qed.

Lemma groupby_from_keys k acc l :
  Forall (fun k' => k' = k ∨ k' ∈ key <$> l) ((fun kg => kg.1) <$> groupby_from key k acc l).
Proof.
  revert k acc. induction l as [|x l IH]; intros k acc; simpl.
  - constructor; [left; reflexivity | constructor].
  - destruct (decide (key x = k)) as [Hk|Hk]; simpl.
    + eapply Forall_impl; [apply IH|]. simpl. intros k' [->|Hin]; [left; reflexivity|].
      right. apply elem_of_cons. right. assumption.
    + constructor; [left; reflexivity|].
      eapply Forall_impl; [apply IH|]. simpl. intros k' [->|Hin].
      * right. apply elem_of_cons. left. reflexivity.
      * right. apply elem_of_cons. right. assumption.
Qed.

Lemma groupby_length l : length (groupby key l) ≤ length l.
Proof.
  assert (Hfrom : ∀ l k acc, length (groupby_from key k acc l) ≤ S (length l)).
  { clear l. induction l as [|x l IH]; intros k acc; simpl; [lia|].
    destruct (decide (key x = k)); simpl.
    - specialize (IH k (acc ++ [x])). lia.
    - specialize (IH (key x) [x]). lia. }
  destruct l as [|x l]; simpl; [lia|]. apply Hfrom.
Qed.

(** On a list whose keys are in order, the keys of the groups are in
    strict order: every key has one group. *)
Section Ordered.
Variable lt : K -> K -> Prop.
Hypothesis lt_trans : ∀ x y z, lt x y → lt y z → lt x z.

Let le (x y : K) : Prop := lt x y ∨ x = y.

Lemma groupby_from_sorted k acc l :
  StronglySorted (fun x y => le (key x) (key y)) l →
  Forall (fun x => le k (key x)) l →
  StronglySorted lt ((fun kg => kg.1) <$> groupby_from key k acc l).
Proof using lt_trans.
  revert k acc. induction l as [|x l IH]; intros k acc Hs Hk; simpl.
  - repeat constructor.
  - inversion Hs as [|? ? Hs' Hx]; subst. inversion Hk as [|? ? Hkx Hkl]; subst.
    destruct (decide (key x = k)) as [Heq|Hne]; simpl.
    + apply IH; assumption.
    + assert (Hlt : lt k (key x)) by (destruct Hkx as [?|?]; [assumption | congruence]).
      constructor.
      * apply IH; assumption.
      * eapply Forall_impl; [apply groupby_from_keys|]. simpl.
        intros k' [->|Hin]; [assumption|].
        apply list_elem_of_fmap in Hin as (y & -> & Hy).
        rewrite Forall_forall in Hx. destruct (Hx y Hy) as [Hxy|Hxy].
        -- eapply lt_trans; eassumption.
        -- rewrite <- Hxy. assumption.
Qed.

Lemma groupby_sorted l :
  StronglySorted (fun x y => le (key x) (key y)) l →
  StronglySorted lt ((fun kg => kg.1) <$> groupby key l).
Proof using lt_trans.
  destruct l as [|x l]; intros Hs; [constructor|].
  inversion Hs; subst. apply groupby_from_sorted; assumption.
Qed.

End Ordered.
End GroupbyFacts.

(** ** The order of the fetch *)

Import Cgap.

Lemma barcode_lt_iff a b : barcode_lt a b ↔ String_as_OT.lt a b.
Proof.
  unfold barcode_lt, String.ltb. rewrite <- String_as_OT.cmp_lt.
  unfold String_as_OT.cmp. destruct (String.compare a b); split; congruence.
Qed.

Lemma barcode_lt_trans a b c : barcode_lt a b → barcode_lt b c → barcode_lt a c.
Proof. rewrite !barcode_lt_iff. apply String_as_OT.lt_trans. Qed.

Lemma barcode_lt_irrefl a : ¬ barcode_lt a a.
Proof.
  rewrite barcode_lt_iff. intros Hlt.
  exact (String_as_OT.lt_not_eq _ _ Hlt eq_refl).
Qed.

Lemma barcode_le_iff a b : barcode_le a b ↔ barcode_lt a b ∨ a = b.
Proof.
  unfold barcode_le, barcode_lt, String.leb, String.ltb.
  destruct (String.compare a b) eqn:Hc; split; intros Hle; try congruence.
  - right. apply String_as_OT.cmp_eq. assumption.
  - left. reflexivity.
  - destruct Hle as [Hle|Hle]; [congruence|].
    apply String_as_OT.cmp_eq in Hle. unfold String_as_OT.cmp in Hle. congruence.
Qed.

Lemma barcode_le_trans a b c : barcode_le a b → barcode_le b c → barcode_le a c.
Proof.
  rewrite !barcode_le_iff. intros [Hab| ->] [Hbc| ->]; eauto using barcode_lt_trans.
Qed.

Lemma barcode_le_total a b : barcode_le a b ∨ barcode_le b a.
Proof. apply String.leb_total. Qed.

Lemma insert_by_barcode_hd r x l :
  rows_le x r → HdRel rows_le x l → HdRel rows_le x (insert_by_barcode r l).
Proof.
  intros Hxr Hhd. destruct l as [|y l]; simpl.
  - constructor. assumption.
  - destruct (String.leb _ _); constructor; [assumption|].
    inversion Hhd; assumption.
Qed.

Lemma insert_by_barcode_sorted r l :
  Sorted rows_le l → Sorted rows_le (insert_by_barcode r l).
Proof.
  induction 1 as [|x l Hs IH Hhd]; simpl.
  - repeat constructor.
  - destruct (String.leb (container_barcode r) (container_barcode x)) eqn:Hle.
    + constructor; [constructor; assumption | constructor; exact Hle].
    + constructor; [exact IH|].
      apply insert_by_barcode_hd; [|assumption].
      destruct (barcode_le_total (container_barcode x) (container_barcode r)) as [Hx|Hx];
        [exact Hx | unfold barcode_le in Hx; congruence].
Qed.

Lemma insert_by_barcode_perm r l : insert_by_barcode r l ≡ₚ r :: l.
Proof.
  induction l as [|x l IH]; simpl; [reflexivity|].
  destruct (String.leb _ _); [reflexivity|].
  rewrite IH. apply perm_swap.
Qed.

Lemma order_by_perm l : order_by_container_barcode l ≡ₚ l.
Proof.
  induction l as [|x l IH]; simpl; [reflexivity|].
  unfold order_by_container_barcode in *. simpl.
  rewrite insert_by_barcode_perm, IH. reflexivity.
Qed.

Lemma order_by_sorted l :
  StronglySorted rows_le (order_by_container_barcode l).
Proof.
  apply Sorted_StronglySorted.
  - intros x y z. apply barcode_le_trans.
  - induction l as [|x l IH]; [constructor|].
    apply insert_by_barcode_sorted. exact IH.
Qed.

(** The barcodes of the containers of a sorted fetch are in strict
    order, so no barcode has two groups. *)
Lemma sorted_groups_strict (rows : list MlwhRow) :
  StronglySorted rows_le rows →
  StronglySorted barcode_lt ((fun kg => kg.1) <$> groupby container_barcode rows).
Proof.
  intros Hs. apply groupby_sorted; [exact barcode_lt_trans|].
  induction Hs as [|x l Hs IH Hx]; constructor; [exact IH|].
  eapply Forall_impl; [exact Hx|]. intros y. apply barcode_le_iff.
Qed.

Lemma strict_NoDup (l : list string) : StronglySorted barcode_lt l → NoDup l.
Proof.
  induction 1 as [|x l Hs IH Hx]; constructor; [|assumption].
  intros Hin. rewrite Forall_forall in Hx.
  exact (barcode_lt_irrefl x (Hx x Hin)).
Qed.

(** ** Running the job *)

Section JobFacts.
Context `{Collaborators}.

Lemma bind_inv {W A B} (m : M W A) (k : A -> M W B) w r w' :
  bind m k w = (r, w') →
  (∃ a w1, m w = (Ok a, w1) ∧ k a w1 = (r, w')) ∨
  (∃ e, m w = (Raise e, w') ∧ r = Raise e).
Proof.
  unfold bind. destruct (m w) as [[a|e] w1]; intros Hk.
  - left. eauto.
  - right. inversion Hk; subst. eauto.
Qed.

Lemma bind_ok {W A B} (m : M W A) (k : A -> M W B) w a w1 :
  m w = (Ok a, w1) → bind m k w = k a w1.
Proof. unfold bind. intros ->. reflexivity. Qed.

Lemma bind_raise {W A B} (m : M W A) (k : A -> M W B) w e w1 :
  m w = (Raise e, w1) → bind m k w = (Raise e, w1).
Proof. unfold bind. intros ->. reflexivity. Qed.

(** *** Observations of a concatenation *)

Lemma updates_app tr1 tr2 : updates (tr1 ++ tr2) = updates tr1 ++ updates tr2.
Proof. apply omap_app. Qed.

Lemma submissions_app tr1 tr2 :
  submissions (tr1 ++ tr2) = submissions tr1 ++ submissions tr2.
Proof. apply omap_app. Qed.

Lemma submitted_app tr1 tr2 : submitted (tr1 ++ tr2) = submitted tr1 ++ submitted tr2.
Proof. unfold submitted. rewrite submissions_app, fmap_app. reflexivity. Qed.

Lemma lookups_app tr1 tr2 : lookups (tr1 ++ tr2) = lookups tr1 ++ lookups tr2.
Proof. apply omap_app. Qed.

Lemma failure_log_app tr1 tr2 :
  failure_log (tr1 ++ tr2) = failure_log tr1 ++ failure_log tr2.
Proof. apply omap_app. Qed.

Lemma container_events_app tr1 tr2 :
  container_events (tr1 ++ tr2) = container_events tr1 ++ container_events tr2.
Proof. apply List.filter_app. Qed.

Lemma reports_app tr1 tr2 : reports (tr1 ++ tr2) = reports tr1 ++ reports tr2.
Proof. apply List.filter_app. Qed.

(** *** One container *)

Lemma create_labware_spec kwargs g w res w' :
  create_labware kwargs g w = (res, w') →
  mlwh w' = mlwh w ∧
  ((∃ o, o_group o = g ∧ valid_outcome kwargs o ∧ res = Ok (response_of o) ∧
         trace w' = trace w ++ step_events kwargs o) ∨
   (∃ e, res = Raise e ∧ step_fails g e ∧
         trace w' = trace w ++ [EvDetermineLabwareType g.1])).
Proof.
  destruct g as [bc rows]. unfold create_labware, call_determine_labware_type.
  unfold bind at 1. unfold bind at 1. simpl.
  unfold lift. destruct (determine_labware_type bc rows) as [t|e] eqn:Ht.
  2:{ intros [= <- <-]. split; [reflexivity|]. right. exists e.
      split; [reflexivity|]. split; [left; exact Ht | reflexivity]. }
  destruct rows as [|row0 rows].
  { simpl. intros [= <- <-]. split; [reflexivity|]. right. eexists.
    split; [reflexivity|]. split; [right; right; split; reflexivity | reflexivity]. }
  unfold first_row, bind at 1, ret.
  destruct t as [| |repr].
  - unfold bind, emit, call_create_labware, ret. simpl.
    destruct (create_plate _ _) as [[response status] env'] eqn:Hsend.
    intros [= <- <-]. split; [reflexivity|]. left.
    exists (mkOutcome (bc, row0 :: rows) PLATE response status).
    split; [reflexivity|]. split.
    { split; [exact Ht|]. split; [left; reflexivity|]. split; [discriminate|].
      exists (outside w). simpl. unfold o_body. simpl.
      unfold purpose_uuid_of. rewrite Hsend. reflexivity. }
    split; [reflexivity|]. simpl. rewrite <- !app_assoc. reflexivity.
  - unfold bind, emit, call_create_labware, ret. simpl.
    destruct (create_tube_rack _ _) as [[response status] env'] eqn:Hsend.
    intros [= <- <-]. split; [reflexivity|]. left.
    exists (mkOutcome (bc, row0 :: rows) TUBE_RACK response status).
    split; [reflexivity|]. split.
    { split; [exact Ht|]. split; [right; reflexivity|]. split; [discriminate|].
      exists (outside w). simpl. unfold o_body. simpl.
      unfold purpose_uuid_of. rewrite Hsend. reflexivity. }
    split; [reflexivity|]. simpl. rewrite <- !app_assoc. reflexivity.
  - unfold raise. intros [= <- <-]. split; [reflexivity|]. right. eexists.
    split; [reflexivity|]. split; [|reflexivity].
    right; left. exists repr. split; [exact Ht | reflexivity].
Qed.

(** *** One report *)

Lemma log_bodies_spec response_list w :
  log_bodies response_list w =
  (Ok tt, mkWorld (mlwh w) (outside w)
            (trace w ++ ((fun r => EvLog ERROR (Payload (body r))) <$> response_list))).
Proof.
  revert w. induction response_list as [|r l IH]; intros w; simpl.
  - unfold ret. rewrite app_nil_r. destruct w; reflexivity.
  - unfold bind, logger_error, emit. rewrite IH. simpl.
    rewrite <- app_assoc. reflexivity.
Qed.

Lemma report_spec app successful r l rows w :
  mlwh w !! MLWH_DB_TABLE app = Some rows →
  report app successful (r :: l) w =
  (Ok tt, after_report app successful (r :: l) rows w).
Proof.
  intros Htable. unfold report, after_report. destruct successful.
  - unfold update_wrangled_labware, execute, logger_info, bind, emit, ret.
    rewrite fmap_cons. cbn [mlwh outside trace]. rewrite Htable.
    cbn [mlwh outside trace]. rewrite <- app_assoc. reflexivity.
  - unfold bind, logger_error, emit. rewrite log_bodies_spec. simpl.
    rewrite <- app_assoc. reflexivity.
Qed.

(** *** The schedule of the loop *)

Lemma schedule_same app kwargs tgt acc same rest completed :
  Forall (fun o => successful (response_of o) = tgt) same →
  schedule app kwargs tgt acc (same ++ rest) completed =
  concat (step_events kwargs <$> same) ++
  schedule app kwargs tgt (acc ++ (response_of <$> same)) rest completed.
Proof.
  revert acc. induction same as [|o same IH]; intros acc Hsame.
  - simpl. rewrite app_nil_r. reflexivity.
  - apply Forall_cons in Hsame as [Ho Hsame'].
    change ((o :: same) ++ rest) with (o :: (same ++ rest)).
    cbn [schedule]. rewrite decide_True by exact Ho.
    rewrite IH by exact Hsame'.
    rewrite fmap_cons. cbn [concat]. rewrite <- !app_assoc.
    reflexivity.
Qed.

Lemma schedule_same_end app kwargs tgt acc same completed :
  Forall (fun o => successful (response_of o) = tgt) same →
  schedule app kwargs tgt acc same completed =
  concat (step_events kwargs <$> same) ++
  schedule app kwargs tgt (acc ++ (response_of <$> same)) [] completed.
Proof.
  intros Hsame. rewrite <- schedule_same by exact Hsame.
  rewrite app_nil_r. reflexivity.
Qed.

Lemma updates_step kwargs o : updates (step_events kwargs o) = [].
Proof. reflexivity. Qed.

Lemma updates_steps kwargs os : updates (concat (step_events kwargs <$> os)) = [].
Proof.
  induction os as [|o os IH]; [reflexivity|].
  rewrite fmap_cons. cbn [concat]. rewrite updates_app, IH. reflexivity.
Qed.

Lemma updates_report app successful response_list :
  updates (report_events app successful response_list) =
  if successful then [barcode <$> response_list] else [].
Proof.
  destruct successful; [reflexivity|]. unfold report_events.
  change (updates (?e :: ?l)) with (updates l).
  induction response_list as [|r l IH]; [reflexivity | exact IH].
Qed.

(** *** Marker writes on the rows *)

Lemma marked_rows_nil rows : marked_rows [] rows rows.
Proof.
  apply Forall2_same_length_lookup_2; [reflexivity|].
  intros i r r' Hr Hr'. assert (r = r') by congruence. subst.
  split; [|reflexivity]. intros Hin. inversion Hin.
Qed.

Lemma marked_rows_step now bcs1 bcs2 rows rows' :
  marked_rows bcs2 (mark_wrangled now bcs1 <$> rows) rows' →
  marked_rows (bcs1 ++ bcs2) rows rows'.
Proof.
  unfold marked_rows. rewrite Forall2_fmap_l.
  intros Hm. eapply Forall2_impl; [exact Hm|]. clear Hm.
  simpl. intros r r' [Hin Hout].
  assert (Hbc : container_barcode (mark_wrangled now bcs1 r) = container_barcode r).
  { unfold mark_wrangled. destruct (decide _); reflexivity. }
  rewrite Hbc in Hin, Hout. split.
  - intros Hmem. destruct (decide (container_barcode r ∈ bcs2)) as [H2|H2].
    + destruct (Hin H2) as [t ->]. exists t.
      unfold mark_wrangled. destruct (decide _); reflexivity.
    + rewrite (Hout H2). apply elem_of_app in Hmem as [H1|H1]; [|contradiction].
      exists now. unfold mark_wrangled. rewrite decide_True by exact H1. reflexivity.
  - intros Hmem. rewrite elem_of_app in Hmem.
    rewrite Hout by tauto. unfold mark_wrangled.
    rewrite decide_False by tauto. reflexivity.
Qed.

(** *** The group iterator *)

(** The two loops of the iterator pull from the generator with [next]. *)
Lemma groupby_skip_next kwargs tgt groups w :
  groupby_skip kwargs tgt groups w =
  (do nx <- gen_next (mkGenerator kwargs groups);
   match nx.1 with
   | None => ret (None, [])
   | Some r =>
       if decide (Some (successful r) = tgt)
       then groupby_skip kwargs tgt (gen_groups nx.2)
       else ret (Some r, gen_groups nx.2)
   end) w.
Proof.
  destruct groups as [|g groups]; [reflexivity|].
  cbn [groupby_skip]. unfold gen_next, bind. cbn [gen_groups gen_kwargs].
  destruct (create_labware kwargs g w) as [[r|e] w1]; reflexivity.
Qed.

Lemma grouper_list_next kwargs tgt cur groups w :
  grouper_list kwargs tgt cur groups w =
  (do nx <- gen_next (mkGenerator kwargs groups);
   match nx.1 with
   | None =>
       ret ([cur], mkGroupBy (mkGenerator kwargs []) (Some tgt) (Some tgt) (Some cur))
   | Some r =>
       if decide (successful r = tgt)
       then do res <- grouper_list kwargs tgt r (gen_groups nx.2);
            ret (cur :: res.1, res.2)
       else ret ([cur], mkGroupBy nx.2 (Some tgt) (Some (successful r)) (Some r))
   end) w.
Proof.
  destruct groups as [|g groups]; [reflexivity|].
  cbn [grouper_list]. unfold gen_next, bind at 1 3 4. cbn [gen_groups gen_kwargs].
  destruct (create_labware kwargs g w) as [[r|e] w1]; reflexivity.
Qed.

Lemma grouper_list_spec kwargs tgt cur groups w res w' :
  grouper_list kwargs tgt cur groups w = (res, w') →
  ∃ same,
    Forall (valid_outcome kwargs) same ∧
    Forall (fun o => successful (response_of o) = tgt) same ∧
    mlwh w' = mlwh w ∧
    ((∃ cv, res = Ok (cur :: (response_of <$> same),
                      mkGroupBy (mkGenerator kwargs []) (Some tgt) (Some tgt) cv) ∧
            o_group <$> same = groups ∧
            trace w' = trace w ++ concat (step_events kwargs <$> same)) ∨
     (∃ o rest, valid_outcome kwargs o ∧ successful (response_of o) ≠ tgt ∧
                groups = (o_group <$> same) ++ o_group o :: rest ∧
                res = Ok (cur :: (response_of <$> same),
                          mkGroupBy (mkGenerator kwargs rest) (Some tgt)
                            (Some (successful (response_of o))) (Some (response_of o))) ∧
                trace w' = trace w ++ concat (step_events kwargs <$> same)
                                   ++ step_events kwargs o) ∨
     (∃ e g rest, res = Raise e ∧ groups = (o_group <$> same) ++ g :: rest ∧
                  step_fails g e ∧
                  trace w' = trace w ++ concat (step_events kwargs <$> same)
                                     ++ [EvDetermineLabwareType g.1])).
Proof.
  revert cur w res w'. induction groups as [|g groups IH]; intros cur w res w' Hrun.
  - simpl in Hrun. unfold ret in Hrun. inversion Hrun; subst. exists [].
    split; [constructor|]. split; [constructor|]. split; [reflexivity|].
    left. eexists. split; [reflexivity|]. split; [reflexivity|].
    simpl. rewrite app_nil_r. reflexivity.
  - simpl in Hrun. apply bind_inv in Hrun as [(r & w1 & Hstep & Hrest)|(e & Hstep & ->)].
    + apply create_labware_spec in Hstep as (Hdb1 & [(o & Hg & Hvalid & [= ->] & Htr1)|(e & [=] & _)]).
      destruct (decide (successful (response_of o) = tgt)) as [Hkey|Hkey].
      * apply bind_inv in Hrest as [([rl gb] & w2 & Hrec & Hret)|(e & Hrec & ->)].
        -- unfold ret in Hret. simpl in Hret. inversion Hret; subst res w2. clear Hret.
           apply IH in Hrec as (same & Hvs & Hks & Hdb2 & Hcase).
           exists (o :: same).
           split; [constructor; assumption|]. split; [constructor; assumption|].
           split; [congruence|].
           destruct Hcase as [(cv & [= -> ->] & Hgs & Htr)|[(o' & rest & Hv' & Hk' & Hgs & [= -> ->] & Htr)|(e & ? & ? & [=] & _)]].
           ++ left. exists cv. split; [reflexivity|]. split; [rewrite fmap_cons; congruence|].
              rewrite Htr, Htr1. simpl. rewrite <- !app_assoc. reflexivity.
           ++ right; left. exists o', rest. split; [assumption|]. split; [assumption|].
              split; [rewrite ?fmap_cons; simpl; congruence|]. split; [reflexivity|].
              rewrite Htr, Htr1. simpl. rewrite <- !app_assoc. reflexivity.
        -- apply IH in Hrec as (same & Hvs & Hks & Hdb2 & Hcase).
           exists (o :: same).
           split; [constructor; assumption|]. split; [constructor; assumption|].
           split; [congruence|].
           destruct Hcase as [(cv & [=] & _)|[(o' & rest & _ & _ & _ & [=] & _)|(e' & g' & rest & [= <-] & Hgs & Hfail & Htr)]].
           right; right. exists e, g', rest. split; [reflexivity|].
           split; [rewrite ?fmap_cons; simpl; congruence|]. split; [assumption|].
           rewrite Htr, Htr1. simpl. rewrite <- !app_assoc. reflexivity.
      * unfold ret in Hrest. inversion Hrest; subst res w1. clear Hrest.
        exists []. split; [constructor|]. split; [constructor|]. split; [assumption|].
        right; left. exists o, groups. split; [assumption|]. split; [assumption|].
        split; [rewrite ?fmap_cons; simpl; congruence|]. split; [reflexivity|].
        rewrite Htr1. reflexivity.
    + apply create_labware_spec in Hstep as (Hdb1 & [(o & _ & _ & [=] & _)|(e' & [= <-] & Hfail & Htr1)]).
      exists []. split; [constructor|]. split; [constructor|]. split; [assumption|].
      right; right. exists e, g, groups. split; [reflexivity|].
      split; [reflexivity|]. split; [assumption|]. rewrite Htr1. reflexivity.
Qed.

(** *** The loop of [run] *)

Lemma for_groups_exhausted f app kwargs tgt cv w :
  for_groups (S f) app
    (mkGroupBy (mkGenerator kwargs []) (Some tgt) (Some tgt) cv) w
  = (Ok (Some tt), w).
Proof.
  cbn [for_groups]. unfold groupby_next. cbn [currkey tgtkey].
  rewrite decide_True by reflexivity. reflexivity.
Qed.

Lemma for_groups_pending f app kwargs tgt k r rest w :
  k ≠ tgt →
  for_groups (S f) app
    (mkGroupBy (mkGenerator kwargs rest) (Some tgt) (Some k) (Some r)) w
  = (do rl <- grouper_list kwargs k r rest;
     do _ <- report app k (fst rl);
     for_groups f app (snd rl)) w.
Proof.
  intros Hk. cbn [for_groups]. unfold groupby_next. cbn [currkey tgtkey].
  rewrite decide_False by congruence. reflexivity.
Qed.

Lemma after_report_db app tgt rl rows1 w :
  mlwh w !! MLWH_DB_TABLE app = Some rows1 →
  ∃ rows2,
    mlwh (after_report app tgt rl rows1 w) !! MLWH_DB_TABLE app = Some rows2 ∧
    mlwh (after_report app tgt rl rows1 w) = <[MLWH_DB_TABLE app := rows2]> (mlwh w) ∧
    ∀ bcs rows', marked_rows bcs rows2 rows' →
      marked_rows (concat (updates (report_events app tgt rl)) ++ bcs) rows1 rows'.
Proof.
  intros Htable. rewrite updates_report. destruct tgt; simpl.
  - eexists. split; [apply lookup_insert_eq|]. split; [reflexivity|].
    intros bcs rows' Hm. rewrite app_nil_r. eapply marked_rows_step. exact Hm.
  - exists rows1. split; [exact Htable|]. split; [|intros; assumption].
    symmetry. apply insert_id. exact Htable.
Qed.

Lemma iteration_spec app kwargs fuel :
  ∀ tgt cur groups rows1 w res w',
    length groups < fuel →
    mlwh w !! MLWH_DB_TABLE app = Some rows1 →
    (do rl <- grouper_list kwargs tgt cur groups;
     do _ <- report app tgt (fst rl);
     for_groups fuel app (snd rl)) w = (res, w') →
    loop_post app kwargs rows1 groups (schedule app kwargs tgt [cur]) w res w'.
Proof.
  induction fuel as [|f IH]; intros tgt cur groups rows1 w res w' Hfuel Htable Hrun;
    [lia|].
  apply bind_inv in Hrun as [([rl gb] & w1 & Hgl & Hrest)|(e & Hgl & ->)].
  - apply grouper_list_spec in Hgl as (same & Hvs & Hks & Hdb1 & Hcase).
    assert (Htable1 : mlwh w1 !! MLWH_DB_TABLE app = Some rows1) by (rewrite Hdb1; exact Htable).
    destruct Hcase as [(cv & [= -> ->] & Hgs & Htr1)|[(o & rest & Hvo & Hko & Hgs & [= -> ->] & Htr1)|(e & ? & ? & [=] & _)]].
    + (* the generator is exhausted *)
      cbn [fst snd] in Hrest.
      rewrite (bind_ok _ _ _ _ _ (report_spec app tgt _ _ rows1 w1 Htable1)) in Hrest.
      rewrite for_groups_exhausted in Hrest. inversion Hrest; subst res w'. clear Hrest.
      destruct (after_report_db app tgt (cur :: (response_of <$> same)) rows1 w1 Htable1)
        as (rows2 & _ & Hdb2 & Hm).
      exists same, (concat (step_events kwargs <$> same)
                    ++ report_events app tgt (cur :: (response_of <$> same))), rows2.
      split; [assumption|].
      split; [simpl; rewrite Htr1, <- app_assoc; reflexivity|].
      split; [rewrite Hdb2, Hdb1; reflexivity|].
      split.
      { rewrite updates_app, updates_steps. simpl.
        specialize (Hm [] rows2 (marked_rows_nil _)). rewrite app_nil_r in Hm. exact Hm. }
      left. split; [reflexivity|]. split; [assumption|].
      rewrite schedule_same_end by assumption. reflexivity.
    + (* the key changes at [o] *)
      cbn [fst snd] in Hrest.
      rewrite (bind_ok _ _ _ _ _ (report_spec app tgt _ _ rows1 w1 Htable1)) in Hrest.
      rewrite for_groups_pending in Hrest by assumption.
      destruct (after_report_db app tgt (cur :: (response_of <$> same)) rows1 w1 Htable1)
        as (rows2 & Htable2 & Hdb2 & Hm).
      apply IH with (rows1 := rows2) in Hrest; [|subst groups; rewrite length_app in Hfuel; simpl in Hfuel; lia|exact Htable2].
      destruct Hrest as (os2 & tr2 & rows' & Hv2 & Htr2 & Hdb' & Hm2 & Hcase).
      exists (same ++ o :: os2),
        (concat (step_events kwargs <$> same) ++ step_events kwargs o
         ++ report_events app tgt (cur :: (response_of <$> same)) ++ tr2), rows'.
      split; [apply Forall_app; split; [assumption|constructor; assumption]|].
      split; [rewrite Htr2; simpl; rewrite Htr1, <- !app_assoc; reflexivity|].
      split; [rewrite Hdb', Hdb2, Hdb1, insert_insert_eq; reflexivity|].
      split.
      { rewrite !updates_app, updates_steps, updates_step. simpl.
        rewrite concat_app. apply Hm. exact Hm2. }
      assert (Hsched : ∀ c, schedule app kwargs tgt [cur] (same ++ o :: os2) c =
          concat (step_events kwargs <$> same) ++ step_events kwargs o
          ++ report_events app tgt (cur :: (response_of <$> same))
          ++ schedule app kwargs (successful (response_of o)) [response_of o] os2 c).
      { intros c. rewrite schedule_same by assumption. cbn [schedule].
        rewrite decide_False by assumption. reflexivity. }
      destruct Hcase as [(-> & Hg2 & ->)|(e & g & rest' & -> & Hg2 & Hfail & ->)].
      * left. split; [reflexivity|].
        split; [rewrite fmap_app, fmap_cons, Hg2; symmetry; exact Hgs|].
        rewrite Hsched. reflexivity.
      * right. exists e, g, rest'. split; [reflexivity|].
        split; [rewrite fmap_app, fmap_cons, <- app_assoc; simpl; rewrite <- Hg2; exact Hgs|].
        split; [assumption|]. rewrite Hsched, <- !app_assoc. reflexivity.
  - (* a container fails *)
    apply grouper_list_spec in Hgl as (same & Hvs & Hks & Hdb1 & Hcase).
    destruct Hcase as [(cv & [=] & _)|[(o & rest & _ & _ & _ & [=] & _)|(e' & g & rest & [= <-] & Hgs & Hfail & Htr1)]].
    exists same, (concat (step_events kwargs <$> same) ++ [EvDetermineLabwareType g.1]), rows1.
    split; [assumption|]. split; [assumption|].
    split; [rewrite Hdb1; symmetry; apply insert_id; exact Htable|].
    split; [rewrite updates_app, updates_steps; simpl; apply marked_rows_nil|].
    right. exists e, g, rest. split; [reflexivity|]. split; [assumption|].
    split; [assumption|].
    rewrite schedule_same_end by assumption.
    simpl. rewrite app_nil_r. reflexivity.
Qed.

Lemma for_groups_spec app kwargs n groups rows1 w res w' :
  length groups ≤ n →
  mlwh w !! MLWH_DB_TABLE app = Some rows1 →
  for_groups (S n) app (groupby_init (mkGenerator kwargs groups)) w = (res, w') →
  loop_post app kwargs rows1 groups (loop_events app kwargs) w res w'.
Proof.
  intros Hn Htable Hrun. cbn [for_groups] in Hrun.
  unfold groupby_next, groupby_init in Hrun. cbn [currkey tgtkey gb_it gen_kwargs gen_groups] in Hrun.
  rewrite decide_True in Hrun by reflexivity.
  destruct groups as [|g groups].
  - simpl in Hrun. unfold bind, ret in Hrun. simpl in Hrun. inversion Hrun; subst.
    exists [], [], rows1. split; [constructor|]. split; [rewrite app_nil_r; reflexivity|].
    split; [symmetry; apply insert_id; exact Htable|]. split; [apply marked_rows_nil|].
    left. repeat split; reflexivity.
  - cbn [groupby_skip] in Hrun.
    apply bind_inv in Hrun as [(nx & w0 & Hskip & Hrest)|(e & Hskip & ->)].
    + apply bind_inv in Hskip as [(nx' & w1 & Hskip & Hrest')|(e & Hskip & [=])].
      apply bind_inv in Hskip as [(r & w2 & Hstep & Hdec)|(e & Hstep & [=])].
      rewrite decide_False in Hdec by discriminate.
      unfold ret in Hdec, Hrest'. inversion Hdec; subst nx' w2. clear Hdec.
      cbn [fst snd] in Hrest'. inversion Hrest'; subst nx w1. clear Hrest'.
      cbn [fst snd] in Hrest. unfold list_responses in Hrest.
      cbn [currvalue tgtkey gb_it gen_kwargs gen_groups] in Hrest.
      apply create_labware_spec in Hstep as (Hdb0 & [(o & Hg & Hvo & [= ->] & Htr0)|(e & [=] & _)]).
      apply iteration_spec with (rows1 := rows1) in Hrest;
        [|simpl in Hn; lia|rewrite Hdb0; exact Htable].
      destruct Hrest as (os & tr & rows' & Hv & Htr & Hdb & Hm & Hcase).
      exists (o :: os), (step_events kwargs o ++ tr), rows'.
      split; [constructor; assumption|].
      split; [rewrite Htr, Htr0, <- app_assoc; reflexivity|].
      split; [rewrite Hdb, Hdb0; reflexivity|].
      split; [rewrite updates_app, updates_step; exact Hm|].
      destruct Hcase as [(-> & Hgs & ->)|(e & g' & rest & -> & Hgs & Hfail & ->)].
      * left. split; [reflexivity|]. split; [rewrite fmap_cons; congruence|]. reflexivity.
      * right. exists e, g', rest. split; [reflexivity|].
        split; [rewrite fmap_cons; simpl; congruence|]. split; [assumption|].
        cbn [loop_events]. rewrite <- app_assoc. reflexivity.
    + apply bind_inv in Hskip as [(nx' & w1 & Hskip & Hrest')|(e' & Hskip & [= <-])].
      { apply bind_inv in Hskip as [(r & w2 & Hstep & Hdec)|(e' & Hstep & [=])].
        rewrite decide_False in Hdec by discriminate. unfold ret in Hdec.
        inversion Hdec; subst. cbn [fst] in Hrest'. unfold ret in Hrest'. discriminate. }
      apply bind_inv in Hskip as [(r & w2 & Hstep & Hdec)|(e' & Hstep & [= <-])].
      { rewrite decide_False in Hdec by discriminate. discriminate. }
      apply create_labware_spec in Hstep as (Hdb0 & [(o & _ & _ & [=] & _)|(e' & [= <-] & Hfail & Htr0)]).
      exists [], [EvDetermineLabwareType g.1], rows1. split; [constructor|].
      split; [assumption|]. split; [rewrite Hdb0; symmetry; apply insert_id; exact Htable|].
      split; [apply marked_rows_nil|].
      right. exists e, g, groups. repeat split; try reflexivity. assumption.
Qed.

(** *** The lookups *)

Lemma call_get_entity_uuid_spec entity name w res w' :
  call_get_entity_uuid entity name w = (res, w') →
  mlwh w' = mlwh w ∧
  trace w' = trace w ++ [EvGetEntityUuid entity name] ∧
  ∃ env', get_entity_uuid entity name (outside w) = (res, env').
Proof.
  unfold call_get_entity_uuid, bind, emit. simpl.
  destruct (get_entity_uuid entity name (outside w)) as [r env'] eqn:Hget.
  intros [= <- <-]. simpl. eauto.
Qed.

Lemma study_uuid_dict_spec studies :
  ∀ d w res w',
    study_uuid_dict studies d w = (res, w') →
    mlwh w' = mlwh w ∧
    ∃ done rest,
      studies = done ++ rest ∧
      trace w' = trace w ++ lookup_events ((fun s => (STUDY_ENTITY, s)) <$> done) ∧
      ((∃ d', res = Ok d' ∧ rest = [] ∧ dom d' = dom d ∪ list_to_set studies) ∨
       (∃ e name env env', res = Raise e ∧ last done = Some name ∧
          get_entity_uuid STUDY_ENTITY name env = (Raise e, env'))).
Proof.
  induction studies as [|s l IH]; intros d w res w' Hrun.
  - simpl in Hrun. unfold ret in Hrun. inversion Hrun; subst.
    split; [reflexivity|]. exists [], []. split; [reflexivity|].
    split; [simpl; rewrite app_nil_r; reflexivity|].
    left. exists d. split; [reflexivity|]. split; [reflexivity|]. set_solver.
  - simpl in Hrun. apply bind_inv in Hrun as [(u & w1 & Hcall & Hrest)|(e & Hcall & ->)].
    + apply call_get_entity_uuid_spec in Hcall as (Hdb1 & Htr1 & _).
      apply IH in Hrest as (Hdb & done & rest & -> & Htr & Hcase).
      split; [congruence|]. exists (s :: done), rest. split; [reflexivity|].
      split; [rewrite Htr, Htr1, <- app_assoc; reflexivity|].
      destruct Hcase as [(d' & -> & -> & Hdom)|(e & name & env & env' & -> & Hlast & Hget)].
      * left. exists d'. split; [reflexivity|]. split; [reflexivity|].
        rewrite Hdom, dom_insert_L. set_solver.
      * right. exists e, name, env, env'. split; [reflexivity|]. split; [|assumption].
        destruct done; [discriminate | exact Hlast].
    + apply call_get_entity_uuid_spec in Hcall as (Hdb1 & Htr1 & env' & Hget).
      split; [assumption|]. exists [s], l. split; [reflexivity|].
      split; [assumption|]. right. exists e, s, (outside w), env'.
      repeat split; assumption.
Qed.

(** *** The whole run *)

(** [fetched] is what the fetch of [run] returns. *)
Lemma get_unwrangled_labware_fetched app w :
  get_unwrangled_labware (MLWH_DB_TABLE app) (CGAP_EXTRACTION_DESTINATION app) w =
  (match fetched app w with
   | Some rows => Ok rows
   | None => Raise (mkExn ProgrammingError "table does not exist")
   end,
   mkWorld (mlwh w) (outside w)
     (trace w ++ [EvExecute (SelectUnwrangled (MLWH_DB_TABLE app)
                               (CGAP_EXTRACTION_DESTINATION app))])).
Proof.
  unfold get_unwrangled_labware, execute, fetched, bind, emit. cbn [mlwh outside trace].
  destruct (mlwh w !! MLWH_DB_TABLE app); reflexivity.
Qed.

Lemma run_no_table app w :
  fetched app w = None →
  run app w =
  (Raise (mkExn ProgrammingError "table does not exist"),
   mkWorld (mlwh w) (outside w) (trace w ++ prologue app)).
Proof.
  unfold fetched. destruct (mlwh w !! MLWH_DB_TABLE app) eqn:Htable; [discriminate|].
  intros _. unfold run, get_unwrangled_labware, execute, logger_info, bind, emit.
  cbn [mlwh outside trace]. rewrite Htable. rewrite <- app_assoc. reflexivity.
Qed.

Lemma list_to_set_iter_set (l : list string) :
  list_to_set (C := gset string) (iter_set l) = list_to_set l.
Proof.
  apply set_eq. intros x. rewrite !elem_of_list_to_set. apply iter_set_elem.
Qed.

Lemma run_fetch app w rows :
  fetched app w = Some rows →
  run app w =
  (if Nat.eqb (length rows) 0 then ret (Some tt)
   else
     do study_uuids <- get_study_uuids (iter_set (study <$> rows));
     do plate_purpose_uuid <- get_plate_purpose_uuid;
     do rack_purpose_uuid <- get_tube_rack_purpose_uuid;
     for_groups (S (length rows)) app
       (groupby_init
          (create_labwares rows
             (mkKwargs (Some study_uuids)
                (Some [(PLATE, plate_purpose_uuid); (TUBE_RACK, rack_purpose_uuid)])))))
    (mkWorld (mlwh w) (outside w) (trace w ++ prologue app)).
Proof.
  unfold fetched. destruct (mlwh w !! MLWH_DB_TABLE app) as [rows0|] eqn:Htable;
    [|discriminate].
  intros [= <-]. unfold run, get_unwrangled_labware, execute, logger_info.
  unfold bind at 1. unfold emit at 1. unfold bind at 1. unfold bind at 1.
  unfold emit at 1. cbn [mlwh outside trace]. rewrite Htable.
  rewrite <- app_assoc. reflexivity.
Qed.

Lemma run_spec app w rows res w' :
  fetched app w = Some rows → rows ≠ [] →
  run app w = (res, w') →
  ∃ rows0 done rest w1,
    mlwh w !! MLWH_DB_TABLE app = Some rows0 ∧
    wanted rows = done ++ rest ∧
    mlwh w1 = mlwh w ∧
    trace w1 = trace w ++ prologue app ++ lookup_events done ∧
    ((∃ e p env env', res = Raise e ∧ w' = w1 ∧ last done = Some p ∧
        get_entity_uuid p.1 p.2 env = (Raise e, env')) ∨
     (rest = [] ∧
      ∃ d pp rp,
        dom d = list_to_set (study <$> rows) ∧
        loop_post app (mkKwargs (Some d) (Some [(PLATE, pp); (TUBE_RACK, rp)])) rows0
          (groupby container_barcode rows)
          (loop_events app (mkKwargs (Some d) (Some [(PLATE, pp); (TUBE_RACK, rp)])))
          w1 res w')).
Proof.
  intros Hfetch Hne Hrun. rewrite (run_fetch _ _ _ Hfetch) in Hrun.
  destruct rows as [|r0 rows]; [congruence|].
  cbn [length Nat.eqb] in Hrun.
  set (rs := r0 :: rows) in *.
  assert (∃ rows0, mlwh w !! MLWH_DB_TABLE app = Some rows0) as [rows0 Htable].
  { unfold fetched in Hfetch. destruct (mlwh w !! MLWH_DB_TABLE app); [eauto|discriminate]. }
  exists rows0.
  set (studies := iter_set (study <$> rs)).
  assert (Hwanted : wanted rs = ((fun s => (STUDY_ENTITY, s)) <$> studies)
            ++ [(PLATE_PURPOSE_ENTITY, LYSATE_PLATE_PURPOSE);
                (PLATE_PURPOSE_ENTITY, LYSATE_TR_PURPOSE)]) by reflexivity.
  apply bind_inv in Hrun as [(d & w1 & Hdict & Hrun)|(e & Hdict & ->)].
  - apply study_uuid_dict_spec in Hdict
      as (Hdb1 & done & rest & Hst & Htr1 & [(d' & [= <-] & -> & Hdom)|(? & ? & ? & ? & [=] & _)]).
    cbn [mlwh trace outside] in Hdb1, Htr1.
    rewrite app_nil_r in Hst. subst done.
    apply bind_inv in Hrun as [(pp & w2 & Hpp & Hrun)|(e & Hpp & ->)].
    + apply call_get_entity_uuid_spec in Hpp as (Hdb2 & Htr2 & _).
      apply bind_inv in Hrun as [(rp & w3 & Hrp & Hrun)|(e & Hrp & ->)].
      * apply call_get_entity_uuid_spec in Hrp as (Hdb3 & Htr3 & _).
        exists (wanted rs), [], w3. split; [assumption|].
        split; [rewrite app_nil_r; reflexivity|]. split; [congruence|].
        split.
        { rewrite Htr3, Htr2, Htr1, Hwanted. unfold lookup_events. rewrite fmap_app.
          simpl. rewrite <- !app_assoc. reflexivity. }
        right. split; [reflexivity|]. exists d, pp, rp.
        split; [rewrite Hdom, dom_empty_L; unfold studies;
                rewrite list_to_set_iter_set; set_solver|].
        unfold create_labwares in Hrun.
        eapply for_groups_spec; [|rewrite Hdb3, Hdb2, Hdb1; exact Htable|exact Hrun].
        exact (groupby_length container_barcode rs).
      * apply call_get_entity_uuid_spec in Hrp as (Hdb3 & Htr3 & env' & Hget).
        exists (wanted rs), [], w'. split; [assumption|].
        split; [rewrite app_nil_r; reflexivity|]. split; [congruence|].
        split.
        { rewrite Htr3, Htr2, Htr1, Hwanted. unfold lookup_events. rewrite fmap_app.
          simpl. rewrite <- !app_assoc. reflexivity. }
        left. exists e, (PLATE_PURPOSE_ENTITY, LYSATE_TR_PURPOSE), (outside w2), env'.
        split; [reflexivity|]. split; [reflexivity|].
        split; [rewrite Hwanted, last_app; reflexivity | exact Hget].
    + apply call_get_entity_uuid_spec in Hpp as (Hdb2 & Htr2 & env' & Hget).
      exists (((fun s => (STUDY_ENTITY, s)) <$> studies)
              ++ [(PLATE_PURPOSE_ENTITY, LYSATE_PLATE_PURPOSE)]),
        [(PLATE_PURPOSE_ENTITY, LYSATE_TR_PURPOSE)], w'.
      split; [assumption|]. split; [rewrite Hwanted, <- app_assoc; reflexivity|].
      split; [congruence|]. split.
      { rewrite Htr2, Htr1. unfold lookup_events. rewrite fmap_app.
        simpl. rewrite <- !app_assoc. reflexivity. }
      left. exists e, (PLATE_PURPOSE_ENTITY, LYSATE_PLATE_PURPOSE), (outside w1), env'.
      split; [reflexivity|]. split; [reflexivity|].
      split; [rewrite last_app; reflexivity | exact Hget].
  - apply study_uuid_dict_spec in Hdict
      as (Hdb1 & done & rest & Hst & Htr1 & [(? & [=] & _)|(e' & name & env & env' & [= <-] & Hlast & Hget)]).
    cbn [mlwh trace outside] in Hdb1, Htr1.
    exists ((fun s => (STUDY_ENTITY, s)) <$> done),
      (((fun s => (STUDY_ENTITY, s)) <$> rest)
       ++ [(PLATE_PURPOSE_ENTITY, LYSATE_PLATE_PURPOSE);
           (PLATE_PURPOSE_ENTITY, LYSATE_TR_PURPOSE)]), w'.
    split; [assumption|].
    split; [rewrite Hwanted; unfold studies; rewrite Hst, fmap_app, <- app_assoc; reflexivity|].
    split; [assumption|].
    split; [rewrite Htr1; simpl; rewrite <- app_assoc; reflexivity|].
    left. exists e, (STUDY_ENTITY, name), env, env'.
    split; [reflexivity|]. split; [reflexivity|].
    split; [rewrite fmap_last, Hlast; reflexivity | exact Hget].
Qed.

(** *** Observations of the loop *)

Lemma omap_fmap_None {A B C} (f : B → option C) (g : A → B) (l : list A) :
  (∀ x, f (g x) = None) → omap f (g <$> l) = [].
Proof.
  intros Hf. induction l as [|x l IH]; [reflexivity|].
  rewrite fmap_cons. cbn [omap list_omap]. rewrite Hf. exact IH.
Qed.

Lemma filter_fmap_false {A B} (f : B → bool) (g : A → B) (l : list A) :
  (∀ x, f (g x) = false) → List.filter f (g <$> l) = [].
Proof.
  intros Hf. induction l as [|x l IH]; [reflexivity|].
  rewrite fmap_cons. cbn [List.filter]. rewrite Hf. exact IH.
Qed.

Lemma filter_fmap_true {A B} (f : B → bool) (g : A → B) (l : list A) :
  (∀ x, f (g x) = true) → List.filter f (g <$> l) = g <$> l.
Proof.
  intros Hf. induction l as [|x l IH]; [reflexivity|].
  rewrite fmap_cons. cbn [List.filter]. rewrite Hf, IH. reflexivity.
Qed.

Lemma report_container_events app tgt acc :
  container_events (report_events app tgt acc) = [].
Proof.
  destruct tgt; [reflexivity|]. unfold report_events, container_events.
  cbn [List.filter is_container_event]. apply filter_fmap_false. reflexivity.
Qed.

Lemma report_submissions app tgt acc : submissions (report_events app tgt acc) = [].
Proof.
  destruct tgt; [reflexivity|]. unfold report_events, submissions.
  cbn [omap list_omap]. apply omap_fmap_None. reflexivity.
Qed.

Lemma report_lookups app tgt acc : lookups (report_events app tgt acc) = [].
Proof.
  destruct tgt; [reflexivity|]. unfold report_events, lookups.
  cbn [omap list_omap]. apply omap_fmap_None. reflexivity.
Qed.

Lemma report_reports app tgt acc :
  reports (report_events app tgt acc) = report_events app tgt acc.
Proof.
  destruct tgt; [reflexivity|]. unfold report_events, reports.
  cbn [List.filter is_report]. f_equal. apply filter_fmap_true. reflexivity.
Qed.

Lemma schedule_container_events app kwargs tgt acc os c :
  container_events (schedule app kwargs tgt acc os c) =
  concat (step_events kwargs <$> os).
Proof.
  revert tgt acc. induction os as [|o os IH]; intros tgt acc.
  - cbn [schedule]. destruct c; [apply report_container_events | reflexivity].
  - cbn [schedule]. rewrite fmap_cons. cbn [concat].
    rewrite container_events_app. f_equal.
    destruct (decide _); [apply IH|].
    rewrite container_events_app, report_container_events. apply IH.
Qed.

Lemma loop_container_events app kwargs os c :
  container_events (loop_events app kwargs os c) = concat (step_events kwargs <$> os).
Proof.
  destruct os as [|o os]; [reflexivity|]. cbn [loop_events].
  rewrite container_events_app, schedule_container_events. reflexivity.
Qed.

Lemma schedule_submissions app kwargs tgt acc os c :
  submissions (schedule app kwargs tgt acc os c) = submission_of <$> os.
Proof.
  revert tgt acc. induction os as [|o os IH]; intros tgt acc.
  - cbn [schedule]. destruct c; [apply report_submissions | reflexivity].
  - cbn [schedule]. rewrite fmap_cons, submissions_app.
    change (submissions (step_events kwargs o)) with [submission_of o].
    cbn [Datatypes.app]. f_equal.
    destruct (decide _); [apply IH|].
    rewrite submissions_app, report_submissions. apply IH.
Qed.

Lemma loop_submissions app kwargs os c :
  submissions (loop_events app kwargs os c) = submission_of <$> os.
Proof.
  destruct os as [|o os]; [reflexivity|]. cbn [loop_events].
  rewrite submissions_app, schedule_submissions. reflexivity.
Qed.

Lemma loop_submitted app kwargs os c :
  submitted (loop_events app kwargs os c) = (fun g => g.1) <$> (o_group <$> os).
Proof.
  unfold submitted. rewrite loop_submissions, <- !list_fmap_compose. reflexivity.
Qed.

Lemma schedule_lookups app kwargs tgt acc os c :
  lookups (schedule app kwargs tgt acc os c) = [].
Proof.
  revert tgt acc. induction os as [|o os IH]; intros tgt acc.
  - cbn [schedule]. destruct c; [apply report_lookups | reflexivity].
  - cbn [schedule]. rewrite lookups_app.
    change (lookups (step_events kwargs o)) with (@nil (string * string)).
    cbn [Datatypes.app]. destruct (decide _); [apply IH|].
    rewrite lookups_app, report_lookups. apply IH.
Qed.

Lemma loop_lookups app kwargs os c : lookups (loop_events app kwargs os c) = [].
Proof.
  destruct os as [|o os]; [reflexivity|]. cbn [loop_events].
  rewrite lookups_app, schedule_lookups. reflexivity.
Qed.

Lemma schedule_updates app kwargs tgt acc acc' os :
  barcode <$> acc = (fun s => s.1.1) <$> acc' →
  updates (schedule app kwargs tgt acc os true) =
  written (groupby_from succeeded tgt acc' (submission_of <$> os)).
Proof.
  revert tgt acc acc'. induction os as [|o os IH]; intros tgt acc acc' Hacc.
  - cbn [schedule fmap list_fmap groupby_from]. rewrite updates_report.
    unfold written. cbn [List.filter fst]. destruct tgt; [|reflexivity].
    cbn [fmap list_fmap snd]. rewrite Hacc. reflexivity.
  - cbn [schedule]. rewrite fmap_cons. cbn [groupby_from].
    rewrite updates_app, updates_step. cbn [Datatypes.app].
    change (succeeded (submission_of o)) with (successful (response_of o)).
    destruct (decide (successful (response_of o) = tgt)) as [Hk|Hk].
    + apply IH. rewrite !fmap_app, Hacc. reflexivity.
    + rewrite updates_app, updates_report.
      rewrite (IH _ _ [submission_of o]) by reflexivity.
      unfold written. cbn [List.filter fst]. destruct tgt; [|reflexivity].
      cbn [fmap list_fmap snd Datatypes.app]. rewrite Hacc. reflexivity.
Qed.

Lemma loop_updates app kwargs os :
  updates (loop_events app kwargs os true) =
  written (groupby succeeded (submission_of <$> os)).
Proof.
  destruct os as [|o os]; [reflexivity|]. cbn [loop_events].
  rewrite updates_app, updates_step. cbn [Datatypes.app].
  rewrite fmap_cons. cbn [groupby].
  apply (schedule_updates _ _ _ _ [submission_of o]). reflexivity.
Qed.

(** *** The shapes of a run *)

Lemma loop_post_shape app kwargs rows1 groups w res w' :
  loop_post app kwargs rows1 groups (loop_events app kwargs) w res w' →
  ∃ os c tail rest rows',
    Forall (valid_outcome kwargs) os ∧
    groups = (o_group <$> os) ++ rest ∧
    trace w' = trace w ++ loop_events app kwargs os c ++ tail ∧
    mlwh w' = <[MLWH_DB_TABLE app := rows']> (mlwh w) ∧
    marked_rows (concat (updates (loop_events app kwargs os c))) rows1 rows' ∧
    ((c = true ∧ tail = [] ∧ rest = [] ∧ res = Ok (Some tt)) ∨
     (c = false ∧ ∃ e g rest', res = Raise e ∧ rest = g :: rest' ∧ step_fails g e ∧
                               tail = [EvDetermineLabwareType g.1])).
Proof.
  intros (os & tr & rows' & Hv & Htr & Hdb & Hm & Hcase).
  destruct Hcase as [(-> & Hgs & ->)|(e & g & rest & -> & Hgs & Hfail & ->)].
  - exists os, true, [], [], rows'. rewrite !app_nil_r.
    repeat split; try assumption; try (symmetry; assumption). left. auto.
  - exists os, false, [EvDetermineLabwareType g.1], (g :: rest), rows'.
    rewrite updates_app in Hm. change (updates [EvDetermineLabwareType g.1]) with (@nil (list string)) in Hm.
    rewrite app_nil_r in Hm.
    repeat split; try assumption. right. split; [reflexivity|]. eauto 10.
Qed.

Lemma run_cases app w res w' :
  run app w = (res, w') →
  (fetched app w = None ∧ ∃ e, res = Raise e ∧
     w' = mkWorld (mlwh w) (outside w) (trace w ++ prologue app)) ∨
  (fetched app w = Some [] ∧ res = Ok (Some tt) ∧
     w' = mkWorld (mlwh w) (outside w) (trace w ++ prologue app)) ∨
  (∃ rows, fetched app w = Some rows ∧ rows ≠ []).
Proof.
  intros Hrun. destruct (fetched app w) as [[|r rows]|] eqn:Hfetch.
  - right; left. rewrite (run_fetch _ _ _ Hfetch) in Hrun. simpl in Hrun.
    unfold ret in Hrun. inversion Hrun; subst. auto.
  - right; right. exists (r :: rows). split; [reflexivity | discriminate].
  - left. rewrite (run_no_table _ _ Hfetch) in Hrun. inversion Hrun; subst. eauto.
Qed.

(** The bound on the iterations of the loop of [run] is never reached:
    a run returns or raises. *)
Lemma run_returns app w :
  (∃ w', run app w = (Ok (Some tt), w')) ∨ (∃ e w', run app w = (Raise e, w')).
Proof.
  destruct (run app w) as [res w'] eqn:Hrun.
  destruct (run_cases _ _ _ _ Hrun) as [(_ & e & -> & _)|[(_ & -> & _)|(rows & Hfetch & Hne)]];
    [right; eauto | left; eauto |].
  destruct (run_spec _ _ _ _ _ Hfetch Hne Hrun)
    as (rows0 & done & rest & w1 & _ & _ & _ & _ & Hcase).
  destruct Hcase as [(e & p & env & env' & -> & _)|(_ & d & pp & rp & _ & Hloop)];
    [right; eauto|].
  apply loop_post_shape in Hloop as (os & c & tail & rest' & rows' & _ & _ & _ & _ & _ & Hend).
  destruct Hend as [(_ & _ & _ & ->)|(_ & e & g & rest'' & -> & _)]; [left | right]; eauto.
Qed.

Lemma fetched_rows_in app w rows r :
  fetched app w = Some rows → r ∈ rows →
  ∃ rows0, mlwh w !! MLWH_DB_TABLE app = Some rows0 ∧ r ∈ rows0 ∧
           unwrangled (CGAP_EXTRACTION_DESTINATION app) r.
Proof.
  unfold fetched. destruct (mlwh w !! MLWH_DB_TABLE app) as [rows0|]; [|discriminate].
  intros [= <-] Hin. exists rows0. split; [reflexivity|].
  rewrite order_by_perm in Hin. apply list_elem_of_filter in Hin. tauto.
Qed.

Lemma fetched_sorted app w rows :
  fetched app w = Some rows → StronglySorted rows_le rows.
Proof.
  unfold fetched. destruct (mlwh w !! MLWH_DB_TABLE app) as [rows0|]; [|discriminate].
  intros [= <-]. apply order_by_sorted.
Qed.

Lemma elem_of_concat {A} (x : A) (ls : list (list A)) :
  x ∈ concat ls ↔ ∃ l, x ∈ l ∧ l ∈ ls.
Proof.
  rewrite list_elem_of_In, in_concat. split.
  - intros (l & Hl & Hx). exists l. rewrite !list_elem_of_In. tauto.
  - intros (l & Hx & Hl). exists l. rewrite <- !list_elem_of_In. tauto.
Qed.

(** A row of a group is a row of the list that was grouped. *)
Lemma group_rows_in (rows : list MlwhRow) g r :
  g ∈ groupby container_barcode rows → r ∈ g.2 → r ∈ rows.
Proof.
  intros Hg Hr. rewrite <- (groupby_concat container_barcode rows).
  apply elem_of_concat. exists g.2. split; [exact Hr|].
  apply list_elem_of_fmap. exists g. split; [reflexivity | exact Hg].
Qed.

Lemma group_barcode_in (rows : list MlwhRow) g :
  g ∈ groupby container_barcode rows →
  ∃ r, r ∈ rows ∧ container_barcode r = g.1 ∧ head g.2 = Some r.
Proof.
  intros Hg. pose proof (groupby_groups container_barcode rows) as Hok.
  rewrite Forall_forall in Hok. destruct (Hok g Hg) as [Hne Hall].
  destruct g as [k [|r l]]; [contradiction|]. exists r. simpl in *.
  split; [eapply group_rows_in; [exact Hg|left]|].
  apply Forall_cons in Hall as [Hr _]. split; [exact Hr | reflexivity].
Qed.

Lemma elem_of_steps kwargs os ev :
  ev ∈ concat (step_events kwargs <$> os) → ∃ o, o ∈ os ∧ ev ∈ step_events kwargs o.
Proof.
  intros Hin. apply elem_of_concat in Hin as (l & Hev & Hl).
  apply list_elem_of_fmap in Hl as (o & -> & Ho). eauto.
Qed.

Lemma elem_of_container_events ev tr :
  ev ∈ tr → is_container_event ev = true → ev ∈ container_events tr.
Proof.
  intros Hin Hc. apply list_elem_of_In. apply List.filter_In.
  split; [apply list_elem_of_In; exact Hin | exact Hc].
Qed.

Lemma lookups_lookup_events l : lookups (lookup_events l) = l.
Proof.
  induction l as [|[entity name] l IH]; [reflexivity|].
  unfold lookup_events, lookups in *. rewrite fmap_cons. cbn [omap list_omap fst snd].
  rewrite IH. reflexivity.
Qed.

Lemma submissions_lookup_events l : submissions (lookup_events l) = [].
Proof. apply omap_fmap_None. reflexivity. Qed.

Lemma updates_lookup_events l : updates (lookup_events l) = [].
Proof. apply omap_fmap_None. reflexivity. Qed.

Lemma failure_log_lookup_events l : failure_log (lookup_events l) = [].
Proof. apply omap_fmap_None. reflexivity. Qed.

Lemma failure_log_step kwargs o : failure_log (step_events kwargs o) = [].
Proof. reflexivity. Qed.

Lemma failure_log_report app tgt acc :
  failure_log (report_events app tgt acc) =
  if tgt then []
  else Text ("The following labware failed to be created: "
             +:+ join "," (barcode <$> acc))%string
       :: ((fun r => Payload (body r)) <$> acc).
Proof.
  destruct tgt; [reflexivity|]. unfold report_events, failure_log.
  cbn [omap list_omap]. f_equal.
  induction acc as [|r l IH]; [reflexivity|].
  rewrite !fmap_cons. cbn [omap list_omap]. rewrite IH. reflexivity.
Qed.

Lemma recognised_not_fails g e : recognised g → g.2 ≠ [] → ¬ step_fails g e.
Proof.
  intros Hrec Hne [Hf|[(repr & Hf & _)|(Hf & _)]].
  - destruct Hrec as [Hr|Hr]; congruence.
  - destruct Hrec as [Hr|Hr]; congruence.
  - contradiction.
Qed.

Lemma resolves_not_raise l done rest p env e env' :
  resolves l → l = done ++ rest → last done = Some p →
  get_entity_uuid p.1 p.2 env ≠ (Raise e, env').
Proof.
  intros Hres -> Hlast Hget. apply last_Some in Hlast as (done' & ->).
  destruct (Hres p) with (env := env) as (u & env'' & Hok).
  { apply elem_of_app. left. apply elem_of_app. right. left. }
  congruence.
Qed.

Lemma group_nonempty (rows : list MlwhRow) g :
  g ∈ groupby container_barcode rows → g.2 ≠ [].
Proof.
  intros Hg. pose proof (groupby_groups container_barcode rows) as Hok.
  rewrite Forall_forall in Hok. exact (proj1 (Hok g Hg)).
Qed.

Lemma run_shape app w rows res w' :
  fetched app w = Some rows → rows ≠ [] →
  run app w = (res, w') →
  ∃ rows0 rows' done rest kwargs os c tail groups_rest,
    mlwh w !! MLWH_DB_TABLE app = Some rows0 ∧
    wanted rows = done ++ rest ∧
    trace w' = trace w ++ prologue app ++ lookup_events done
                       ++ loop_events app kwargs os c ++ tail ∧
    mlwh w' = <[MLWH_DB_TABLE app := rows']> (mlwh w) ∧
    marked_rows (concat (updates (loop_events app kwargs os c))) rows0 rows' ∧
    Forall (valid_outcome kwargs) os ∧
    groupby container_barcode rows = (o_group <$> os) ++ groups_rest ∧
    ((∃ e p env env', res = Raise e ∧ os = [] ∧ tail = [] ∧ last done = Some p ∧
                      get_entity_uuid p.1 p.2 env = (Raise e, env')) ∨
     (rest = [] ∧ c = true ∧ tail = [] ∧ groups_rest = [] ∧ res = Ok (Some tt)) ∨
     (rest = [] ∧ c = false ∧
      ∃ e g rest', res = Raise e ∧ groups_rest = g :: rest' ∧ step_fails g e ∧
                   tail = [EvDetermineLabwareType g.1])).
Proof.
  intros Hfetch Hne Hrun.
  destruct (run_spec _ _ _ _ _ Hfetch Hne Hrun)
    as (rows0 & done & rest & w1 & Htable & Hwanted & Hdb1 & Htr1 & Hcase).
  destruct Hcase as [(e & p & env & env' & -> & -> & Hlast & Hget)|(-> & d & pp & rp & Hdom & Hloop)].
  - exists rows0, rows0, done, rest, (mkKwargs None None), [], false, [],
      (groupby container_barcode rows).
    split; [assumption|]. split; [assumption|].
    split; [rewrite Htr1; simpl; rewrite !app_nil_r; reflexivity|].
    split; [rewrite Hdb1; symmetry; apply insert_id; exact Htable|].
    split; [apply marked_rows_nil|]. split; [constructor|]. split; [reflexivity|].
    left. exists e, p, env, env'. auto.
  - apply loop_post_shape in Hloop
      as (os & c & tail & grest & rows' & Hv & Hgs & Htr & Hdb & Hm & Hend).
    exists rows0, rows', done, [], (mkKwargs (Some d) (Some [(PLATE, pp); (TUBE_RACK, rp)])),
      os, c, tail, grest.
    split; [assumption|]. split; [assumption|].
    split; [rewrite Htr, Htr1, <- !app_assoc; reflexivity|].
    split; [rewrite Hdb, Hdb1; reflexivity|].
    split; [assumption|]. split; [assumption|]. split; [assumption|].
    right. destruct Hend as [(-> & -> & -> & ->)|(-> & e & g & rest' & -> & -> & Hfail & ->)].
    + left. auto.
    + right. split; [reflexivity|]. split; [reflexivity|]. eauto 10.
Qed.

(** *** Marker writes come after the submissions they name *)

Lemma writes_follow_app seen tr1 tr2 :
  writes_follow_submissions seen (tr1 ++ tr2) ↔
  writes_follow_submissions seen tr1 ∧
  writes_follow_submissions (seen ++ submissions tr1) tr2.
Proof.
  revert seen. induction tr1 as [|ev tr1 IH]; intros seen.
  - simpl. rewrite app_nil_r. tauto.
  - cbn [Datatypes.app writes_follow_submissions]. rewrite IH.
    assert (Hseen : (seen ++ match ev with
                             | EvCreateLabware _ bc _ response status_code =>
                                 [(bc, response, status_code)]
                             | _ => []
                             end) ++ submissions tr1 = seen ++ submissions (ev :: tr1)).
    { rewrite <- app_assoc. f_equal. destruct ev; reflexivity. }
    rewrite Hseen. tauto.
Qed.

Lemma writes_follow_no_writes seen tr :
  updates tr = [] → writes_follow_submissions seen tr.
Proof.
  revert seen. induction tr as [|ev tr IH]; intros seen Hup; [exact I|].
  cbn [writes_follow_submissions]. destruct ev as [| [|] | | | |]; try discriminate;
    (split; [exact I | apply IH; exact Hup]).
Qed.

Lemma report_writes_follow app tgt acc seen :
  (tgt = true → ∀ r, r ∈ acc → ∃ response, (barcode r, response, HTTPStatus.CREATED) ∈ seen) →
  writes_follow_submissions seen (report_events app tgt acc).
Proof.
  intros Hacc. destruct tgt.
  - cbn [report_events writes_follow_submissions]. split; [|split; exact I].
    intros b Hb. apply list_elem_of_fmap in Hb as (r & -> & Hr). apply Hacc; [reflexivity | exact Hr].
  - apply writes_follow_no_writes. apply (updates_report app false).
Qed.

Lemma schedule_writes_follow app kwargs tgt acc os c seen :
  (tgt = true → ∀ r, r ∈ acc → ∃ response, (barcode r, response, HTTPStatus.CREATED) ∈ seen) →
  writes_follow_submissions seen (schedule app kwargs tgt acc os c).
Proof.
  revert tgt acc seen. induction os as [|o os IH]; intros tgt acc seen Hacc.
  - cbn [schedule]. destruct c; [apply report_writes_follow; exact Hacc | exact I].
  - cbn [schedule]. apply writes_follow_app. split; [repeat split|].
    change (submissions (step_events kwargs o)) with [submission_of o].
    assert (Hown : successful (response_of o) = true →
              ∃ response, (barcode (response_of o), response, HTTPStatus.CREATED)
                          ∈ seen ++ [submission_of o]).
    { intros Hk. apply bool_decide_eq_true_1 in Hk. exists (o_response o).
      apply elem_of_app. right. unfold submission_of. rewrite Hk. left. }
    assert (Hold : tgt = true → ∀ r, r ∈ acc →
              ∃ response, (barcode r, response, HTTPStatus.CREATED) ∈ seen ++ [submission_of o]).
    { intros Ht r Hr. destruct (Hacc Ht r Hr) as (response & Hin).
      exists response. apply elem_of_app. left. exact Hin. }
    destruct (decide (successful (response_of o) = tgt)) as [Hk|Hk].
    + apply IH. intros Ht r Hr. apply elem_of_app in Hr as [Hr|Hr].
      * apply Hold; assumption.
      * apply list_elem_of_singleton in Hr as ->. apply Hown. congruence.
    + apply writes_follow_app. split; [apply report_writes_follow; exact Hold|].
      rewrite report_submissions, app_nil_r.
      apply IH. intros Ht r Hr. apply list_elem_of_singleton in Hr as ->. apply Hown. exact Ht.
Qed.

Lemma loop_writes_follow app kwargs os c seen :
  writes_follow_submissions seen (loop_events app kwargs os c).
Proof.
  destruct os as [|o os]; [exact I|]. cbn [loop_events].
  apply writes_follow_app. split; [repeat split|].
  change (submissions (step_events kwargs o)) with [submission_of o].
  apply schedule_writes_follow. intros Hk r Hr.
  apply list_elem_of_singleton in Hr as ->.
  apply bool_decide_eq_true_1 in Hk. exists (o_response o).
  apply elem_of_app. right. unfold submission_of. rewrite Hk. left.
Qed.

Lemma writes_follow_split seen tr pre t bcs post :
  writes_follow_submissions seen tr →
  tr = pre ++ EvExecute (UpdateWrangled t bcs) :: post →
  ∀ b, b ∈ bcs → ∃ response, (b, response, HTTPStatus.CREATED) ∈ seen ++ submissions pre.
Proof.
  intros Hw -> b Hb. apply writes_follow_app in Hw as [_ Hw].
  cbn [writes_follow_submissions] in Hw. destruct Hw as [Hw _]. exact (Hw b Hb).
Qed.

Lemma writes_follow_updates tr :
  writes_follow_submissions [] tr →
  ∀ b, b ∈ concat (updates tr) → ∃ response, (b, response, HTTPStatus.CREATED) ∈ submissions tr.
Proof.
  intros Hw b Hb. apply elem_of_concat in Hb as (bcs & Hb & Hbcs).
  apply list_elem_of_omap in Hbcs as (ev & Hev & Hq).
  destruct ev as [| [|t bcs'] | | | |]; try discriminate. injection Hq as ->.
  apply list_elem_of_split in Hev as (pre & post & ->).
  destruct (writes_follow_split _ _ _ _ _ _ Hw eq_refl b Hb) as (response & Hin).
  exists response. rewrite submissions_app. apply elem_of_app. left. exact Hin.
Qed.

Lemma run_writes_follow app w res w' :
  run app w = (res, w') →
  ∃ tr, trace w' = trace w ++ tr ∧ writes_follow_submissions [] tr.
Proof.
  intros Hrun.
  destruct (run_cases _ _ _ _ Hrun) as [(_ & e & _ & ->)|[(_ & _ & ->)|(rows & Hfetch & Hne)]].
  - exists (prologue app). split; [reflexivity | repeat split].
  - exists (prologue app). split; [reflexivity | repeat split].
  - destruct (run_shape _ _ _ _ _ Hfetch Hne Hrun)
      as (rows0 & rows' & done & rest & kwargs & os & c & tail & grest
          & _ & _ & Htr & _ & _ & _ & _ & Hend).
    eexists. split; [exact Htr|].
    apply writes_follow_app. split; [repeat split|].
    apply writes_follow_app. split; [apply writes_follow_no_writes, updates_lookup_events|].
    apply writes_follow_app. split; [apply loop_writes_follow|].
    apply writes_follow_no_writes.
    destruct Hend as [(? & ? & ? & ? & ? & _ & -> & _)|[(_ & _ & -> & _)|(_ & _ & e & g & rest' & _ & _ & _ & ->)]];
      reflexivity.
Qed.

(** *** Writes and the groups of submissions *)

Lemma written_cons k g (G : list (bool * list (string * Resp * Z))) :
  written ((k, g) :: G) =
  (if k then [(fun s : string * Resp * Z => s.1.1) <$> g] else []) ++ written G.
Proof. destruct k; reflexivity. Qed.

Lemma written_groupby_from k acc (l : list (string * Resp * Z)) :
  concat (written (groupby_from succeeded k acc l)) =
  (if k then (fun s => s.1.1) <$> acc else [])
  ++ ((fun s => s.1.1) <$> List.filter succeeded l).
Proof.
  revert k acc. induction l as [|x l IH]; intros k acc.
  - cbn [groupby_from List.filter]. rewrite written_cons.
    destruct k; cbn [Datatypes.app concat fmap list_fmap]; rewrite ?app_nil_r; reflexivity.
  - cbn [groupby_from List.filter]. destruct (decide (succeeded x = k)) as [Hk|Hk].
    + rewrite IH. destruct k; rewrite Hk.
      * rewrite fmap_app, fmap_cons, <- app_assoc. reflexivity.
      * reflexivity.
    + rewrite written_cons, concat_app, IH.
      destruct k; destruct (succeeded x) eqn:Hx; try congruence.
      * cbn [concat Datatypes.app]. rewrite app_nil_r. reflexivity.
      * reflexivity.
Qed.

Lemma written_groupby (l : list (string * Resp * Z)) :
  concat (written (groupby succeeded l)) = (fun s => s.1.1) <$> List.filter succeeded l.
Proof.
  destruct l as [|x l]; [reflexivity|]. cbn [groupby].
  rewrite written_groupby_from. cbn [List.filter].
  destruct (succeeded x); reflexivity.
Qed.

Lemma run_updates app w w' done kwargs os c tail tr :
  trace w' = trace w ++ prologue app ++ lookup_events done
                     ++ loop_events app kwargs os c ++ tail →
  updates tail = [] → submissions tail = [] →
  trace w' = trace w ++ tr →
  updates tr = updates (loop_events app kwargs os c) ∧
  submissions tr = submission_of <$> os.
Proof.
  intros Htr Hut Hst Htr'. rewrite Htr in Htr'. apply app_inv_head in Htr'. subst tr.
  split.
  - rewrite !updates_app, updates_lookup_events, Hut, app_nil_r. reflexivity.
  - rewrite !submissions_app, submissions_lookup_events, loop_submissions, Hst, app_nil_r.
    reflexivity.
Qed.

Lemma valid_recognised kwargs o : valid_outcome kwargs o → recognised (o_group o).
Proof.
  intros (Ht & [Hp|Hp] & _); rewrite Hp in Ht; [left | right]; exact Ht.
Qed.

(** The containers that went through come before a container that is
    not recognised. *)
Lemma outcomes_before_unrecognised kwargs os groups_rest pre g post :
  Forall (valid_outcome kwargs) os → ¬ recognised g →
  pre ++ g :: post = (o_group <$> os) ++ groups_rest →
  ∃ k, pre = (o_group <$> os) ++ k ∧ groups_rest = k ++ g :: post.
Proof.
  intros Hv Hg Heq. apply app_eq_inv in Heq as [(k & Hpre & Hrest)|(k & Hos & Hrest)].
  - eauto.
  - destruct k as [|g' k].
    + exists []. rewrite app_nil_r in Hos. simpl in Hrest. rewrite app_nil_r. auto.
    + exfalso. injection Hrest as <- _. apply Hg.
      assert (Hin : g ∈ o_group <$> os) by (rewrite Hos; apply elem_of_app; right; left).
      apply list_elem_of_fmap in Hin as (o & -> & Ho).
      rewrite Forall_forall in Hv. eapply valid_recognised, Hv, Ho.
Qed.

Lemma fetched_groups_NoDup app w rows :
  fetched app w = Some rows →
  NoDup ((fun g => g.1) <$> groupby container_barcode rows).
Proof.
  intros Hfetch. apply strict_NoDup, sorted_groups_strict.
  eapply fetched_sorted. exact Hfetch.
Qed.

(** *** The reports of the loop *)

Lemma groupby_from_nonempty {A K} `{EqDecision K} (key : A → K) k acc l :
  groupby_from key k acc l ≠ [].
Proof.
  revert k acc. induction l as [|x l IH]; intros k acc; simpl; [discriminate|].
  destruct (decide (key x = k)); [apply IH | discriminate].
Qed.

Lemma schedule_reports app kwargs tgt acc os c :
  reports (schedule app kwargs tgt acc os c) =
  concat ((fun kg : bool * list SSResponse => report_events app kg.1 kg.2)
            <$> (if c then groupby_from successful tgt acc (response_of <$> os)
                 else removelast (groupby_from successful tgt acc (response_of <$> os)))).
Proof.
  revert tgt acc. induction os as [|o os IH]; intros tgt acc.
  - cbn [schedule fmap list_fmap groupby_from]. destruct c; [|reflexivity].
    rewrite report_reports. cbn [fmap list_fmap concat fst snd]. rewrite app_nil_r. reflexivity.
  - cbn [schedule]. rewrite fmap_cons. cbn [groupby_from].
    rewrite reports_app. change (reports (step_events kwargs o)) with (@nil Event).
    cbn [Datatypes.app].
    destruct (decide (successful (response_of o) = tgt)) as [Hk|Hk]; [apply IH|].
    rewrite reports_app, report_reports, IH.
    destruct c; [reflexivity|].
    pose proof (groupby_from_nonempty successful (successful (response_of o))
                  [response_of o] (response_of <$> os)) as Hnonempty.
    destruct (groupby_from successful (successful (response_of o)) [response_of o]
                (response_of <$> os)) as [|kg G]; [congruence|].
    reflexivity.
Qed.

Lemma loop_reports app kwargs os c :
  reports (loop_events app kwargs os c) = reported app c (response_of <$> os).
Proof.
  destruct os as [|o os]; [destruct c; reflexivity|]. cbn [loop_events].
  rewrite reports_app. change (reports (step_events kwargs o)) with (@nil Event).
  cbn [Datatypes.app]. rewrite schedule_reports. reflexivity.
Qed.

Lemma reports_lookup_events l : reports (lookup_events l) = [].
Proof. apply filter_fmap_false. reflexivity. Qed.

Lemma container_events_lookup_events l : container_events (lookup_events l) = [].
Proof. apply filter_fmap_false. reflexivity. Qed.

(** *** What a run does to the warehouse *)

Lemma marked_rows_inv bcs rows0 rows' r' :
  marked_rows bcs rows0 rows' → r' ∈ rows' →
  ∃ r0, r0 ∈ rows0 ∧ container_barcode r' = container_barcode r0 ∧
        (container_barcode r0 ∈ bcs → is_Some (wrangled r')) ∧
        (is_Some (wrangled r0) → is_Some (wrangled r')).
Proof.
  intros Hm Hin. apply list_elem_of_lookup in Hin as (i & Hi).
  destruct (Forall2_lookup_r _ _ _ _ _ Hm Hi) as (r0 & Hi0 & Hin0 & Hout0).
  exists r0. split; [eapply list_elem_of_lookup_2; exact Hi0|].
  destruct (decide (container_barcode r0 ∈ bcs)) as [Hb|Hb].
  - destruct (Hin0 Hb) as (t & ->). simpl. eauto.
  - rewrite (Hout0 Hb). split; [reflexivity|]. split; [contradiction | auto].
Qed.

Lemma marked_rows_markers_set bcs rows0 rows' :
  marked_rows bcs rows0 rows' → markers_set bcs rows0 rows'.
Proof.
  intros Hm. eapply Forall2_impl; [exact Hm|].
  intros r r' [Hin Hout]. cbn beta in *.
  destruct (decide (container_barcode r ∈ bcs)) as [Hb|Hb].
  - destruct (Hin Hb) as (t & ->). unfold set_wrangled. cbn.
    repeat split; try reflexivity; [eauto | contradiction].
  - rewrite (Hout Hb). repeat split; try reflexivity. contradiction.
Qed.

Lemma marked_rows_unnamed bcs rows0 rows' r :
  marked_rows bcs rows0 rows' → r ∈ rows0 → container_barcode r ∉ bcs → r ∈ rows'.
Proof.
  intros Hm Hr Hb. apply list_elem_of_lookup in Hr as (i & Hi).
  destruct (Forall2_lookup_l _ _ _ _ _ Hm Hi) as (r' & Hi' & _ & Hout).
  rewrite (Hout Hb) in Hi'. eapply list_elem_of_lookup_2. exact Hi'.
Qed.

Lemma run_effect app w res w' tr :
  run app w = (res, w') →
  trace w' = trace w ++ tr →
  (∀ b, b ∈ submitted tr →
        ∃ rows r, fetched app w = Some rows ∧ r ∈ rows ∧ container_barcode r = b) ∧
  (∀ rows0, mlwh w !! MLWH_DB_TABLE app = Some rows0 →
            ∃ rows', mlwh w' !! MLWH_DB_TABLE app = Some rows' ∧
                     marked_rows (concat (updates tr)) rows0 rows') ∧
  (mlwh w !! MLWH_DB_TABLE app = None → updates tr = []).
Proof.
  intros Hrun Htr.
  destruct (run_cases _ _ _ _ Hrun) as [(Hf & e & _ & ->)|[(Hf & _ & ->)|(rows & Hfetch & Hne)]].
  - cbn [trace] in Htr. apply app_inv_head in Htr. subst tr.
    split; [intros b Hb; inversion Hb|]. split; [|reflexivity].
    intros rows0 Ht. exists rows0. split; [exact Ht | apply marked_rows_nil].
  - cbn [trace] in Htr. apply app_inv_head in Htr. subst tr.
    split; [intros b Hb; inversion Hb|]. split; [|reflexivity].
    intros rows0 Ht. exists rows0. split; [exact Ht | apply marked_rows_nil].
  - destruct (run_shape _ _ _ _ _ Hfetch Hne Hrun)
      as (rows0 & rows' & done & rest & kwargs & os & c & tail & grest
          & Htable & _ & Htr0 & Hdb & Hm & _ & Hgs & Hend).
    assert (Htail : updates tail = [] ∧ submissions tail = []).
    { destruct Hend as [(? & ? & ? & ? & _ & _ & -> & _)|[(_ & _ & -> & _)|(_ & _ & ? & ? & ? & _ & _ & _ & ->)]];
        split; reflexivity. }
    destruct Htail as [Hut Hst].
    destruct (run_updates app w w' done kwargs os c tail tr Htr0 Hut Hst Htr) as [Hup Hsub].
    split; [|split].
    + intros b Hb. unfold submitted in Hb. rewrite Hsub in Hb.
      apply list_elem_of_fmap in Hb as (s & -> & Hs).
      apply list_elem_of_fmap in Hs as (o & -> & Ho).
      assert (Hg : o_group o ∈ groupby container_barcode rows).
      { rewrite Hgs. apply elem_of_app. left. apply list_elem_of_fmap. eauto. }
      destruct (group_barcode_in _ _ Hg) as (r & Hr & Hbc & _).
      exists rows, r. auto.
    + intros rows1 Ht. assert (rows1 = rows0) as -> by congruence.
      exists rows'. split; [rewrite Hdb; apply lookup_insert_eq|].
      rewrite Hup. exact Hm.
    + intros Ht. congruence.
Qed.

End JobFacts.

(** ** The claims on the job *)

(** [H] says that an event is in an explicit list of events of other
    kinds. *)
Ltac absurd_event H :=
  repeat (apply elem_of_cons in H as [H|H]; [discriminate|]); inversion H.

Section Claims.
Context `{Collaborators}.

(** C7. Empty-batch short circuit: when the fetch of unwrangled rows
    returns no row, [run] returns at once; all it has done is the log line
    and the fetch itself, so there is no lookup, no submission and no
    marker write, and the warehouse and the world outside are as before. *)
Theorem C7_empty_batch_short_circuit app w :
  fetched app w = Some [] →
  run app w =
    (Ok (Some tt), mkWorld (mlwh w) (outside w) (trace w ++ prologue app)) ∧
  lookups (prologue app) = [] ∧
  submissions (prologue app) = [] ∧
  updates (prologue app) = [].
Proof.
  intros Hfetch. split; [|repeat split].
  rewrite (run_fetch _ _ _ Hfetch). reflexivity.
Qed.

(** C9. Whenever [run] builds a request body, it is for a group of the
    fetched rows, the keys of the study map are the studies of all fetched
    rows, the study of the first row of the group is one of them, and the
    study identifier passed on is the value of the map there: the [None]
    that the lookup defaults to is never passed. *)
Theorem C9_study_uuid_always_resolved app w res w' :
  run app w = (res, w') →
  ∃ tr, trace w' = trace w ++ tr ∧
    ∀ t bc su pu, EvCreateBody t bc su pu ∈ tr →
      ∃ rows (d : gmap string string) g r,
        fetched app w = Some rows ∧
        dom d = list_to_set (study <$> rows) ∧
        g ∈ groupby container_barcode rows ∧ g.1 = bc ∧
        head g.2 = Some r ∧ study r ∈ dom d ∧
        su = d !! study r ∧ is_Some su.
Proof.
  intros Hrun.
  destruct (run_cases _ _ _ _ Hrun) as [(_ & e & _ & ->)|[(_ & _ & ->)|(rows & Hfetch & Hne)]].
  - exists (prologue app). split; [reflexivity|]. intros t bc su pu Hin.
    absurd_event Hin.
  - exists (prologue app). split; [reflexivity|]. intros t bc su pu Hin.
    absurd_event Hin.
  - destruct (run_spec _ _ _ _ _ Hfetch Hne Hrun)
      as (rows0 & done & rest & w1 & Htable & Hwanted & Hdb1 & Htr1 & Hcase).
    assert (Hpre : ∀ t bc su pu, EvCreateBody t bc su pu ∉ prologue app ++ lookup_events done).
    { intros t bc su pu Hin. apply elem_of_app in Hin as [Hin|Hin].
      - absurd_event Hin.
      - apply list_elem_of_fmap in Hin as (p & [=] & _). }
    destruct Hcase as [(e & p & env & env' & -> & -> & _)|(-> & d & pp & rp & Hdom & Hloop)].
    { exists (prologue app ++ lookup_events done). split; [assumption|].
      intros t bc su pu Hin. destruct (Hpre _ _ _ _ Hin). }
    apply loop_post_shape in Hloop
      as (os & c & tail & rest & rows' & Hv & Hgs & Htr & _ & _ & Hend).
    set (kwargs := mkKwargs (Some d) (Some [(PLATE, pp); (TUBE_RACK, rp)])) in *.
    exists (prologue app ++ lookup_events done ++ loop_events app kwargs os c ++ tail).
    split; [rewrite Htr, Htr1, <- !app_assoc; reflexivity|].
    intros t bc su pu Hin.
    rewrite app_assoc in Hin. apply elem_of_app in Hin as [Hin|Hin];
      [destruct (Hpre _ _ _ _ Hin)|].
    assert (Hloop : EvCreateBody t bc su pu ∈ loop_events app kwargs os c).
    { apply elem_of_app in Hin as [Hin|Hin]; [exact Hin|].
      destruct Hend as [(_ & -> & _)|(_ & e & g & rest' & _ & _ & _ & ->)].
      - inversion Hin.
      - apply elem_of_cons in Hin as [Hin|Hin]; [discriminate | inversion Hin]. }
    apply elem_of_container_events in Hloop; [|reflexivity].
    rewrite loop_container_events in Hloop.
    apply elem_of_steps in Hloop as (o & Ho & Hev).
    unfold step_events in Hev.
    apply elem_of_cons in Hev as [Hev|Hev]; [discriminate|].
    apply elem_of_cons in Hev as [Hev|Hev];
      [|apply elem_of_cons in Hev as [Hev|Hev]; [discriminate | inversion Hev]].
    injection Hev as -> -> -> ->.
    assert (Hg : o_group o ∈ groupby container_barcode rows).
    { rewrite Hgs. apply elem_of_app. left.
      apply list_elem_of_fmap. exists o. split; [reflexivity | exact Ho]. }
    destruct (group_barcode_in _ _ Hg) as (r & Hr & Hbc & Hhead).
    assert (Hkey : study r ∈ dom d).
    { rewrite Hdom. apply elem_of_list_to_set.
      apply list_elem_of_fmap. exists r. split; [reflexivity | exact Hr]. }
    exists rows, d, (o_group o), r.
    split; [assumption|]. split; [assumption|]. split; [assumption|].
    split; [reflexivity|]. split; [assumption|]. split; [assumption|].
    assert (Hsu : study_uuid_of kwargs (o_group o).2 = d !! study r).
    { destruct (o_group o).2 as [|r' l]; [discriminate|].
      injection Hhead as ->. reflexivity. }
    rewrite Hsu. split; [reflexivity|]. apply elem_of_dom. exact Hkey.
Qed.

(** C6, as amended. For a non-empty fetch, the lookups of the run are a
    prefix of: one study lookup for each distinct study of the rows, in
    the order in which the set of these studies is iterated, whatever it
    is, then the plate purpose, then the tube-rack purpose.  They are all
    of them unless a lookup fails, which ends the run there; and they all
    come before the first submission. *)
Theorem C6_lookups_before_submissions app w rows res w' :
  fetched app w = Some rows → rows ≠ [] →
  run app w = (res, w') →
  let names := iter_set (study <$> rows) in
  NoDup names ∧
  (∀ s, s ∈ names ↔ ∃ r, r ∈ rows ∧ study r = s) ∧
  wanted rows = ((fun s => (STUDY_ENTITY, s)) <$> names)
                ++ [(PLATE_PURPOSE_ENTITY, LYSATE_PLATE_PURPOSE);
                    (PLATE_PURPOSE_ENTITY, LYSATE_TR_PURPOSE)] ∧
  ∃ done rest pre post,
    wanted rows = done ++ rest ∧
    trace w' = trace w ++ pre ++ post ∧
    lookups pre = done ∧ submissions pre = [] ∧ lookups post = [] ∧
    (rest = [] ∨
     ∃ e p env env', res = Raise e ∧ post = [] ∧ last done = Some p ∧
                     get_entity_uuid p.1 p.2 env = (Raise e, env')).
Proof.
  intros Hfetch Hne Hrun names.
  split; [apply iter_set_NoDup|].
  split.
  { intros s. unfold names. rewrite iter_set_elem, list_elem_of_fmap.
    split; intros (r & Hr1 & Hr2); exists r; auto. }
  split; [reflexivity|].
  destruct (run_spec _ _ _ _ _ Hfetch Hne Hrun)
    as (rows0 & done & rest & w1 & Htable & Hwanted & Hdb1 & Htr1 & Hcase).
  assert (Hlk : lookups (prologue app ++ lookup_events done) = done).
  { rewrite lookups_app, lookups_lookup_events. reflexivity. }
  assert (Hsub : submissions (prologue app ++ lookup_events done) = []).
  { rewrite submissions_app, submissions_lookup_events. reflexivity. }
  destruct Hcase as [(e & p & env & env' & -> & -> & Hlast & Hget)|(-> & d & pp & rp & Hdom & Hloop)].
  - exists done, rest, (prologue app ++ lookup_events done), [].
    split; [assumption|]. split; [rewrite app_nil_r; assumption|].
    split; [assumption|]. split; [assumption|]. split; [reflexivity|].
    right. exists e, p, env, env'. auto.
  - apply loop_post_shape in Hloop
      as (os & c & tail & rest & rows' & Hv & Hgs & Htr & _ & _ & Hend).
    exists done, [], (prologue app ++ lookup_events done),
      (loop_events app (mkKwargs (Some d) (Some [(PLATE, pp); (TUBE_RACK, rp)])) os c ++ tail).
    split; [assumption|].
    split; [rewrite Htr, Htr1, <- !app_assoc; reflexivity|].
    split; [assumption|]. split; [assumption|].
    split; [|left; reflexivity].
    rewrite lookups_app, loop_lookups.
    destruct Hend as [(_ & -> & _)|(_ & e & g & rest' & _ & _ & _ & ->)]; reflexivity.
Qed.

(** C1. Partial-failure commit: the fetched rows form the containers A,
    B, C in that order, and in the run the submission for A is answered
    with the created status, the one for B with another status, and the
    one for C, which the classifier recognises, with the created status
    if it is made.  Then B's failure does not end the run: C is submitted
    after it and the run returns normally.  The marker writes are one for
    A and one for C, so they name A and C and not B; in the table the
    rows of A and C hold a time in their marker and nothing else has
    changed, the rows of B being there with their marker unset; and the
    failure log holds the line with B's barcode and the response to B's
    request. *)
Theorem C1_partial_failure_commit app w rows A B C ra rb rc res w' tr
    respA respB statusB :
  fetched app w = Some rows →
  groupby container_barcode rows = [(A, ra); (B, rb); (C, rc)] →
  recognised (C, rc) →
  run app w = (res, w') →
  trace w' = trace w ++ tr →
  (A, respA, HTTPStatus.CREATED) ∈ submissions tr →
  (B, respB, statusB) ∈ submissions tr →
  statusB ≠ HTTPStatus.CREATED →
  (∀ respC statusC, (C, respC, statusC) ∈ submissions tr →
                    statusC = HTTPStatus.CREATED) →
  res = Ok (Some tt) ∧
  ∃ respC rows0 rows',
    submissions tr = [(A, respA, HTTPStatus.CREATED); (B, respB, statusB);
                      (C, respC, HTTPStatus.CREATED)] ∧
    updates tr = [[A]; [C]] ∧ (B ∉ [A; C]) ∧
    failure_log tr =
      [Text ("The following labware failed to be created: " +:+ B)%string;
       Payload respB] ∧
    mlwh w !! MLWH_DB_TABLE app = Some rows0 ∧
    mlwh w' !! MLWH_DB_TABLE app = Some rows' ∧
    markers_set [A; C] rows0 rows' ∧
    (∀ r, r ∈ rb → r ∈ rows0 ∧ r ∈ rows' ∧ wrangled r = None).
Proof.
  intros Hfetch Hgroups HrC Hrun Htr HinA HinB HstB HinC.
  assert (Hne : rows ≠ []) by (intros ->; discriminate).
  pose proof (strict_NoDup _ (sorted_groups_strict _ (fetched_sorted _ _ _ Hfetch))) as Hnd.
  rewrite Hgroups in Hnd. cbn [fmap list_fmap fst] in Hnd.
  apply NoDup_cons in Hnd as [HA Hnd]. apply NoDup_cons in Hnd as [HB _].
  assert (HAB : A ≠ B) by (intros ->; apply HA; left).
  assert (HAC : A ≠ C) by (intros ->; apply HA; right; left).
  assert (HBC : B ≠ C) by (intros ->; apply HB; left).
  assert (Hdistinct : B ∉ [A; C]).
  { intros Hin. apply elem_of_cons in Hin as [->|Hin]; [congruence|].
    apply list_elem_of_singleton in Hin. congruence. }
  destruct (run_shape _ _ _ _ _ Hfetch Hne Hrun)
    as (rows0 & rows' & done & rest & kwargs & os & c & tail & grest
        & Htable & _ & Htr0 & Hdb & Hm & _ & Hgs & Hend).
  rewrite Htr0 in Htr. apply app_inv_head in Htr. subst tr.
  rewrite Hgroups in Hgs.
  assert (Hsub : submissions (prologue app ++ lookup_events done
                              ++ loop_events app kwargs os c ++ tail)
                 = submission_of <$> os).
  { rewrite !submissions_app, submissions_lookup_events, loop_submissions.
    destruct Hend as [(? & ? & ? & ? & _ & _ & -> & _)|[(_ & _ & -> & _)|(_ & _ & ? & g & ? & _ & _ & _ & ->)]];
      cbn; rewrite app_nil_r; reflexivity. }
  rewrite Hsub in HinA, HinB, HinC |- *.
  destruct os as [|oA [|oB [|oC [|? ?]]]].
  - inversion HinB.
  - exfalso. injection Hgs as HgA _. apply list_elem_of_singleton in HinB.
    unfold submission_of in HinB. rewrite <- HgA in HinB. cbn in HinB. congruence.
  - exfalso. injection Hgs as HgA HgB Hrest.
    destruct Hend as [(? & ? & ? & ? & _ & [=] & _)|[(_ & _ & _ & -> & _)|(_ & _ & e & g & rest' & _ & -> & Hfail & _)]];
      [discriminate|].
    injection Hrest as <- _.
    apply (recognised_not_fails (C, rc) e); [exact HrC| |exact Hfail].
    apply (group_nonempty rows). rewrite Hgroups. right; right; left.
  - injection Hgs as HgA HgB HgC Hrest.
    destruct Hend as [(? & ? & ? & ? & _ & [=] & _)|[(_ & -> & -> & _ & ->)|(_ & _ & e & g & rest' & _ & -> & _)]];
      [|discriminate].
    assert (HsA : (o_response oA, o_status oA) = (respA, HTTPStatus.CREATED)).
    { cbn [fmap list_fmap] in HinA. unfold submission_of in HinA.
      rewrite <- HgA, <- HgB, <- HgC in HinA. cbn [fst] in HinA.
      apply elem_of_cons in HinA as [HinA|HinA]; [congruence|].
      apply elem_of_cons in HinA as [HinA|HinA]; [congruence|].
      apply list_elem_of_singleton in HinA. congruence. }
    assert (HsB : (o_response oB, o_status oB) = (respB, statusB)).
    { cbn [fmap list_fmap] in HinB. unfold submission_of in HinB.
      rewrite <- HgA, <- HgB, <- HgC in HinB. cbn [fst] in HinB.
      apply elem_of_cons in HinB as [HinB|HinB]; [congruence|].
      apply elem_of_cons in HinB as [HinB|HinB]; [congruence|].
      apply list_elem_of_singleton in HinB. congruence. }
    assert (HsC : o_status oC = HTTPStatus.CREATED).
    { apply (HinC (o_response oC)). cbn [fmap list_fmap]. unfold submission_of.
      rewrite <- HgC. cbn [fst]. right; right; left. }
    injection HsA as HrA HsA. injection HsB as HrB HsB.
    assert (HkA : successful (response_of oA) = true)
      by (apply bool_decide_eq_true_2; exact HsA).
    assert (HkB : successful (response_of oB) = false)
      by (apply bool_decide_eq_false_2; rewrite HsB; exact HstB).
    assert (HkC : successful (response_of oC) = true)
      by (apply bool_decide_eq_true_2; exact HsC).
    assert (Hloop : loop_events app kwargs [oA; oB; oC] true =
              step_events kwargs oA ++ step_events kwargs oB
              ++ report_events app true [response_of oA]
              ++ step_events kwargs oC
              ++ report_events app false [response_of oB]
              ++ report_events app true [response_of oC]).
    { cbn [loop_events schedule]. rewrite HkA, HkB, HkC. reflexivity. }
    rewrite Hloop in Hm |- *. clear Hloop.
    assert (HbA : barcode (response_of oA) = A)
      by (unfold response_of; rewrite <- HgA; reflexivity).
    assert (HbB : barcode (response_of oB) = B)
      by (unfold response_of; rewrite <- HgB; reflexivity).
    assert (HbC : barcode (response_of oC) = C)
      by (unfold response_of; rewrite <- HgC; reflexivity).
    assert (Hupd : updates (step_events kwargs oA ++ step_events kwargs oB
              ++ report_events app true [response_of oA]
              ++ step_events kwargs oC
              ++ report_events app false [response_of oB]
              ++ report_events app true [response_of oC]) = [[A]; [C]]).
    { rewrite !updates_app, !updates_step, !updates_report.
      cbn [Datatypes.app fmap list_fmap]. rewrite HbA, HbC. reflexivity. }
    rewrite Hupd in Hm. cbn [concat Datatypes.app] in Hm.
    split; [reflexivity|].
    exists (o_response oC), rows0, rows'.
    split.
    { cbn [fmap list_fmap]. unfold submission_of.
      rewrite <- HgA, <- HgB, <- HgC, HrA, HsA, HrB, HsB, HsC. reflexivity. }
    split.
    { rewrite !updates_app, updates_lookup_events, <- !updates_app, app_nil_r.
      cbn [prologue updates omap list_omap Datatypes.app]. exact Hupd. }
    split; [assumption|].
    split.
    { rewrite !failure_log_app, failure_log_lookup_events, !failure_log_step,
        !failure_log_report.
      cbn [prologue failure_log omap list_omap Datatypes.app fmap list_fmap body response_of].
      rewrite HbB, HrB. reflexivity. }
    split; [assumption|].
    split; [rewrite Hdb, lookup_insert_eq; reflexivity|].
    split; [apply marked_rows_markers_set; exact Hm|].
    intros r Hr.
    assert (Hg : (B, rb) ∈ groupby container_barcode rows)
      by (rewrite Hgroups; right; left).
    assert (Hrows : r ∈ rows) by (eapply group_rows_in; [exact Hg | exact Hr]).
    destruct (fetched_rows_in _ _ _ _ Hfetch Hrows) as (rows0' & Ht0 & Hr0 & _ & Hunset).
    rewrite Htable in Ht0. injection Ht0 as <-.
    split; [exact Hr0|]. split; [|exact Hunset].
    apply (marked_rows_unnamed _ _ _ _ Hm Hr0).
    pose proof (groupby_groups container_barcode rows) as Hok.
    rewrite Forall_forall in Hok. destruct (Hok _ Hg) as [_ Hall].
    rewrite Forall_forall in Hall. rewrite (Hall r Hr). exact Hdistinct.
  - discriminate Hgs.
Qed.

(** C3, as amended. A marker write names only containers whose
    submission was answered with the created status before the write was
    issued.  (It can be issued before later containers are submitted.) *)
Theorem C3_writes_follow_their_submissions app w res w' tr pre t bcs post b :
  run app w = (res, w') →
  trace w' = trace w ++ tr →
  tr = pre ++ EvExecute (UpdateWrangled t bcs) :: post →
  b ∈ bcs →
  ∃ response, (b, response, HTTPStatus.CREATED) ∈ submissions pre.
Proof.
  intros Hrun Htr Hsplit Hb.
  destruct (run_writes_follow _ _ _ _ Hrun) as (tr0 & Htr0 & Hw).
  rewrite Htr0 in Htr. apply app_inv_head in Htr. subst tr0.
  exact (writes_follow_split _ _ _ _ _ _ Hw Hsplit b Hb).
Qed.

(** C2, as amended. In a run that returns normally, the marker writes
    are, in order, one statement for each maximal run of consecutive
    submissions answered with the created status; together they name each
    of these containers once, in the order of submission. *)
Theorem C2_one_write_per_run_of_successes app w w' tr :
  run app w = (Ok (Some tt), w') →
  trace w' = trace w ++ tr →
  updates tr = written (groupby succeeded (submissions tr)) ∧
  concat (updates tr) = (fun s => s.1.1) <$> List.filter succeeded (submissions tr).
Proof.
  intros Hrun Htr.
  assert (Hup : updates tr = written (groupby succeeded (submissions tr))).
  { destruct (run_cases _ _ _ _ Hrun) as [(_ & e & [=] & _)|[(_ & _ & ->)|(rows & Hfetch & Hne)]].
    - cbn [trace] in Htr. apply app_inv_head in Htr. subst tr. reflexivity.
    - destruct (run_shape _ _ _ _ _ Hfetch Hne Hrun)
        as (rows0 & rows' & done & rest & kwargs & os & c & tail & grest
            & _ & _ & Htr0 & _ & _ & _ & _ & Hend).
      destruct Hend as [(? & ? & ? & ? & [=] & _)|[(_ & -> & -> & _)|(_ & _ & e & g & rest' & [=] & _)]].
      destruct (run_updates app w w' done kwargs os true [] tr Htr0
                  eq_refl eq_refl Htr) as [-> ->].
      apply loop_updates. }
  split; [exact Hup|]. rewrite Hup. apply written_groupby.
Qed.

(** C5. A fetch with a container that the classifier does not give as
    plate or tube rack: the run ends with an exception.  What was
    submitted is a prefix of the containers before it, so neither it nor a
    container after it is submitted or named by a marker write; and when
    the lookups succeed and the containers before it are recognised, the
    exception is the one of this container, raised right after its
    classification, with every earlier container submitted. *)
Theorem C5_unrecognised_labware_aborts app w rows pre g post :
  fetched app w = Some rows →
  groupby container_barcode rows = pre ++ g :: post →
  ¬ recognised g →
  ∃ e w' tr,
    run app w = (Raise e, w') ∧
    trace w' = trace w ++ tr ∧
    submitted tr `prefix_of` ((fun g => g.1) <$> pre) ∧
    (∀ b, b ∈ concat (updates tr) → b ∈ submitted tr) ∧
    (∀ g', g' ∈ g :: post → (g'.1 ∉ submitted tr) ∧ (g'.1 ∉ concat (updates tr))) ∧
    (resolves (wanted rows) → Forall recognised pre →
     step_fails g e ∧ submitted tr = (fun g => g.1) <$> pre ∧
     last tr = Some (EvDetermineLabwareType g.1)).
Proof.
  intros Hfetch Hgroups Hg.
  assert (Hne : rows ≠ []) by (intros ->; destruct pre; discriminate).
  destruct (run app w) as [res w'] eqn:Hrun.
  destruct (run_shape _ _ _ _ _ Hfetch Hne Hrun)
    as (rows0 & rows' & done & rest & kwargs & os & c & tail & grest
        & Htable & Hwanted & Htr & _ & _ & Hv & Hgs & Hend).
  rewrite Hgroups in Hgs.
  destruct (outcomes_before_unrecognised _ _ _ _ _ _ Hv Hg Hgs) as (k & Hpre & Hrest).
  set (tr := prologue app ++ lookup_events done ++ loop_events app kwargs os c ++ tail) in *.
  assert (Htail : updates tail = [] ∧ submissions tail = []).
  { destruct Hend as [(? & ? & ? & ? & _ & _ & -> & _)|[(_ & _ & -> & _)|(_ & _ & ? & ? & ? & _ & _ & _ & ->)]];
      split; reflexivity. }
  destruct Htail as [Hut Hst].
  destruct (run_updates app w w' done kwargs os c tail tr Htr Hut Hst Htr) as [Hup Hsub].
  assert (Hsubmitted : submitted tr = (fun g => g.1) <$> (o_group <$> os)).
  { unfold submitted. rewrite Hsub, <- !list_fmap_compose. reflexivity. }
  assert (Hwritten : ∀ b, b ∈ concat (updates tr) → b ∈ submitted tr).
  { intros b Hb. destruct (run_writes_follow _ _ _ _ Hrun) as (tr0 & Htr0 & Hw).
    rewrite Htr in Htr0. apply app_inv_head in Htr0. subst tr0.
    destruct (writes_follow_updates _ Hw b Hb) as (response & Hin).
    unfold submitted. apply list_elem_of_fmap. eexists. split; [|exact Hin]. reflexivity. }
  assert (Hres : ∃ e, res = Raise e).
  { destruct Hend as [(e & ? & ? & ? & -> & _)|[(_ & _ & _ & -> & _)|(_ & _ & e & ? & ? & -> & _)]];
      [eauto| |eauto].
    destruct k; discriminate. }
  destruct Hres as [e ->]. exists e, w', tr.
  split; [reflexivity|]. split; [exact Htr|].
  split; [rewrite Hsubmitted, Hpre, fmap_app; apply prefix_app_r; reflexivity|].
  split; [exact Hwritten|].
  split.
  { assert (Hnot : ∀ g', g' ∈ g :: post → g'.1 ∉ submitted tr).
    { intros g' Hg' Hin.
      pose proof (fetched_groups_NoDup _ _ _ Hfetch) as Hnd.
      rewrite Hgroups, fmap_app in Hnd. apply NoDup_app in Hnd as (_ & Hdisj & _).
      apply (Hdisj g'.1).
      - rewrite Hpre, fmap_app. apply elem_of_app. left. rewrite <- Hsubmitted. exact Hin.
      - apply list_elem_of_fmap. exists g'. split; [reflexivity | exact Hg']. }
    intros g' Hg'. split; [apply Hnot; exact Hg'|].
    intros Hin. apply (Hnot g' Hg'), Hwritten, Hin. }
  intros Hresolves Hrec.
  destruct Hend as [(e' & p & env & env' & _ & _ & _ & Hlast & Hget)|[(_ & _ & _ & _ & [=])|(_ & _ & e' & g0 & rest' & [= <-] & -> & Hfail & ->)]].
  { destruct (resolves_not_raise _ _ _ _ _ _ _ Hresolves Hwanted Hlast Hget). }
  destruct k as [|g1 k].
  - injection Hrest as ->. rewrite app_nil_r in Hpre.
    split; [exact Hfail|]. split; [rewrite Hsubmitted, Hpre; reflexivity|].
    unfold tr. rewrite !app_assoc. apply last_snoc.
  - exfalso. injection Hrest as -> _.
    apply (recognised_not_fails g1 e); [| |exact Hfail].
    + rewrite Forall_forall in Hrec. apply Hrec. rewrite Hpre.
      apply elem_of_app. right. left.
    + apply (group_nonempty rows). rewrite Hgroups, Hpre.
      apply elem_of_app. left. apply elem_of_app. right. left.
Qed.

(** C8. Order preservation.  The fetched rows are in the order of their
    barcodes, and their groups are the maximal runs of rows of one
    barcode, a barcode having one group.  A run returns normally or
    raises.  When it returns normally every container has gone through,
    in the order of the groups; when it raises, either a lookup failed
    and no container was reached, or the containers before the one that
    failed have gone through, in that order.  The calls made for the
    containers are, container after container, the classification, the
    building of the body and the submission, with what the classifier and
    SequenceScape answered; the submissions are in the order of the
    groups; and the reports are made group by group of consecutive
    responses with the same outcome, so the barcodes are reported in the
    order in which they were submitted. *)
Theorem C8_order_preservation app w rows res w' tr :
  fetched app w = Some rows →
  run app w = (res, w') →
  trace w' = trace w ++ tr →
  StronglySorted rows_le rows ∧
  concat ((fun g => g.2) <$> groupby container_barcode rows) = rows ∧
  Forall (group_ok container_barcode) (groupby container_barcode rows) ∧
  StronglySorted barcode_lt ((fun g => g.1) <$> groupby container_barcode rows) ∧
  ∃ kwargs os c tail,
    Forall (valid_outcome kwargs) os ∧
    (o_group <$> os) `prefix_of` groupby container_barcode rows ∧
    ((res = Ok (Some tt) ∧ c = true ∧ tail = [] ∧
      o_group <$> os = groupby container_barcode rows) ∨
     (∃ e, res = Raise e ∧ c = false ∧
        ((os = [] ∧ tail = [] ∧
          ∃ p env env', p ∈ wanted rows ∧
                        get_entity_uuid p.1 p.2 env = (Raise e, env')) ∨
         (∃ g rest, groupby container_barcode rows = (o_group <$> os) ++ g :: rest ∧
                    step_fails g e ∧ tail = [EvDetermineLabwareType g.1])))) ∧
    container_events tr = concat (step_events kwargs <$> os) ++ tail ∧
    (tail = [] ∨ ∃ g : string * list MlwhRow, tail = [EvDetermineLabwareType g.1]) ∧
    submitted tr = (fun g => g.1) <$> (o_group <$> os) ∧
    reports tr = EvLog INFO (Text "Starting cgap extraction job")
                 :: reported app c (response_of <$> os) ∧
    barcode <$> concat ((fun kg => kg.2) <$> groupby successful (response_of <$> os))
    = submitted tr.
Proof.
  intros Hfetch Hrun Htr.
  split; [eapply fetched_sorted; exact Hfetch|].
  split; [apply groupby_concat|].
  split; [apply groupby_groups|].
  split; [eapply sorted_groups_strict, fetched_sorted; exact Hfetch|].
  assert (Hbar : ∀ os, barcode <$> concat ((fun kg => kg.2) <$> groupby successful (response_of <$> os))
                       = (fun g => g.1) <$> (o_group <$> os)).
  { intros os. rewrite groupby_concat, <- !list_fmap_compose. reflexivity. }
  destruct (run_cases _ _ _ _ Hrun) as [(Hnone & _)|[(Hempty & -> & ->)|(rows1 & Hfetch1 & Hne)]].
  - congruence.
  - cbn [trace] in Htr. apply app_inv_head in Htr. subst tr.
    assert (rows = []) as -> by congruence.
    exists (mkKwargs None None), [], true, [].
    split; [constructor|]. split; [reflexivity|].
    split; [left; repeat split; reflexivity|].
    repeat split; try reflexivity. left. reflexivity.
  - assert (rows1 = rows) as -> by congruence.
    destruct (run_shape _ _ _ _ _ Hfetch Hne Hrun)
      as (rows0 & rows' & done & rest & kwargs & os & c0 & tail & grest
          & _ & Hwanted & Htr0 & _ & _ & Hv & Hgs & Hend).
    rewrite Htr0 in Htr. apply app_inv_head in Htr. subst tr.
    assert (Hobs : ∀ c, (tail = [] ∨ ∃ g : string * list MlwhRow,
                                       tail = [EvDetermineLabwareType g.1]) →
              container_events (prologue app ++ lookup_events done
                                ++ loop_events app kwargs os c ++ tail)
              = concat (step_events kwargs <$> os) ++ tail ∧
              submitted (prologue app ++ lookup_events done
                         ++ loop_events app kwargs os c ++ tail)
              = (fun g => g.1) <$> (o_group <$> os) ∧
              reports (prologue app ++ lookup_events done
                       ++ loop_events app kwargs os c ++ tail)
              = EvLog INFO (Text "Starting cgap extraction job")
                :: reported app c (response_of <$> os)).
    { intros c Htail. split.
      { rewrite !container_events_app, container_events_lookup_events, loop_container_events.
        cbn [prologue container_events List.filter is_container_event Datatypes.app].
        f_equal. destruct Htail as [->|(g & ->)]; reflexivity. }
      split.
      { rewrite !submitted_app, loop_submitted. unfold submitted at 1 2 3.
        rewrite submissions_lookup_events.
        destruct Htail as [->|(g & ->)]; cbn; rewrite app_nil_r; reflexivity. }
      rewrite !reports_app, reports_lookup_events, loop_reports.
      cbn [prologue reports List.filter is_report Datatypes.app].
      f_equal. destruct Htail as [->|(g & ->)]; cbn; rewrite app_nil_r; reflexivity. }
    destruct Hend as [(e & p & env & env' & -> & -> & -> & Hlast & Hget)|[(_ & -> & -> & -> & ->)|(_ & -> & e & g & rest' & -> & -> & Hfail & ->)]].
    + destruct (Hobs c0 (or_introl eq_refl)) as (Hce & Hsub & Hrep).
      exists kwargs, [], false, [].
      split; [constructor|]. split; [apply prefix_nil|].
      split.
      { right. exists e. split; [reflexivity|]. split; [reflexivity|]. left.
        split; [reflexivity|]. split; [reflexivity|]. exists p, env, env'.
        split; [|exact Hget]. rewrite Hwanted. apply elem_of_app. left.
        apply last_Some in Hlast as (done' & ->). apply elem_of_app. right. left. }
      split; [exact Hce|]. split; [left; reflexivity|]. split; [exact Hsub|].
      split; [destruct c0; exact Hrep|]. rewrite Hsub. apply Hbar.
    + destruct (Hobs true (or_introl eq_refl)) as (Hce & Hsub & Hrep).
      rewrite app_nil_r in Hgs.
      exists kwargs, os, true, [].
      split; [exact Hv|]. split; [rewrite Hgs; reflexivity|].
      split; [left; split; [reflexivity|]; split; [reflexivity|]; split;
              [reflexivity | symmetry; exact Hgs]|].
      split; [exact Hce|]. split; [left; reflexivity|]. split; [exact Hsub|].
      split; [exact Hrep|]. rewrite Hsub. apply Hbar.
    + destruct (Hobs false (or_intror (ex_intro _ g eq_refl))) as (Hce & Hsub & Hrep).
      exists kwargs, os, false, [EvDetermineLabwareType g.1].
      split; [exact Hv|]. split; [exists (g :: rest'); exact Hgs|].
      split.
      { right. exists e. split; [reflexivity|]. split; [reflexivity|]. right.
        exists g, rest'. split; [exact Hgs|]. split; [exact Hfail | reflexivity]. }
      split; [exact Hce|]. split; [right; eauto|]. split; [exact Hsub|].
      split; [exact Hrep|]. rewrite Hsub. apply Hbar.
Qed.

(** C4. No duplicate submission.  The fetch keeps the rows whose marker
    is unset and the write sets the marker of every row of the barcodes it
    names, in the same table.  So a barcode named by a marker write of a
    run has all its rows marked after the run; and a barcode with all its
    rows marked before a run is not in the fetch of this run, is not
    submitted by it, and has all its rows marked after it: it is not
    submitted by any later run. *)
Theorem C4_no_duplicate_submission app w res w' tr b :
  run app w = (res, w') →
  trace w' = trace w ++ tr →
  (b ∈ concat (updates tr) → wrangled_in app b w') ∧
  (wrangled_in app b w →
   (∀ rows, fetched app w = Some rows → b ∉ container_barcode <$> rows) ∧
   (b ∉ submitted tr) ∧
   wrangled_in app b w').
Proof.
  intros Hrun Htr.
  destruct (run_effect _ _ _ _ _ Hrun Htr) as (Hsub & Hdb & Hnone).
  split.
  - intros Hb rows' r' Ht' Hr' Hbc.
    destruct (mlwh w !! MLWH_DB_TABLE app) as [rows0|] eqn:Ht.
    + destruct (Hdb rows0 eq_refl) as (rows1 & Ht1 & Hm).
      assert (rows1 = rows') as -> by congruence.
      destruct (marked_rows_inv _ _ _ _ Hm Hr') as (r0 & _ & Hbc0 & Hset & _).
      apply Hset. rewrite <- Hbc0, Hbc. exact Hb.
    + rewrite (Hnone eq_refl) in Hb. inversion Hb.
  - intros Hw.
    assert (Hfetch : ∀ rows, fetched app w = Some rows → b ∉ container_barcode <$> rows).
    { intros rows Hf Hin. apply list_elem_of_fmap in Hin as (r & -> & Hr).
      destruct (fetched_rows_in _ _ _ _ Hf Hr) as (rows0 & Ht & Hr0 & _ & Hunset).
      destruct (Hw rows0 r Ht Hr0 eq_refl) as (t & Hset). congruence. }
    split; [exact Hfetch|]. split.
    + intros Hin. destruct (Hsub b Hin) as (rows & r & Hf & Hr & Hbc).
      apply (Hfetch rows Hf). apply list_elem_of_fmap. exists r. auto.
    + intros rows' r' Ht' Hr' Hbc.
      destruct (mlwh w !! MLWH_DB_TABLE app) as [rows0|] eqn:Ht.
      * destruct (Hdb rows0 eq_refl) as (rows1 & Ht1 & Hm).
        assert (rows1 = rows') as -> by congruence.
        destruct (marked_rows_inv _ _ _ _ Hm Hr') as (r0 & Hr0 & Hbc0 & _ & Hkeep).
        apply Hkeep. apply (Hw rows0 r0 Ht Hr0). congruence.
      * exfalso. destruct (run_cases _ _ _ _ Hrun) as [(_ & e & _ & ->)|[(Hf & _)|(rows & Hf & _)]].
        -- simpl in Ht'. congruence.
        -- unfold fetched in Hf. rewrite Ht in Hf. discriminate.
        -- unfold fetched in Hf. rewrite Ht in Hf. discriminate.
Qed.

End Claims.

(** ** The claim on the rack routes *)

Section RackClaims.
Context `{Racks.Helpers}.
Import Racks.

(** C10. The route [/wrangle/<tube_rack_barcode>] never returns the
    status INTERNAL_SERVER_ERROR.  When its [try] block ends normally it
    returns the status OK; when the block raises an exception that is not
    a [ValueError] it returns an error body with the status NOT_FOUND; and
    when the block raises a [ValueError] the handler logs a warning and
    then raises an [AttributeError] itself, for the attribute [message],
    instead of returning. *)
Theorem C10_wrangle_never_internal_server_error (tube_rack_barcode : string) (w : World) :
  match wrangle_try tube_rack_barcode w with
  | (Ok v, w1) =>
      v = WithStatus (TextBody "POST request successfully sent to Sequencescape")
            HTTPStatus.OK ∧
      wrangle tube_rack_barcode w = (Ok v, w1)
  | (Raise e, w1) =>
      if is_ValueError e then
        wrangle tube_rack_barcode w =
        (Raise (mkExn AttributeError "object has no attribute 'message'"),
         mkWorld (outside w1) (log w1 ++ [(WARNING, str_exn e)]))
      else
        wrangle tube_rack_barcode w =
        (Ok (WithStatus (ErrorBody ("Server error: " +:+ str_exn e)%string)
               HTTPStatus.NOT_FOUND), w1)
  end ∧
  match (wrangle tube_rack_barcode w).1 with
  | Ok v =>
      (status_of v = Some HTTPStatus.OK ∨ status_of v = Some HTTPStatus.NOT_FOUND) ∧
      status_of v ≠ Some HTTPStatus.INTERNAL_SERVER_ERROR
  | Raise e => exn_class e = AttributeError
  end.
Proof.
  assert (Htry : ∀ v w1, wrangle_try tube_rack_barcode w = (Ok v, w1) →
            v = WithStatus (TextBody "POST request successfully sent to Sequencescape")
                  HTTPStatus.OK).
  { intros v w1. unfold wrangle_try, bind, logger, call, ret. simpl.
    destruct (wrangle_tubes _ _) as [[b|e] env1]; [|discriminate].
    simpl. destruct (send_request_to_sequencescape _ _) as [[[]|e] env2]; [|discriminate].
    intros [= <- _]. reflexivity. }
  unfold wrangle, try_except.
  destruct (wrangle_try tube_rack_barcode w) as [[v|e] w1] eqn:Hbody.
  - rewrite (Htry v w1 eq_refl). simpl. split; [split; reflexivity|].
    split; [left; reflexivity | discriminate].
  - destruct (is_ValueError e) eqn:He; simpl.
    + split; reflexivity.
    + split; [reflexivity|]. split; [right; reflexivity | discriminate].
Qed.

End RackClaims.

(** ** The claims on explicit runs *)

Section Runs.
Import Scenario.

Lemma run_after w : run app w = ((run app w).1, after w).
Proof. unfold after. apply surjective_pairing. Qed.

Lemma run_after_ok w :
  (run app w).1 = Ok (Some tt) → run app w = (Ok (Some tt), after w).
Proof. intros <-. apply run_after. Qed.

(** The rejected container of [rows_AFC]: the run marks A and G and logs
    the failure of F. *)
Lemma C1_witness :
  (run app (world rows_AFC)).1 = Ok (Some tt) ∧
  ∃ respC rows0 rows',
    submissions (trace (after (world rows_AFC))) =
      [("A", "created A", HTTPStatus.CREATED); ("F", "barcode rejected: F", 422%Z);
       ("G", respC, HTTPStatus.CREATED)]%string ∧
    updates (trace (after (world rows_AFC))) = [["A"]; ["G"]]%string ∧
    ("F"%string ∉ ["A"; "G"]%string) ∧
    failure_log (trace (after (world rows_AFC))) =
      [Text ("The following labware failed to be created: " +:+ "F")%string;
       Payload "barcode rejected: F"%string] ∧
    mlwh (world rows_AFC) !! MLWH_DB_TABLE app = Some rows0 ∧
    mlwh (after (world rows_AFC)) !! MLWH_DB_TABLE app = Some rows' ∧
    markers_set ["A"; "G"]%string rows0 rows' ∧
    (∀ r, r ∈ [tube "F" "s2"] → r ∈ rows0 ∧ r ∈ rows' ∧ wrangled r = None).
Proof.
  apply (C1_partial_failure_commit app (world rows_AFC) rows_AFC
           "A" "F" "G"
           [well "A" "s1"; well "A" "s1"] [tube "F" "s2"] [well "G" "s1"]
           (run app (world rows_AFC)).1 (after (world rows_AFC))
           (trace (after (world rows_AFC)))
           "created A"%string "barcode rejected: F"%string 422%Z).
  - vm_compute. reflexivity.
  - vm_compute. reflexivity.
  - left. vm_compute. reflexivity.
  - apply run_after.
  - reflexivity.
  - apply list_elem_of_lookup. exists 0%nat. reflexivity.
  - apply list_elem_of_lookup. exists 1%nat. reflexivity.
  - vm_compute. discriminate.
  - intros respC statusC Hin.
    assert (Hs : submissions (trace (after (world rows_AFC))) =
                 [("A", "created A", HTTPStatus.CREATED);
                  ("F", "barcode rejected: F", 422%Z);
                  ("G", "created G", HTTPStatus.CREATED)]%string) by reflexivity.
    rewrite Hs in Hin.
    repeat (apply elem_of_cons in Hin as [Hin|Hin];
            [try discriminate Hin; injection Hin as _ ->; reflexivity|]).
    inversion Hin.
Defined.

(** The run on [rows_AFC] returns normally and issues two marker writes,
    one for A and one for G: no single statement names both. *)
Lemma C2_counterexample :
  (run app (world rows_AFC)).1 = Ok (Some tt) ∧
  (fun s => s.1.1) <$> List.filter succeeded (submissions (trace (after (world rows_AFC))))
  = ["A"; "G"]%string ∧
  updates (trace (after (world rows_AFC))) = [["A"]; ["G"]]%string ∧
  ¬ ∃ bcs, updates (trace (after (world rows_AFC))) = [bcs].
Proof.
  split; [vm_compute; reflexivity|]. split; [vm_compute; reflexivity|].
  split; [vm_compute; reflexivity|].
  intros [bcs Hb]. vm_compute in Hb. discriminate.
Qed.

Lemma C2_witness :
  updates (trace (after (world rows_AFC)))
  = written (groupby succeeded (submissions (trace (after (world rows_AFC))))) ∧
  concat (updates (trace (after (world rows_AFC))))
  = (fun s => s.1.1) <$> List.filter succeeded (submissions (trace (after (world rows_AFC)))).
Proof.
  apply (C2_one_write_per_run_of_successes app (world rows_AFC) (after (world rows_AFC))).
  - apply run_after_ok. vm_compute. reflexivity.
  - reflexivity.
Defined.

(** In the run on [rows_AFC] the marker write for A is issued before G
    is submitted. *)
Lemma C3_counterexample :
  ∃ pre post,
    trace (after (world rows_AFC))
    = pre ++ EvExecute (UpdateWrangled "cgap_heron" ["A"%string]) :: post ∧
    submitted pre = ["A"; "F"]%string ∧
    submitted post = ["G"]%string.
Proof.
  exists (take 12 (trace (after (world rows_AFC)))),
         (drop 13 (trace (after (world rows_AFC)))).
  repeat split; reflexivity.
Qed.

Lemma C3_witness :
  ∃ response,
    ("A"%string, response, HTTPStatus.CREATED)
    ∈ submissions (take 12 (trace (after (world rows_AFC)))).
Proof.
  apply (C3_writes_follow_their_submissions app (world rows_AFC)
           (run app (world rows_AFC)).1 (after (world rows_AFC))
           (trace (after (world rows_AFC)))
           (take 12 (trace (after (world rows_AFC)))) "cgap_heron" ["A"%string]
           (drop 13 (trace (after (world rows_AFC)))) "A").
  - apply run_after.
  - reflexivity.
  - reflexivity.
  - left.
Defined.

(** After the run on [rows_AFC] every row of A is marked, and the next
    run does not submit A. *)
Lemma C4_witness :
  wrangled_in app "A" (after (world rows_AFC)) ∧
  "A"%string ∉ submitted (drop 21 (trace (after (after (world rows_AFC))))).
Proof.
  destruct (C4_no_duplicate_submission app (world rows_AFC)
              (run app (world rows_AFC)).1 (after (world rows_AFC))
              (trace (after (world rows_AFC))) "A") as [Hmark _].
  { apply run_after. }
  { reflexivity. }
  assert (Hw : wrangled_in app "A" (after (world rows_AFC))).
  { apply Hmark. vm_compute. left. }
  destruct (C4_no_duplicate_submission app (after (world rows_AFC))
              (run app (after (world rows_AFC))).1 (after (after (world rows_AFC)))
              (drop 21 (trace (after (after (world rows_AFC))))) "A") as [_ Hkeep].
  { apply run_after. }
  { reflexivity. }
  split; [exact Hw | exact (proj1 (proj2 (Hkeep Hw)))].
Defined.

(** The run on [rows_odd] ends at the container ODD, after A was
    submitted; Z is not reached. *)
Lemma C5_witness :
  ∃ e w' tr,
    run app (world rows_odd) = (Raise e, w') ∧
    trace w' = trace (world rows_odd) ++ tr ∧
    step_fails ("ODD"%string, [well "ODD" "s1"; tube "ODD" "s1"]) e ∧
    submitted tr = ["A"%string] ∧
    "Z"%string ∉ submitted tr.
Proof.
  destruct (C5_unrecognised_labware_aborts app (world rows_odd)
              [well "A" "s1"; well "ODD" "s1"; tube "ODD" "s1"; well "Z" "s1"]
              [("A"%string, [well "A" "s1"])]
              ("ODD"%string, [well "ODD" "s1"; tube "ODD" "s1"])
              [("Z"%string, [well "Z" "s1"])])
    as (e & w' & tr & Hrun & Htr & _ & _ & Hafter & Hat).
  - vm_compute. reflexivity.
  - vm_compute. reflexivity.
  - intros [Hr|Hr]; vm_compute in Hr; discriminate.
  - exists e, w', tr. split; [exact Hrun|]. split; [exact Htr|].
    destruct Hat as (Hfail & Hsub & _).
    + intros p Hp env. vm_compute in Hp.
      repeat (apply elem_of_cons in Hp as [->|Hp]; [eexists _, _; vm_compute; reflexivity|]).
      inversion Hp.
    + repeat constructor.
    + split; [exact Hfail|]. split; [exact Hsub|].
      apply (Hafter ("Z"%string, [well "Z" "s1"])). right. left.
Defined.

(** The run on [rows_unknown] makes one lookup, which fails: neither
    purpose is looked up. *)
Lemma C6_counterexample :
  fetched app (world rows_unknown) = Some rows_unknown ∧
  rows_unknown ≠ [] ∧
  wanted rows_unknown =
    [("studies", "unknown"); ("plate_purposes", "Heron Lysed Plate");
     ("plate_purposes", "Heron Lysed Tube Rack")]%string ∧
  lookups (trace (after (world rows_unknown))) = [("studies", "unknown")]%string ∧
  ¬ (lookups (trace (after (world rows_unknown))) ≡ₚ wanted rows_unknown).
Proof.
  split; [vm_compute; reflexivity|]. split; [discriminate|].
  split; [vm_compute; reflexivity|]. split; [vm_compute; reflexivity|].
  intros Hperm. apply Permutation_length in Hperm. vm_compute in Hperm. discriminate.
Qed.

Lemma C6_witness :
  ∃ done rest pre post,
    wanted rows_AFC = done ++ rest ∧
    trace (after (world rows_AFC)) = trace (world rows_AFC) ++ pre ++ post ∧
    lookups pre = done ∧ submissions pre = [] ∧ lookups post = [] ∧
    (rest = [] ∨
     ∃ e p env env', (run app (world rows_AFC)).1 = Raise e ∧ post = [] ∧
                     last done = Some p ∧
                     get_entity_uuid p.1 p.2 env = (Raise e, env')).
Proof.
  apply (C6_lookups_before_submissions app (world rows_AFC) rows_AFC
           (run app (world rows_AFC)).1 (after (world rows_AFC))).
  - vm_compute. reflexivity.
  - discriminate.
  - apply run_after.
Defined.

(** How many lookups a run makes before the failing one depends on the
    order in which the set of the studies is iterated. *)
Lemma lookups_depend_on_set_order :
  lookups (trace (after (world rows_two))) = [("studies", "unknown")]%string ∧
  @lookups sequencescape_reversed
    (@trace sequencescape_reversed
       (@run sequencescape_reversed app
          (@mkWorld sequencescape_reversed {[ "cgap_heron"%string := rows_two ]} 0%nat [])).2)
  = [("studies", "s1"); ("studies", "unknown")]%string.
Proof. split; reflexivity. Qed.

Lemma C7_witness :
  run app (world rows_done) =
    (Ok (Some tt),
     mkWorld (mlwh (world rows_done)) (outside (world rows_done))
       (trace (world rows_done) ++ prologue app)) ∧
  lookups (prologue app) = [] ∧
  submissions (prologue app) = [] ∧
  updates (prologue app) = [].
Proof.
  apply (C7_empty_batch_short_circuit app (world rows_done)).
  vm_compute. reflexivity.
Defined.

Lemma C8_witness :
  ∃ kwargs os,
    Forall (valid_outcome kwargs) os ∧
    o_group <$> os = groupby container_barcode rows_AFC ∧
    container_events (trace (after (world rows_AFC)))
    = concat (step_events kwargs <$> os) ∧
    submitted (trace (after (world rows_AFC))) = ["A"; "F"; "G"]%string ∧
    reports (trace (after (world rows_AFC)))
    = EvLog INFO (Text "Starting cgap extraction job")
      :: reported app true (response_of <$> os).
Proof.
  destruct (C8_order_preservation app (world rows_AFC) rows_AFC
              (run app (world rows_AFC)).1 (after (world rows_AFC))
              (trace (after (world rows_AFC))))
    as (_ & _ & _ & _ & kwargs & os & c & tail & Hv & _ & Hcase & Hce & _ & Hsub & Hrep & _).
  - vm_compute. reflexivity.
  - apply run_after.
  - reflexivity.
  - destruct Hcase as [(_ & -> & -> & Hgs)|(e & He & _)].
    + exists kwargs, os. split; [exact Hv|]. split; [exact Hgs|].
      split; [rewrite app_nil_r in Hce; exact Hce|]. split; [|exact Hrep].
      rewrite Hsub, Hgs. reflexivity.
    + assert (Hok : (run app (world rows_AFC)).1 = Ok (Some tt)) by reflexivity.
      rewrite Hok in He. discriminate He.
Defined.

Lemma C9_witness :
  ∃ tr, trace (after (world rows_AFC)) = trace (world rows_AFC) ++ tr ∧
    ∀ t bc su pu, EvCreateBody t bc su pu ∈ tr →
      ∃ rows (d : gmap string string) g r,
        fetched app (world rows_AFC) = Some rows ∧
        dom d = list_to_set (study <$> rows) ∧
        g ∈ groupby container_barcode rows ∧ g.1 = bc ∧
        head g.2 = Some r ∧ study r ∈ dom d ∧
        su = d !! study r ∧ is_Some su.
Proof.
  apply (C9_study_uuid_always_resolved app (world rows_AFC)
           (run app (world rows_AFC)).1 (after (world rows_AFC))).
  apply run_after.
Defined.

End Runs.

(** * Further properties of the job *)

(** ** The warehouse statements *)

Section WarehouseFacts.
Context `{Collaborators}.

Lemma insert_by_barcode_first r l :
  Forall (rows_le r) l → insert_by_barcode r l = r :: l.
Proof.
  intros Hall. destruct l as [|x l]; [reflexivity|].
  apply Forall_cons in Hall as [Hx _]. simpl.
  unfold rows_le, barcode_le in Hx. rewrite Hx. reflexivity.
Qed.

(** Dropping rows commutes with the insertion into a sorted list. *)
Lemma filter_insert_by_barcode (Q : MlwhRow → Prop) `{∀ r, Decision (Q r)} r l :
  StronglySorted rows_le l →
  filter Q (insert_by_barcode r l) =
  if decide (Q r) then insert_by_barcode r (filter Q l) else filter Q l.
Proof.
  induction 1 as [|x l Hs IH Hx]; simpl.
  - rewrite filter_cons, filter_nil. destruct (decide (Q r)); reflexivity.
  - destruct (String.leb (container_barcode r) (container_barcode x)) eqn:Hle.
    + rewrite (filter_cons _ r). destruct (decide (Q r)) as [Hr|Hr]; [|reflexivity].
      symmetry. apply insert_by_barcode_first.
      apply Forall_forall. intros y Hy. apply list_elem_of_filter in Hy as [_ Hy].
      apply elem_of_cons in Hy as [->|Hy]; [exact Hle|].
      rewrite Forall_forall in Hx.
      exact (barcode_le_trans _ _ _ Hle (Hx y Hy)).
    + rewrite (filter_cons _ x), IH.
      destruct (decide (Q r)) as [Hr|Hr]; [|rewrite (filter_cons _ x); reflexivity].
      rewrite (filter_cons _ x). destruct (decide (Q x)); [|reflexivity].
      simpl. rewrite Hle. reflexivity.
Qed.

Lemma order_by_filter (Q : MlwhRow → Prop) `{∀ r, Decision (Q r)} l :
  order_by_container_barcode (filter Q l) = filter Q (order_by_container_barcode l).
Proof.
  induction l as [|x l IH]; [reflexivity|].
  rewrite filter_cons. change (order_by_container_barcode (x :: l))
    with (insert_by_barcode x (order_by_container_barcode l)).
  rewrite filter_insert_by_barcode by apply order_by_sorted.
  destruct (decide (Q x)); [|exact IH].
  change (order_by_container_barcode (x :: filter Q l))
    with (insert_by_barcode x (order_by_container_barcode (filter Q l))).
  rewrite IH. reflexivity.
Qed.

(** The unwrangled rows after a marker write are the unwrangled rows
    before it whose barcode the write does not name. *)
Lemma filter_unwrangled_marked now bcs dest (rows : list MlwhRow) :
  filter (unwrangled dest) (mark_wrangled now bcs <$> rows) =
  filter (fun r => container_barcode r ∉ bcs) (filter (unwrangled dest) rows).
Proof.
  induction rows as [|r rows IH]; [reflexivity|].
  rewrite fmap_cons, !filter_cons, IH. unfold mark_wrangled.
  destruct (decide (container_barcode r ∈ bcs)) as [Hin|Hin].
  - rewrite decide_False by (intros [_ Hw]; discriminate).
    destruct (decide (unwrangled dest r)); [|reflexivity].
    rewrite filter_cons, decide_False by tauto. reflexivity.
  - destruct (decide (unwrangled dest r)); [|reflexivity].
    rewrite filter_cons, decide_True by exact Hin. reflexivity.
Qed.

Lemma select_unwrangled_marked now bcs dest rows :
  select_unwrangled dest (mark_wrangled now bcs <$> rows) =
  filter (fun r => container_barcode r ∉ bcs) (select_unwrangled dest rows).
Proof.
  unfold select_unwrangled. rewrite filter_unwrangled_marked. apply order_by_filter.
Qed.

Lemma filter_all {A} (P : A → Prop) `{∀ x, Decision (P x)} (l : list A) :
  Forall P l → filter P l = l.
Proof.
  induction 1 as [|x l Hx _ IH]; [reflexivity|].
  rewrite filter_cons, decide_True by exact Hx. rewrite IH. reflexivity.
Qed.

Lemma get_unwrangled_labware_spec table dest w :
  get_unwrangled_labware table dest w =
  (match mlwh w !! table with
   | Some rows => Ok (select_unwrangled dest rows)
   | None => Raise (mkExn ProgrammingError "table does not exist")
   end,
   mkWorld (mlwh w) (outside w) (trace w ++ [EvExecute (SelectUnwrangled table dest)])).
Proof.
  unfold get_unwrangled_labware, execute, bind, emit. cbn [mlwh outside trace].
  destruct (mlwh w !! table); reflexivity.
Qed.

Lemma update_wrangled_labware_spec table bc bcs rows w :
  mlwh w !! table = Some rows →
  update_wrangled_labware table (bc :: bcs) w =
  (Ok tt,
   mkWorld (<[table := mark_wrangled (NOW (outside w)) (bc :: bcs) <$> rows]> (mlwh w))
     (outside w) (trace w ++ [EvExecute (UpdateWrangled table (bc :: bcs))])).
Proof.
  intros Htable. unfold update_wrangled_labware, execute, bind, emit, ret.
  cbn [mlwh outside trace]. rewrite Htable. reflexivity.
Qed.

End WarehouseFacts.

Section WarehouseProperties.
Context `{Collaborators}.

(** X1. For a table that is a plain name and a destination without a
    quote or a backslash, so that the text of the statement carries them
    as they are: the fetch leaves the warehouse as it is.  On a table
    that is there it returns the rows of the table for the destination
    whose marker is unset, all of them and each as often as the table has
    it, in the order of their barcodes; on a table that is not there it
    raises. *)
Theorem fetch_returns_sorted_unwrangled_rows table dest w :
  sql_identifier table = true →
  sql_literal dest = true →
  ∃ res,
    get_unwrangled_labware table dest w =
    (res, mkWorld (mlwh w) (outside w)
            (trace w ++ [EvExecute (SelectUnwrangled table dest)])) ∧
    match mlwh w !! table with
    | None => res = Raise (mkExn ProgrammingError "table does not exist")
    | Some rows0 =>
        ∃ rows, res = Ok rows ∧
          rows ≡ₚ filter (unwrangled dest) rows0 ∧
          StronglySorted rows_le rows ∧
          ∀ r, r ∈ rows ↔ r ∈ rows0 ∧ destination r = dest ∧ wrangled r = None
    end.
Proof.
  intros _ _.
  rewrite get_unwrangled_labware_spec. eexists. split; [reflexivity|].
  destruct (mlwh w !! table) as [rows0|]; [|reflexivity].
  exists (select_unwrangled dest rows0). split; [reflexivity|].
  split; [apply order_by_perm|]. split; [apply order_by_sorted|].
  intros r. unfold select_unwrangled. rewrite order_by_perm, list_elem_of_filter.
  unfold unwrangled. tauto.
Qed.

(** X2. For a table that is a plain name and a destination without a
    quote or a backslash: a marker write on a table that is there, with
    at least one barcode, succeeds; it leaves the other tables and the
    world outside as they are, and the fetch on the table afterwards
    returns what it returned before without the rows of the barcodes
    named. *)
Theorem marker_write_removes_from_fetch table bc bcs rows0 dest w :
  sql_identifier table = true →
  sql_literal dest = true →
  mlwh w !! table = Some rows0 →
  ∃ w' rows,
    update_wrangled_labware table (bc :: bcs) w = (Ok tt, w') ∧
    outside w' = outside w ∧
    (∀ t, t ≠ table → mlwh w' !! t = mlwh w !! t) ∧
    (get_unwrangled_labware table dest w).1 = Ok rows ∧
    (get_unwrangled_labware table dest w').1 =
      Ok (filter (fun r => container_barcode r ∉ bc :: bcs) rows).
Proof.
  intros _ _ Htable. eexists _, (select_unwrangled dest rows0).
  split; [apply update_wrangled_labware_spec; exact Htable|].
  split; [reflexivity|].
  split; [intros t Ht; cbn [mlwh]; apply lookup_insert_ne; congruence|].
  rewrite !get_unwrangled_labware_spec. cbn [fst mlwh].
  rewrite Htable, lookup_insert_eq, select_unwrangled_marked. split; reflexivity.
Qed.

(** X3. For a table that is a plain name and a destination without a
    quote or a backslash: a marker write that names only barcodes whose
    rows are all marked already sets their markers anew, and does not
    change the result of the fetch. *)
Theorem marker_write_again_keeps_fetch table bc bcs rows0 dest w :
  sql_identifier table = true →
  sql_literal dest = true →
  mlwh w !! table = Some rows0 →
  (∀ r, r ∈ rows0 → container_barcode r ∈ bc :: bcs → is_Some (wrangled r)) →
  ∃ w',
    update_wrangled_labware table (bc :: bcs) w = (Ok tt, w') ∧
    mlwh w' !! table = Some (mark_wrangled (NOW (outside w)) (bc :: bcs) <$> rows0) ∧
    (get_unwrangled_labware table dest w').1 = (get_unwrangled_labware table dest w).1.
Proof.
  intros _ _ Htable Hmarked. eexists.
  split; [apply update_wrangled_labware_spec; exact Htable|].
  split; [cbn [mlwh]; apply lookup_insert_eq|].
  rewrite !get_unwrangled_labware_spec. cbn [fst mlwh].
  rewrite Htable, lookup_insert_eq, select_unwrangled_marked. f_equal.
  apply filter_all. apply Forall_forall. intros r Hr Hin.
  unfold select_unwrangled in Hr. rewrite order_by_perm in Hr.
  apply list_elem_of_filter in Hr as [[_ Hunset] Hr].
  destruct (Hmarked r Hr Hin) as [t Hset]. congruence.
Qed.

End WarehouseProperties.

(** ** More on a run *)

Section RunFacts.
Context `{Collaborators}.

(** The events of any run: the prologue, lookups, the loop over the
    containers that went through, and the classification of the
    container that failed, if one did. *)
Lemma run_trace app w res w' tr :
  run app w = (res, w') →
  trace w' = trace w ++ tr →
  ∃ done kwargs os c tail groups_rest,
    tr = prologue app ++ lookup_events done ++ loop_events app kwargs os c ++ tail ∧
    (tail = [] ∨ ∃ g : string * list MlwhRow, tail = [EvDetermineLabwareType g.1]) ∧
    (c = true ↔ res = Ok (Some tt)) ∧
    (c = true → tail = []) ∧
    Forall (valid_outcome kwargs) os ∧
    (os ≠ [] → ∃ rows, fetched app w = Some rows ∧
                 groupby container_barcode rows = (o_group <$> os) ++ groups_rest).
Proof.
  intros Hrun Htr.
  destruct (run_cases _ _ _ _ Hrun) as [(_ & e & -> & ->)|[(_ & -> & ->)|(rows & Hfetch & Hne)]].
  - cbn [trace] in Htr. apply app_inv_head in Htr. subst tr.
    exists [], (mkKwargs None None), [], false, [], [].
    split; [reflexivity|]. split; [left; reflexivity|].
    split; [split; discriminate|]. split; [reflexivity|]. split; [constructor|]. congruence.
  - cbn [trace] in Htr. apply app_inv_head in Htr. subst tr.
    exists [], (mkKwargs None None), [], true, [], [].
    split; [reflexivity|]. split; [left; reflexivity|].
    split; [split; reflexivity|]. split; [reflexivity|]. split; [constructor|]. congruence.
  - destruct (run_shape _ _ _ _ _ Hfetch Hne Hrun)
      as (rows0 & rows' & done & rest & kwargs & os & c & tail & grest
          & _ & _ & Htr0 & _ & _ & Hv & Hgs & Hend).
    rewrite Htr0 in Htr. apply app_inv_head in Htr. subst tr.
    destruct Hend as [(e & p & env & env' & -> & -> & -> & _)|[(_ & -> & -> & _ & ->)|(_ & -> & e & g & rest' & -> & _ & _ & ->)]].
    + exists done, kwargs, [], false, [], grest.
      split; [reflexivity|]. split; [left; reflexivity|].
      split; [split; discriminate|]. split; [reflexivity|]. split; [constructor|]. congruence.
    + exists done, kwargs, os, true, [], grest.
      split; [reflexivity|]. split; [left; reflexivity|].
      split; [split; reflexivity|]. split; [reflexivity|]. split; [assumption|]. eauto.
    + exists done, kwargs, os, false, [EvDetermineLabwareType g.1], grest.
      split; [reflexivity|]. split; [right; eauto|].
      split; [split; discriminate|]. split; [discriminate|]. split; [assumption|]. eauto.
Qed.

(** The values the lookups of a run give. *)
Lemma study_uuid_dict_values studies :
  ∀ d w d' w',
    study_uuid_dict studies d w = (Ok d', w') →
    ∀ s u, d' !! s = Some u →
           d !! s = Some u ∨
           ∃ env env', get_entity_uuid STUDY_ENTITY s env = (Ok u, env').
Proof.
  induction studies as [|s0 l IH]; intros d w d' w' Hrun s u Hsu.
  - simpl in Hrun. unfold ret in Hrun. inversion Hrun; subst. left. exact Hsu.
  - simpl in Hrun. apply bind_inv in Hrun as [(u0 & w1 & Hcall & Hrest)|(e & _ & [=])].
    apply call_get_entity_uuid_spec in Hcall as (_ & _ & env' & Hget).
    destruct (IH _ _ _ _ Hrest s u Hsu) as [Hd|Hlook]; [|right; exact Hlook].
    destruct (decide (s0 = s)) as [->|Hne].
    + rewrite lookup_insert_eq in Hd. injection Hd as ->. right. eauto.
    + rewrite lookup_insert_ne in Hd by exact Hne. left. exact Hd.
Qed.

Lemma run_kwargs app w rows res w' :
  fetched app w = Some rows → rows ≠ [] →
  run app w = (res, w') →
  (∃ e done, res = Raise e ∧ trace w' = trace w ++ prologue app ++ lookup_events done) ∨
  ∃ d pp rp rows0 w1,
    (∀ s u, d !! s = Some u →
            ∃ env env', get_entity_uuid STUDY_ENTITY s env = (Ok u, env')) ∧
    (∃ env env', get_entity_uuid PLATE_PURPOSE_ENTITY LYSATE_PLATE_PURPOSE env
                 = (Ok pp, env')) ∧
    (∃ env env', get_entity_uuid PLATE_PURPOSE_ENTITY LYSATE_TR_PURPOSE env
                 = (Ok rp, env')) ∧
    dom d = list_to_set (study <$> rows) ∧
    mlwh w !! MLWH_DB_TABLE app = Some rows0 ∧
    trace w1 = trace w ++ prologue app ++ lookup_events (wanted rows) ∧
    loop_post app (mkKwargs (Some d) (Some [(PLATE, pp); (TUBE_RACK, rp)])) rows0
      (groupby container_barcode rows)
      (loop_events app (mkKwargs (Some d) (Some [(PLATE, pp); (TUBE_RACK, rp)])))
      w1 res w'.
Proof.
  intros Hfetch Hne Hrun.
  destruct (run_spec _ _ _ _ _ Hfetch Hne Hrun)
    as (rows0 & done & rest & w1 & Htable & Hwanted & Hdb1 & Htr1 & Hcase).
  destruct Hcase as [(e & p & env & env' & -> & -> & _)|(_ & _)].
  { left. eauto. }
  clear done rest w1 Hwanted Hdb1 Htr1.
  rewrite (run_fetch _ _ _ Hfetch) in Hrun.
  destruct rows as [|r0 rows]; [congruence|].
  cbn [length Nat.eqb] in Hrun. set (rs := r0 :: rows) in *.
  apply bind_inv in Hrun as [(d & w1 & Hdict & Hrun)|(e & Hdict & ->)].
  2:{ apply study_uuid_dict_spec in Hdict
        as (_ & done & rest & _ & Htr1 & _). cbn [trace] in Htr1.
      left. exists e, ((fun s => (STUDY_ENTITY, s)) <$> done).
      split; [reflexivity|]. rewrite Htr1, <- app_assoc. reflexivity. }
  pose proof (study_uuid_dict_values _ _ _ _ _ Hdict) as Hvalues.
  apply study_uuid_dict_spec in Hdict
    as (Hdb1 & done & rest & Hst & Htr1 & [(d' & [= <-] & -> & Hdom)|(? & ? & ? & ? & [=] & _)]).
  cbn [mlwh trace outside] in Hdb1, Htr1. rewrite app_nil_r in Hst. subst done.
  apply bind_inv in Hrun as [(pp & w2 & Hpp & Hrun)|(e & Hpp & ->)].
  2:{ apply call_get_entity_uuid_spec in Hpp as (_ & Htr2 & _).
      left. exists e, (((fun s => (STUDY_ENTITY, s)) <$> iter_set (study <$> rs))
                       ++ [(PLATE_PURPOSE_ENTITY, LYSATE_PLATE_PURPOSE)]).
      split; [reflexivity|]. rewrite Htr2, Htr1. unfold lookup_events.
      rewrite fmap_app, <- !app_assoc. reflexivity. }
  apply call_get_entity_uuid_spec in Hpp as (Hdb2 & Htr2 & envp & Hgetp).
  apply bind_inv in Hrun as [(rp & w3 & Hrp & Hrun)|(e & Hrp & ->)].
  2:{ apply call_get_entity_uuid_spec in Hrp as (_ & Htr3 & _).
      left. exists e, (wanted rs).
      split; [reflexivity|]. rewrite Htr3, Htr2, Htr1. unfold wanted, lookup_events.
      rewrite fmap_app, <- !app_assoc. reflexivity. }
  apply call_get_entity_uuid_spec in Hrp as (Hdb3 & Htr3 & envr & Hgetr).
  right. exists d, pp, rp, rows0, w3.
  split.
  { intros s u Hsu. destruct (Hvalues s u Hsu) as [Hempty|Hlook]; [|exact Hlook].
    rewrite lookup_empty in Hempty. discriminate. }
  split; [eauto|]. split; [eauto|].
  split; [rewrite Hdom, dom_empty_L, list_to_set_iter_set; set_solver|].
  split; [exact Htable|].
  split.
  { rewrite Htr3, Htr2, Htr1. unfold wanted, lookup_events. rewrite fmap_app.
    simpl. rewrite <- !app_assoc. reflexivity. }
  unfold create_labwares in Hrun.
  eapply for_groups_spec; [|rewrite Hdb3, Hdb2, Hdb1; exact Htable|exact Hrun].
  exact (groupby_length container_barcode rs).
Qed.

(** The barcodes of the containers that went through are distinct. *)
Lemma outcomes_NoDup app w rows os groups_rest :
  fetched app w = Some rows →
  groupby container_barcode rows = (o_group <$> os) ++ groups_rest →
  NoDup ((fun s => s.1.1) <$> (submission_of <$> os)).
Proof.
  intros Hfetch Hgs. pose proof (fetched_groups_NoDup _ _ _ Hfetch) as Hnd.
  rewrite Hgs, fmap_app in Hnd. apply NoDup_app in Hnd as (Hnd & _).
  rewrite <- !list_fmap_compose in *. exact Hnd.
Qed.

Lemma run_submissions app tr done kwargs os c tail :
  tr = prologue app ++ lookup_events done ++ loop_events app kwargs os c ++ tail →
  (tail = [] ∨ ∃ g : string * list MlwhRow, tail = [EvDetermineLabwareType g.1]) →
  submissions tr = submission_of <$> os ∧
  updates tr = updates (loop_events app kwargs os c).
Proof.
  intros -> Htail. split.
  - rewrite !submissions_app, submissions_lookup_events, loop_submissions.
    destruct Htail as [->|(g & ->)]; cbn; rewrite app_nil_r; reflexivity.
  - rewrite !updates_app, updates_lookup_events.
    destruct Htail as [->|(g & ->)]; cbn; rewrite app_nil_r; reflexivity.
Qed.

End RunFacts.

(** ** Statements and log lines of the loop *)

Section LogFacts.
Context `{Collaborators}.

Lemma statements_app tr1 tr2 :
  statements (tr1 ++ tr2) = statements tr1 ++ statements tr2.
Proof. apply omap_app. Qed.

Lemma info_log_app tr1 tr2 : info_log (tr1 ++ tr2) = info_log tr1 ++ info_log tr2.
Proof. apply omap_app. Qed.

Lemma logged_bodies_app tr1 tr2 :
  logged_bodies (tr1 ++ tr2) = logged_bodies tr1 ++ logged_bodies tr2.
Proof. apply omap_app. Qed.

Lemma report_statements app tgt acc :
  statements (report_events app tgt acc) =
  UpdateWrangled (MLWH_DB_TABLE app) <$> updates (report_events app tgt acc).
Proof.
  rewrite updates_report. destruct tgt; [reflexivity|].
  unfold report_events, statements. cbn [omap list_omap fmap list_fmap].
  apply omap_fmap_None. reflexivity.
Qed.

Lemma report_info_log app tgt acc :
  info_log (report_events app tgt acc) =
  success_line <$> updates (report_events app tgt acc).
Proof.
  rewrite updates_report. destruct tgt; [reflexivity|].
  unfold report_events, info_log. cbn [omap list_omap fmap list_fmap].
  apply omap_fmap_None. reflexivity.
Qed.

Lemma report_logged_bodies app tgt acc :
  logged_bodies (report_events app tgt acc) = if tgt then [] else body <$> acc.
Proof.
  destruct tgt; [reflexivity|]. unfold report_events, logged_bodies.
  cbn [omap list_omap].
  induction acc as [|r l IH]; [reflexivity|].
  rewrite !fmap_cons. cbn [omap list_omap]. rewrite IH. reflexivity.
Qed.

Lemma schedule_statements app kwargs tgt acc os c :
  statements (schedule app kwargs tgt acc os c) =
  UpdateWrangled (MLWH_DB_TABLE app) <$> updates (schedule app kwargs tgt acc os c).
Proof.
  revert tgt acc. induction os as [|o os IH]; intros tgt acc.
  - cbn [schedule]. destruct c; [apply report_statements | reflexivity].
  - cbn [schedule]. rewrite statements_app, updates_app, updates_step.
    change (statements (step_events kwargs o)) with (@nil Query).
    cbn [Datatypes.app].
    destruct (decide (successful (response_of o) = tgt)) as [Hk|Hk]; [apply IH|].
    rewrite statements_app, updates_app, fmap_app, report_statements, IH. reflexivity.
Qed.

Lemma loop_statements app kwargs os c :
  statements (loop_events app kwargs os c) =
  UpdateWrangled (MLWH_DB_TABLE app) <$> updates (loop_events app kwargs os c).
Proof.
  destruct os as [|o os]; [reflexivity|]. cbn [loop_events].
  rewrite statements_app, updates_app, updates_step.
  change (statements (step_events kwargs o)) with (@nil Query).
  cbn [Datatypes.app]. apply schedule_statements.
Qed.

Lemma schedule_info_log app kwargs tgt acc os c :
  info_log (schedule app kwargs tgt acc os c) =
  success_line <$> updates (schedule app kwargs tgt acc os c).
Proof.
  revert tgt acc. induction os as [|o os IH]; intros tgt acc.
  - cbn [schedule]. destruct c; [apply report_info_log | reflexivity].
  - cbn [schedule]. rewrite info_log_app, updates_app, updates_step.
    change (info_log (step_events kwargs o)) with (@nil Message).
    cbn [Datatypes.app].
    destruct (decide (successful (response_of o) = tgt)) as [Hk|Hk]; [apply IH|].
    rewrite info_log_app, updates_app, fmap_app, report_info_log, IH. reflexivity.
Qed.

Lemma loop_info_log app kwargs os c :
  info_log (loop_events app kwargs os c) =
  success_line <$> updates (loop_events app kwargs os c).
Proof.
  destruct os as [|o os]; [reflexivity|]. cbn [loop_events].
  rewrite info_log_app, updates_app, updates_step.
  change (info_log (step_events kwargs o)) with (@nil Message).
  cbn [Datatypes.app]. apply schedule_info_log.
Qed.

(** Every marker write of the loop names a barcode. *)
Lemma schedule_updates_nonempty app kwargs tgt acc os c :
  acc ≠ [] →
  Forall (fun bcs => bcs ≠ []) (updates (schedule app kwargs tgt acc os c)).
Proof.
  revert tgt acc. induction os as [|o os IH]; intros tgt acc Hacc.
  - cbn [schedule]. destruct c; [|constructor]. rewrite updates_report.
    destruct tgt; [|constructor]. constructor; [|constructor].
    destruct acc; [congruence | discriminate].
  - cbn [schedule]. rewrite updates_app, updates_step. cbn [Datatypes.app].
    destruct (decide (successful (response_of o) = tgt)) as [Hk|Hk].
    + apply IH. destruct acc; discriminate.
    + rewrite updates_app, updates_report. apply Forall_app. split.
      * destruct tgt; [|constructor]. constructor; [|constructor].
        destruct acc; [congruence | discriminate].
      * apply IH. discriminate.
Qed.

Lemma loop_updates_nonempty app kwargs os c :
  Forall (fun bcs => bcs ≠ []) (updates (loop_events app kwargs os c)).
Proof.
  destruct os as [|o os]; [constructor|]. cbn [loop_events].
  rewrite updates_app, updates_step. cbn [Datatypes.app].
  apply schedule_updates_nonempty. discriminate.
Qed.

(** The response bodies logged by a loop that ends: those of the open
    group if it failed, then those of the failures still to come. *)
Lemma schedule_logged_bodies app kwargs tgt acc os :
  logged_bodies (schedule app kwargs tgt acc os true) =
  (if tgt then [] else body <$> acc) ++
  ((fun s : string * Resp * Z => s.1.2)
     <$> List.filter (fun s => negb (succeeded s)) (submission_of <$> os)).
Proof.
  revert tgt acc. induction os as [|o os IH]; intros tgt acc.
  - cbn [schedule]. rewrite report_logged_bodies, app_nil_r. reflexivity.
  - cbn [schedule]. rewrite logged_bodies_app, fmap_cons.
    change (logged_bodies (step_events kwargs o)) with (@nil Resp).
    cbn [Datatypes.app List.filter].
    change (succeeded (submission_of o)) with (successful (response_of o)).
    destruct (decide (successful (response_of o) = tgt)) as [Hk|Hk].
    + rewrite IH, Hk. destruct tgt; [reflexivity|].
      cbn [negb]. rewrite fmap_app, fmap_cons, <- app_assoc. reflexivity.
    + rewrite logged_bodies_app, report_logged_bodies, IH.
      destruct (successful (response_of o)), tgt; try congruence.
      * cbn [negb]. rewrite app_nil_l. reflexivity.
      * cbn [negb]. reflexivity.
Qed.

Lemma loop_logged_bodies app kwargs os :
  logged_bodies (loop_events app kwargs os true) =
  (fun s : string * Resp * Z => s.1.2)
    <$> List.filter (fun s => negb (succeeded s)) (submission_of <$> os).
Proof.
  destruct os as [|o os]; [reflexivity|]. cbn [loop_events].
  rewrite fmap_cons, logged_bodies_app, schedule_logged_bodies.
  change (logged_bodies (step_events kwargs o)) with (@nil Resp).
  cbn [Datatypes.app List.filter].
  change (succeeded (submission_of o)) with (successful (response_of o)).
  destruct (successful (response_of o)); reflexivity.
Qed.

(** The marker writes of a loop that is cut short: the open group is
    never reported. *)
Lemma schedule_updates_cut app kwargs tgt acc acc' os :
  barcode <$> acc = (fun s => s.1.1) <$> acc' →
  updates (schedule app kwargs tgt acc os false) =
  written (removelast (groupby_from succeeded tgt acc' (submission_of <$> os))).
Proof.
  revert tgt acc acc'. induction os as [|o os IH]; intros tgt acc acc' Hacc.
  - reflexivity.
  - cbn [schedule]. rewrite fmap_cons. cbn [groupby_from].
    rewrite updates_app, updates_step. cbn [Datatypes.app].
    change (succeeded (submission_of o)) with (successful (response_of o)).
    destruct (decide (successful (response_of o) = tgt)) as [Hk|Hk].
    + apply IH. rewrite !fmap_app, Hacc. reflexivity.
    + rewrite updates_app, updates_report.
      rewrite (IH _ _ [submission_of o]) by reflexivity.
      pose proof (groupby_from_nonempty succeeded (successful (response_of o))
                    [submission_of o] (submission_of <$> os)) as Hnonempty.
      destruct (groupby_from succeeded (successful (response_of o)) [submission_of o]
                  (submission_of <$> os)) as [|kg G]; [congruence|].
      cbn [removelast]. rewrite written_cons, Hacc. reflexivity.
Qed.

Lemma loop_updates_cut app kwargs os :
  updates (loop_events app kwargs os false) =
  written (removelast (groupby succeeded (submission_of <$> os))).
Proof.
  destruct os as [|o os]; [reflexivity|]. cbn [loop_events].
  rewrite updates_app, updates_step. cbn [Datatypes.app].
  rewrite fmap_cons. cbn [groupby].
  apply (schedule_updates_cut _ _ _ _ [submission_of o]). reflexivity.
Qed.

End LogFacts.

(** ** Properties of the lookups and of a run *)

Section RunHelpers.
Context `{Collaborators}.

Lemma statements_lookup_events l : statements (lookup_events l) = [].
Proof. apply omap_fmap_None. reflexivity. Qed.

Lemma info_log_lookup_events l : info_log (lookup_events l) = [].
Proof. apply omap_fmap_None. reflexivity. Qed.

Lemma logged_bodies_lookup_events l : logged_bodies (lookup_events l) = [].
Proof. apply omap_fmap_None. reflexivity. Qed.

(** A barcode of the lists [written] gives is the barcode of an element
    of a group with key [true]. *)
Lemma written_elem (G : list (bool * list (string * Resp * Z))) b :
  b ∈ concat (written G) →
  ∃ kg s, kg ∈ G ∧ kg.1 = true ∧ s ∈ kg.2 ∧ s.1.1 = b.
Proof.
  intros Hb. apply elem_of_concat in Hb as (l & Hb & Hl).
  unfold written in Hl. apply list_elem_of_fmap in Hl as (kg & -> & Hkg).
  apply list_elem_of_In, List.filter_In in Hkg as [Hkg Hk].
  apply list_elem_of_fmap in Hb as (s & -> & Hs).
  exists kg, s. rewrite list_elem_of_In. auto.
Qed.

(** Where a request body of a run comes from. *)
Lemma run_bodies app w res w' tr t bc su pu :
  run app w = (res, w') →
  trace w' = trace w ++ tr →
  EvCreateBody t bc su pu ∈ tr →
  ∃ rows d pp rp o,
    fetched app w = Some rows ∧
    (∀ s u, d !! s = Some u →
            ∃ env env', get_entity_uuid STUDY_ENTITY s env = (Ok u, env')) ∧
    (∃ env env', get_entity_uuid PLATE_PURPOSE_ENTITY LYSATE_PLATE_PURPOSE env
                 = (Ok pp, env')) ∧
    (∃ env env', get_entity_uuid PLATE_PURPOSE_ENTITY LYSATE_TR_PURPOSE env
                 = (Ok rp, env')) ∧
    dom d = list_to_set (study <$> rows) ∧
    o_group o ∈ groupby container_barcode rows ∧
    valid_outcome (mkKwargs (Some d) (Some [(PLATE, pp); (TUBE_RACK, rp)])) o ∧
    t = o_type o ∧ bc = (o_group o).1 ∧
    su = study_uuid_of (mkKwargs (Some d) (Some [(PLATE, pp); (TUBE_RACK, rp)]))
           (o_group o).2 ∧
    pu = purpose_uuid_of (mkKwargs (Some d) (Some [(PLATE, pp); (TUBE_RACK, rp)]))
           (o_type o).
Proof.
  intros Hrun Htr Hin.
  destruct (run_cases _ _ _ _ Hrun) as [(_ & e & _ & ->)|[(_ & _ & ->)|(rows & Hfetch & Hne)]].
  - cbn [trace] in Htr. apply app_inv_head in Htr. subst tr. absurd_event Hin.
  - cbn [trace] in Htr. apply app_inv_head in Htr. subst tr. absurd_event Hin.
  - assert (Hpre : ∀ l, EvCreateBody t bc su pu ∉ prologue app ++ lookup_events l).
    { intros l Hl. apply elem_of_app in Hl as [Hl|Hl].
      - absurd_event Hl.
      - apply list_elem_of_fmap in Hl as (p & [=] & _). }
    destruct (run_kwargs _ _ _ _ _ Hfetch Hne Hrun)
      as [(e & done & _ & Htr1)|(d & pp & rp & rows0 & w1 & Hd & Hpp & Hrp & Hdom & _ & Htr1 & Hloop)].
    { rewrite Htr1 in Htr. apply app_inv_head in Htr. subst tr.
      destruct (Hpre _ Hin). }
    apply loop_post_shape in Hloop
      as (os & c & tail & rest & rows' & Hv & Hgs & Htr2 & _ & _ & Hend).
    set (kwargs := mkKwargs (Some d) (Some [(PLATE, pp); (TUBE_RACK, rp)])) in *.
    rewrite Htr2, Htr1, <- !app_assoc in Htr. apply app_inv_head in Htr. subst tr.
    rewrite app_assoc in Hin. apply elem_of_app in Hin as [Hin|Hin];
      [destruct (Hpre _ Hin)|].
    assert (Hlp : EvCreateBody t bc su pu ∈ loop_events app kwargs os c).
    { apply elem_of_app in Hin as [Hin|Hin]; [exact Hin|].
      destruct Hend as [(_ & -> & _)|(_ & e & g & rest' & _ & _ & _ & ->)].
      - inversion Hin.
      - apply elem_of_cons in Hin as [Hin|Hin]; [discriminate | inversion Hin]. }
    apply elem_of_container_events in Hlp; [|reflexivity].
    rewrite loop_container_events in Hlp.
    apply elem_of_steps in Hlp as (o & Ho & Hev).
    unfold step_events in Hev.
    apply elem_of_cons in Hev as [Hev|Hev]; [discriminate|].
    apply elem_of_cons in Hev as [Hev|Hev];
      [|apply elem_of_cons in Hev as [Hev|Hev]; [discriminate | inversion Hev]].
    injection Hev as -> -> -> ->.
    exists rows, d, pp, rp, o.
    split; [assumption|]. split; [assumption|]. split; [assumption|].
    split; [assumption|]. split; [assumption|].
    split.
    { rewrite Hgs. apply elem_of_app. left.
      apply list_elem_of_fmap. exists o. split; [reflexivity | exact Ho]. }
    split; [rewrite Forall_forall in Hv; apply Hv, Ho|].
    repeat split.
Qed.

Lemma fetched_marked_rows app w w' rows rows0 rows' bcs r :
  fetched app w = Some rows →
  mlwh w !! MLWH_DB_TABLE app = Some rows0 →
  mlwh w' !! MLWH_DB_TABLE app = Some rows' →
  marked_rows bcs rows0 rows' →
  r ∈ rows → container_barcode r ∉ bcs →
  ∃ rows2, fetched app w' = Some rows2 ∧ r ∈ rows2.
Proof.
  intros Hfetch Ht Ht' Hm Hr Hb.
  destruct (fetched_rows_in _ _ _ _ Hfetch Hr) as (rows0' & Ht0 & Hr0 & Hun).
  rewrite Ht in Ht0. injection Ht0 as <-.
  unfold fetched. rewrite Ht'. cbn [fmap option_fmap option_map].
  eexists. split; [reflexivity|].
  rewrite order_by_perm. apply list_elem_of_filter. split; [exact Hun|].
  apply list_elem_of_lookup in Hr0 as (i & Hi).
  destruct (Forall2_lookup_l _ _ _ _ _ Hm Hi) as (r' & Hi' & _ & Hout).
  rewrite (Hout Hb) in Hi'. eapply list_elem_of_lookup_2. exact Hi'.
Qed.

End RunHelpers.

Section RunProperties.
Context `{Collaborators}.

(** X4. [get_study_uuids] looks the studies up one after the other, in
    the order in which the iterable it is given yields them, whatever
    that order is, and leaves the warehouse as it is.  When every lookup
    succeeds, the dict it returns has exactly the studies of the iterable
    as keys, and the value at a study is an identifier that
    [get_entity_uuid] returned for this study.  When a lookup raises, the
    exception passes through, the failing lookup being the last one
    made. *)
Theorem study_lookups_fill_the_dict (studies : list string) (w : World) :
  ∃ res w' done rest,
    get_study_uuids studies w = (res, w') ∧
    mlwh w' = mlwh w ∧
    studies = done ++ rest ∧
    trace w' = trace w ++ lookup_events ((fun s => (STUDY_ENTITY, s)) <$> done) ∧
    match res with
    | Ok d =>
        rest = [] ∧ dom d = list_to_set studies ∧
        ∀ s u, d !! s = Some u →
               ∃ env env', get_entity_uuid STUDY_ENTITY s env = (Ok u, env')
    | Raise e =>
        ∃ name env env', last done = Some name ∧
                         get_entity_uuid STUDY_ENTITY name env = (Raise e, env')
    end.
Proof.
  destruct (get_study_uuids studies w) as [res w'] eqn:Hrun.
  unfold get_study_uuids in Hrun.
  destruct (study_uuid_dict_spec _ _ _ _ _ Hrun)
    as (Hdb & done & rest & Hst & Htr & Hcase).
  exists res, w', done, rest.
  split; [reflexivity|]. split; [exact Hdb|]. split; [exact Hst|].
  split; [exact Htr|].
  destruct Hcase as [(d & -> & -> & Hdom)|(e & name & env & env' & -> & Hlast & Hget)].
  - split; [reflexivity|]. split.
    + rewrite Hdom, dom_empty_L. set_solver.
    + intros s u Hsu.
      destruct (study_uuid_dict_values _ _ _ _ _ Hrun s u Hsu) as [Hempty|Hlook];
        [|exact Hlook].
      rewrite lookup_empty in Hempty. discriminate.
  - eauto.
Qed.

(** X5. Every request body of a run is built for a plate or a tube rack,
    with identifiers that the lookups returned: the purpose identifier is
    the one returned for the lysate plate purpose when the container is a
    plate and the one returned for the lysate tube rack purpose when it is
    a tube rack, and the study identifier is the one returned for the
    study of the first row of the container. *)
Theorem bodies_carry_the_looked_up_identifiers app w res w' tr t bc su pu :
  run app w = (res, w') →
  trace w' = trace w ++ tr →
  EvCreateBody t bc su pu ∈ tr →
  (∃ u env env',
     pu = Some u ∧
     ((t = PLATE ∧
       get_entity_uuid PLATE_PURPOSE_ENTITY LYSATE_PLATE_PURPOSE env = (Ok u, env')) ∨
      (t = TUBE_RACK ∧
       get_entity_uuid PLATE_PURPOSE_ENTITY LYSATE_TR_PURPOSE env = (Ok u, env')))) ∧
  ∃ rows g r u env env',
    fetched app w = Some rows ∧
    g ∈ groupby container_barcode rows ∧ g.1 = bc ∧ head g.2 = Some r ∧
    su = Some u ∧
    get_entity_uuid STUDY_ENTITY (study r) env = (Ok u, env').
Proof.
  intros Hrun Htr Hin.
  destruct (run_bodies _ _ _ _ _ _ _ _ _ Hrun Htr Hin)
    as (rows & d & pp & rp & o & Hfetch & Hd & (envp & envp' & Hpp) & (envr & envr' & Hrp)
        & Hdom & Hg & (_ & Htype & _ & _) & -> & -> & -> & ->).
  split.
  - unfold purpose_uuid_of. cbn [plate_purpose_uuids default].
    destruct Htype as [Ht|Ht]; rewrite Ht.
    + exists pp, envp, envp'. split; [reflexivity|]. left. auto.
    + exists rp, envr, envr'. split; [reflexivity|]. right. auto.
  - destruct (group_barcode_in _ _ Hg) as (r & Hr & Hbc & Hhead).
    assert (Hkey : study r ∈ dom d).
    { rewrite Hdom. apply elem_of_list_to_set.
      apply list_elem_of_fmap. exists r. split; [reflexivity | exact Hr]. }
    apply elem_of_dom in Hkey as (u & Hu).
    destruct (Hd _ _ Hu) as (env & env' & Hget).
    exists rows, (o_group o), r, u, env, env'.
    split; [assumption|]. split; [assumption|]. split; [reflexivity|].
    split; [assumption|]. split; [|exact Hget].
    destruct (o_group o).2 as [|r' l]; [discriminate|].
    injection Hhead as ->. exact Hu.
Qed.

(** X6. The statements a run sends to the warehouse: the fetch, once
    and first, on the configured table and destination, and then nothing
    but marker writes on that table.  Every marker write names at least
    one barcode, so the statement never ends in an empty [IN ()]. *)
Theorem run_statements app w res w' tr :
  run app w = (res, w') →
  trace w' = trace w ++ tr →
  statements tr =
    SelectUnwrangled (MLWH_DB_TABLE app) (CGAP_EXTRACTION_DESTINATION app)
    :: (UpdateWrangled (MLWH_DB_TABLE app) <$> updates tr) ∧
  Forall (fun bcs => bcs ≠ []) (updates tr).
Proof.
  intros Hrun Htr.
  destruct (run_trace _ _ _ _ _ Hrun Htr)
    as (done & kwargs & os & c & tail & grest & Heq & Htail & _).
  destruct (run_submissions _ _ _ _ _ _ _ Heq Htail) as [_ Hup].
  rewrite Hup. split; [|apply loop_updates_nonempty].
  rewrite Heq, !statements_app, statements_lookup_events, loop_statements.
  destruct Htail as [->|(g & ->)]; cbn; rewrite app_nil_r; reflexivity.
Qed.

(** X7. A run that ends with an exception has reported every group of
    consecutive submissions with the same outcome but the last one: the
    loop is left before the last group is handed over.  So no container
    of the last group is named by a marker write, whatever SequenceScape
    answered, and its fetched rows are fetched again in the world the run
    leaves, also when the container was created just before the
    failure. *)
Theorem aborted_run_drops_the_last_group app w e w' tr :
  run app w = (Raise e, w') →
  trace w' = trace w ++ tr →
  updates tr = written (removelast (groupby succeeded (submissions tr))) ∧
  ∀ kg s, last (groupby succeeded (submissions tr)) = Some kg → s ∈ kg.2 →
    s ∈ submissions tr ∧
    (s.1.1 ∉ concat (updates tr)) ∧
    ∀ rows r, fetched app w = Some rows → r ∈ rows → container_barcode r = s.1.1 →
              ∃ rows2, fetched app w' = Some rows2 ∧ r ∈ rows2.
Proof.
  intros Hrun Htr.
  destruct (run_trace _ _ _ _ _ Hrun Htr)
    as (done & kwargs & os & c & tail & grest & Heq & Htail & Hc & _ & _ & Hos).
  destruct (run_submissions _ _ _ _ _ _ _ Heq Htail) as [Hsub Hup].
  assert (c = false) as -> by (destruct c; [destruct Hc as [Hc _]; discriminate (Hc eq_refl) | reflexivity]).
  rewrite loop_updates_cut, <- Hsub in Hup.
  split; [exact Hup|].
  intros kg s Hlast Hs.
  apply last_Some in Hlast as (G0 & HG).
  pose proof (groupby_concat succeeded (submissions tr)) as Hcat.
  rewrite HG, fmap_app, concat_app in Hcat. cbn [fmap list_fmap concat] in Hcat.
  rewrite app_nil_r in Hcat.
  assert (Hin : s ∈ submissions tr).
  { rewrite <- Hcat. apply elem_of_app. right. exact Hs. }
  assert (Hnd : NoDup ((fun s : string * Resp * Z => s.1.1) <$> submissions tr)).
  { rewrite Hsub. destruct os as [|o os]; [constructor|].
    destruct Hos as (rows & Hfetch & Hgs); [discriminate|].
    eapply outcomes_NoDup; [exact Hfetch | exact Hgs]. }
  assert (Hout : s.1.1 ∉ concat (updates tr)).
  { rewrite Hup, HG, removelast_last. intros Hb.
    apply written_elem in Hb as (kg' & s' & Hkg' & _ & Hs' & Hbc).
    rewrite <- Hcat, fmap_app in Hnd. apply NoDup_app in Hnd as (_ & Hdisj & _).
    apply (Hdisj s.1.1).
    - rewrite <- Hbc. apply list_elem_of_fmap. exists s'. split; [reflexivity|].
      apply elem_of_concat. exists kg'.2. split; [exact Hs'|].
      apply list_elem_of_fmap. exists kg'. split; [reflexivity | exact Hkg'].
    - apply list_elem_of_fmap. exists s. split; [reflexivity | exact Hs]. }
  split; [exact Hin|]. split; [exact Hout|].
  intros rows r Hfetch Hr Hbc.
  destruct (fetched_rows_in _ _ _ _ Hfetch Hr) as (rows0 & Ht & _ & _).
  destruct (run_effect _ _ _ _ _ Hrun Htr) as (_ & Heff & _).
  destruct (Heff _ Ht) as (rows' & Ht' & Hm).
  eapply fetched_marked_rows; eauto. rewrite Hbc. exact Hout.
Qed.

(** X8. A run that returns normally has logged, at level ERROR, the
    response body of every submission that was not answered with the
    created status, once each and in the order of the submissions, and
    no other response body. *)
Theorem failed_responses_are_logged app w v w' tr :
  run app w = (Ok v, w') →
  trace w' = trace w ++ tr →
  logged_bodies tr =
  (fun s : string * Resp * Z => s.1.2)
    <$> List.filter (fun s => negb (succeeded s)) (submissions tr).
Proof.
  intros Hrun Htr.
  assert (v = Some tt) as ->.
  { destruct (run_returns app w) as [(w2 & Hr)|(e & w2 & Hr)]; congruence. }
  destruct (run_trace _ _ _ _ _ Hrun Htr)
    as (done & kwargs & os & c & tail & grest & Heq & Htail & Hc & Hnil & _).
  assert (c = true) as -> by (apply Hc; reflexivity).
  destruct (run_submissions _ _ _ _ _ _ _ Heq Htail) as [Hsub _].
  rewrite Hsub, Heq, (Hnil eq_refl), app_nil_r.
  rewrite !logged_bodies_app, logged_bodies_lookup_events, loop_logged_bodies.
  reflexivity.
Qed.

(** X9. All a run changes in the warehouse is the marker of rows of the
    configured table: the other tables are as before, a missing table
    stays missing, and the table has the same rows in the same places,
    each one either untouched or with its marker set and nothing else
    changed; the marker is set only on rows whose container was submitted
    in this run and answered with the created status. *)
Theorem run_only_sets_markers app w res w' tr :
  run app w = (res, w') →
  trace w' = trace w ++ tr →
  (∀ t, t ≠ MLWH_DB_TABLE app → mlwh w' !! t = mlwh w !! t) ∧
  (mlwh w !! MLWH_DB_TABLE app = None → mlwh w' !! MLWH_DB_TABLE app = None) ∧
  ∀ rows0, mlwh w !! MLWH_DB_TABLE app = Some rows0 →
    ∃ rows', mlwh w' !! MLWH_DB_TABLE app = Some rows' ∧
      Forall2 (fun r r' =>
                 r' = r ∨
                 ∃ t response,
                   r' = set_wrangled t r ∧
                   (container_barcode r, response, HTTPStatus.CREATED) ∈ submissions tr)
        rows0 rows'.
Proof.
  intros Hrun Htr.
  assert (Hother : (∀ t, t ≠ MLWH_DB_TABLE app → mlwh w' !! t = mlwh w !! t) ∧
                   (mlwh w !! MLWH_DB_TABLE app = None →
                    mlwh w' !! MLWH_DB_TABLE app = None)).
  { destruct (run_cases _ _ _ _ Hrun) as [(_ & e & _ & ->)|[(_ & _ & ->)|(rows & Hfetch & Hne)]];
      [split; auto | split; auto |].
    destruct (run_shape _ _ _ _ _ Hfetch Hne Hrun)
      as (rows0 & rows' & done & rest & kwargs & os & c & tail & grest
          & Ht & _ & _ & Hdb & _).
    split; [|congruence].
    intros t Hne'. rewrite Hdb, lookup_insert_ne by congruence. reflexivity. }
  destruct Hother as [Hother Hnone]. split; [exact Hother|]. split; [exact Hnone|].
  intros rows0 Ht.
  destruct (run_effect _ _ _ _ _ Hrun Htr) as (_ & Heff & _).
  destruct (Heff _ Ht) as (rows' & Ht' & Hm).
  exists rows'. split; [exact Ht'|].
  destruct (run_writes_follow _ _ _ _ Hrun) as (tr' & Htr' & Hw).
  rewrite Htr in Htr'. apply app_inv_head in Htr'. subst tr'.
  eapply Forall2_impl; [exact Hm|].
  intros r r' [Hin Hout]. cbn beta in *.
  destruct (decide (container_barcode r ∈ concat (updates tr))) as [Hb|Hb].
  - right. destruct (Hin Hb) as (t & ->).
    destruct (writes_follow_updates _ Hw _ Hb) as (response & Hs). eauto.
  - left. exact (Hout Hb).
Qed.

(** X10. Within one run no container is submitted twice, and every
    submitted container has a row in the configured table that had the
    configured destination and no marker when the run began. *)
Theorem submitted_once_and_unwrangled app w res w' tr :
  run app w = (res, w') →
  trace w' = trace w ++ tr →
  NoDup (submitted tr) ∧
  ∀ b, b ∈ submitted tr →
       ∃ rows0 r, mlwh w !! MLWH_DB_TABLE app = Some rows0 ∧ r ∈ rows0 ∧
                  container_barcode r = b ∧
                  destination r = CGAP_EXTRACTION_DESTINATION app ∧
                  wrangled r = None.
Proof.
  intros Hrun Htr. split.
  - destruct (run_trace _ _ _ _ _ Hrun Htr)
      as (done & kwargs & os & c & tail & grest & Heq & Htail & _ & _ & _ & Hos).
    destruct (run_submissions _ _ _ _ _ _ _ Heq Htail) as [Hsub _].
    unfold submitted. rewrite Hsub. destruct os as [|o os]; [constructor|].
    destruct Hos as (rows & Hfetch & Hgs); [discriminate|].
    eapply outcomes_NoDup; [exact Hfetch | exact Hgs].
  - intros b Hb. destruct (run_effect _ _ _ _ _ Hrun Htr) as (Hsub & _).
    destruct (Hsub b Hb) as (rows & r & Hfetch & Hr & Hbc).
    destruct (fetched_rows_in _ _ _ _ Hfetch Hr) as (rows0 & Ht & Hr0 & Hdest & Hw).
    exists rows0, r. auto.
Qed.

(** X11. What a run logs at level INFO: the starting line, and then one
    line for every marker write, in order, with the barcodes of the write
    joined by commas. *)
Theorem run_info_log app w res w' tr :
  run app w = (res, w') →
  trace w' = trace w ++ tr →
  info_log tr =
  Text "Starting cgap extraction job" :: (success_line <$> updates tr).
Proof.
  intros Hrun Htr.
  destruct (run_trace _ _ _ _ _ Hrun Htr)
    as (done & kwargs & os & c & tail & grest & Heq & Htail & _).
  destruct (run_submissions _ _ _ _ _ _ _ Heq Htail) as [_ Hup].
  rewrite Hup, Heq, !info_log_app, info_log_lookup_events, loop_info_log.
  destruct Htail as [->|(g & ->)]; cbn; rewrite app_nil_r; reflexivity.
Qed.

End RunProperties.

(** ** What the next run fetches *)

Section NextRun.
Context `{Collaborators}.

Lemma marked_rows_filter bcs dest rows0 rows' :
  marked_rows bcs rows0 rows' →
  filter (unwrangled dest) rows' =
  filter (fun r => container_barcode r ∉ bcs) (filter (unwrangled dest) rows0).
Proof.
  unfold marked_rows. induction 1 as [|r r' rows0 rows' [Hin Hout] _ IH]; [reflexivity|].
  rewrite !filter_cons, IH.
  destruct (decide (container_barcode r ∈ bcs)) as [Hb|Hb].
  - destruct (Hin Hb) as (t & ->).
    rewrite decide_False by (intros [_ Hw]; discriminate).
    destruct (decide (unwrangled dest r)); [|reflexivity].
    rewrite filter_cons, decide_False by tauto. reflexivity.
  - rewrite (Hout Hb). destruct (decide (unwrangled dest r)); [|reflexivity].
    rewrite filter_cons, decide_True by exact Hb. reflexivity.
Qed.

Lemma NoDup_fmap_inj {A B} (f : A → B) (l : list A) x y :
  NoDup (f <$> l) → x ∈ l → y ∈ l → f x = f y → x = y.
Proof.
  induction l as [|a l IH]; intros Hnd Hx Hy Hf; [inversion Hx|].
  rewrite fmap_cons in Hnd. apply NoDup_cons in Hnd as [Ha Hnd].
  apply elem_of_cons in Hx as [->|Hx]; apply elem_of_cons in Hy as [->|Hy].
  - reflexivity.
  - exfalso. apply Ha. rewrite Hf. apply list_elem_of_fmap. eauto.
  - exfalso. apply Ha. rewrite <- Hf. apply list_elem_of_fmap. eauto.
  - apply IH; assumption.
Qed.

(** In a run that returns normally every fetched row belongs to a
    submitted container, the barcodes of the submissions are distinct,
    and the marker writes name the containers answered with the created
    status. *)
Lemma completed_run_submissions app w w' tr rows :
  run app w = (Ok (Some tt), w') →
  trace w' = trace w ++ tr →
  fetched app w = Some rows →
  NoDup ((fun s : string * Resp * Z => s.1.1) <$> submissions tr) ∧
  concat (updates tr) = (fun s => s.1.1) <$> List.filter succeeded (submissions tr) ∧
  ∀ r, r ∈ rows → ∃ s, s ∈ submissions tr ∧ s.1.1 = container_barcode r.
Proof.
  intros Hrun Htr Hfetch.
  destruct (run_cases _ _ _ _ Hrun) as [(Hf & _)|[(Hf & _ & ->)|(rows1 & Hfetch1 & Hne)]].
  - congruence.
  - cbn [trace] in Htr. apply app_inv_head in Htr. subst tr.
    split; [constructor|]. split; [reflexivity|].
    intros r Hr. rewrite Hfetch in Hf. injection Hf as ->. inversion Hr.
  - rewrite Hfetch in Hfetch1. injection Hfetch1 as <-.
    destruct (run_shape _ _ _ _ _ Hfetch Hne Hrun)
      as (rows0 & rows' & done & rest & kwargs & os & c & tail & grest
          & _ & _ & Htr0 & _ & _ & _ & Hgs & Hend).
    destruct Hend as [(? & ? & ? & ? & [=] & _)|[(_ & -> & -> & -> & _)|(_ & _ & e & g & rest' & [=] & _)]].
    rewrite app_nil_r in Hgs.
    destruct (run_updates app w w' done kwargs os true [] tr Htr0 eq_refl eq_refl Htr)
      as [Hup Hsub].
    split.
    { rewrite Hsub. eapply outcomes_NoDup; [exact Hfetch|]. rewrite app_nil_r. exact Hgs. }
    split.
    { rewrite Hup, loop_updates, <- Hsub. apply written_groupby. }
    intros r Hr. rewrite <- (groupby_concat container_barcode rows) in Hr.
    apply elem_of_concat in Hr as (l & Hr & Hl).
    apply list_elem_of_fmap in Hl as (g & -> & Hg).
    pose proof (groupby_groups container_barcode rows) as Hok.
    rewrite Forall_forall in Hok. destruct (Hok g Hg) as [_ Hall].
    rewrite Forall_forall in Hall. specialize (Hall r Hr).
    rewrite Hgs in Hg. apply list_elem_of_fmap in Hg as (o & -> & Ho).
    exists (submission_of o). split.
    + rewrite Hsub. apply list_elem_of_fmap. eauto.
    + symmetry. exact Hall.
Qed.

End NextRun.

Section NextRunProperties.
Context `{Collaborators}.

(** X13. What a run leaves to the next one.  The rows the next fetch
    returns are the rows fetched by this run whose container no marker
    write of the run names, in the same order.  When the run returns
    normally these are exactly the rows of the containers whose
    submission was not answered with the created status; and when every
    submission was answered with the created status nothing is left to
    fetch. *)
Theorem next_fetch_after_run app w res w' tr rows :
  run app w = (res, w') →
  trace w' = trace w ++ tr →
  fetched app w = Some rows →
  fetched app w' =
    Some (filter (fun r => container_barcode r ∉ concat (updates tr)) rows) ∧
  (res = Ok (Some tt) →
   (∀ r, r ∈ rows →
      (r ∈ filter (fun r => container_barcode r ∉ concat (updates tr)) rows ↔
       ∃ response status_code,
         (container_barcode r, response, status_code) ∈ submissions tr ∧
         status_code ≠ HTTPStatus.CREATED)) ∧
   (Forall (fun s => s.2 = HTTPStatus.CREATED) (submissions tr) →
    fetched app w' = Some [])).
Proof.
  intros Hrun Htr Hfetch.
  assert (Hnext : fetched app w' =
            Some (filter (fun r => container_barcode r ∉ concat (updates tr)) rows)).
  { destruct (mlwh w !! MLWH_DB_TABLE app) as [rows0|] eqn:Ht;
      [|unfold fetched in Hfetch; rewrite Ht in Hfetch; discriminate].
    destruct (run_effect _ _ _ _ _ Hrun Htr) as (_ & Heff & _).
    destruct (Heff _ Ht) as (rows' & Ht' & Hm).
    unfold fetched in *. rewrite Ht in Hfetch. rewrite Ht'.
    cbn [fmap option_fmap option_map] in *. injection Hfetch as <-.
    rewrite (marked_rows_filter _ _ _ _ Hm), order_by_filter. reflexivity. }
  split; [exact Hnext|].
  intros ->.
  destruct (completed_run_submissions _ _ _ _ _ Hrun Htr Hfetch) as (Hnd & Hup & Hall).
  assert (Hiff : ∀ r, r ∈ rows →
            (r ∈ filter (fun r => container_barcode r ∉ concat (updates tr)) rows ↔
             ∃ response status_code,
               (container_barcode r, response, status_code) ∈ submissions tr ∧
               status_code ≠ HTTPStatus.CREATED)).
  { intros r Hr. rewrite list_elem_of_filter, Hup. split.
    - intros [Hout _]. destruct (Hall r Hr) as ([[b response] status_code] & Hs & Hbc).
      simpl in Hbc. subst b. exists response, status_code. split; [exact Hs|].
      intros ->. apply Hout. apply list_elem_of_fmap.
      exists (container_barcode r, response, HTTPStatus.CREATED). split; [reflexivity|].
      apply list_elem_of_In, List.filter_In. split; [apply list_elem_of_In; exact Hs|].
      unfold succeeded. apply bool_decide_eq_true. reflexivity.
    - intros (response & status_code & Hs & Hst). split; [|exact Hr].
      intros Hin. apply list_elem_of_fmap in Hin as (s' & Hbc & Hs').
      apply list_elem_of_In, List.filter_In in Hs' as [Hs' Hok].
      apply list_elem_of_In in Hs'.
      assert (s' = (container_barcode r, response, status_code)) as ->.
      { eapply (NoDup_fmap_inj _ _ _ _ Hnd); [exact Hs' | exact Hs|].
        symmetry. exact Hbc. }
      unfold succeeded in Hok. apply bool_decide_eq_true in Hok. exact (Hst Hok). }
  split; [exact Hiff|].
  intros Hok. rewrite Hnext. f_equal.
  assert (Hnone : ∀ r, r ∉ filter (fun r => container_barcode r ∉ concat (updates tr)) rows).
  { intros r Hr.
    assert (Hr' : r ∈ rows) by (apply list_elem_of_filter in Hr; tauto).
    apply (Hiff r Hr') in Hr as (response & status_code & Hs & Hst).
    rewrite Forall_forall in Hok. exact (Hst (Hok _ Hs)). }
  destruct (filter _ rows) as [|r l]; [reflexivity|].
  destruct (Hnone r). left.
Qed.

End NextRunProperties.

(** ** The route for the tubes of a rack *)

Section RackProperties.
Context `{Racks.Helpers}.
Import Racks.

(** X12. The route [/tube_rack/<tube_rack_barcode>] never raises.  It
    returns what [parse_tube_rack_csv] returns, with no status of its own
    and nothing logged; when the helper raises a [ValueError] it logs the
    exception as a warning and returns its text with the status
    NOT_FOUND; when the helper raises any other exception it logs it as
    an error and returns a server error with the status
    INTERNAL_SERVER_ERROR.  Nothing but the helper touches the world
    outside. *)
Theorem get_tubes_never_raises (tube_rack_barcode : string) (w : World) :
  ∃ v w',
    get_tubes_from_rack_barcode tube_rack_barcode w = (Ok v, w') ∧
    outside w' = (parse_tube_rack_csv tube_rack_barcode (outside w)).2 ∧
    match (parse_tube_rack_csv tube_rack_barcode (outside w)).1 with
    | Ok t => v = Plain t ∧ status_of v = None ∧ log w' = log w
    | Raise e =>
        if is_ValueError e then
          v = WithStatus (ErrorBody (str_exn e)) HTTPStatus.NOT_FOUND ∧
          log w' = log w ++ [(WARNING, str_exn e)]
        else
          v = WithStatus (ErrorBody ("Server error: " +:+ str_exn e)%string)
                HTTPStatus.INTERNAL_SERVER_ERROR ∧
          log w' = log w ++ [(ERROR, str_exn e)]
    end.
Proof.
  unfold get_tubes_from_rack_barcode, try_except, bind, call, ret, logger.
  destruct (parse_tube_rack_csv tube_rack_barcode (outside w)) as [[t|e] env'].
  - eexists _, _. split; [reflexivity|]. simpl. auto.
  - destruct (is_ValueError e) eqn:He.
    + eexists _, _. split; [reflexivity|]. simpl. rewrite He. auto.
    + eexists _, _. split; [reflexivity|]. simpl. rewrite He. auto.
Qed.

End RackProperties.

(** ** The further properties on explicit runs *)

Section MoreRuns.
Import Scenario.

Lemma run_after_raise w e :
  (run app w).1 = Raise e → run app w = (Raise e, after w).
Proof. intros <-. unfold after. apply surjective_pairing. Qed.

Lemma run_after_any w : run app w = ((run app w).1, after w).
Proof. unfold after. apply surjective_pairing. Qed.

(** The fetch on [rows_AFC]. *)
Lemma fetch_returns_sorted_unwrangled_rows_witness :
  ∃ res,
    get_unwrangled_labware "cgap_heron" "CGAP" (world rows_AFC) =
    (res, mkWorld (mlwh (world rows_AFC)) (outside (world rows_AFC))
            (trace (world rows_AFC)
             ++ [EvExecute (SelectUnwrangled "cgap_heron" "CGAP")])) ∧
    match mlwh (world rows_AFC) !! "cgap_heron"%string with
    | None => res = Raise (mkExn ProgrammingError "table does not exist")
    | Some rows0 =>
        ∃ rows, res = Ok rows ∧
          rows ≡ₚ filter (unwrangled "CGAP") rows0 ∧
          StronglySorted rows_le rows ∧
          ∀ r, r ∈ rows ↔ r ∈ rows0 ∧ destination r = "CGAP"%string ∧ wrangled r = None
    end.
Proof.
  apply (fetch_returns_sorted_unwrangled_rows "cgap_heron" "CGAP" (world rows_AFC));
    reflexivity.
Defined.

(** Marking A in [rows_AFC] leaves F and G to fetch. *)
Lemma marker_write_removes_from_fetch_witness :
  ∃ w' rows,
    update_wrangled_labware "cgap_heron" ["A"%string] (world rows_AFC) = (Ok tt, w') ∧
    outside w' = outside (world rows_AFC) ∧
    (∀ t, t ≠ "cgap_heron"%string → mlwh w' !! t = mlwh (world rows_AFC) !! t) ∧
    (get_unwrangled_labware "cgap_heron" "CGAP" (world rows_AFC)).1 = Ok rows ∧
    (get_unwrangled_labware "cgap_heron" "CGAP" w').1 =
      Ok (filter (fun r => container_barcode r ∉ ["A"%string]) rows).
Proof.
  apply (marker_write_removes_from_fetch "cgap_heron" "A" [] rows_AFC "CGAP"
           (world rows_AFC)); reflexivity.
Defined.

(** Marking A again in [rows_done], where it is marked already. *)
Lemma marker_write_again_keeps_fetch_witness :
  ∃ w',
    update_wrangled_labware "cgap_heron" ["A"%string] (world rows_done) = (Ok tt, w') ∧
    mlwh w' !! "cgap_heron"%string =
      Some (mark_wrangled (NOW (outside (world rows_done))) ["A"%string] <$> rows_done) ∧
    (get_unwrangled_labware "cgap_heron" "CGAP" w').1 =
    (get_unwrangled_labware "cgap_heron" "CGAP" (world rows_done)).1.
Proof.
  apply (marker_write_again_keeps_fetch "cgap_heron" "A" [] rows_done "CGAP"
           (world rows_done)).
  - reflexivity.
  - reflexivity.
  - reflexivity.
  - intros r Hr Hb. unfold rows_done in Hr.
    apply elem_of_cons in Hr as [->|Hr]; [eexists; reflexivity|].
    apply elem_of_cons in Hr as [->|Hr]; [|inversion Hr].
    apply list_elem_of_singleton in Hb. discriminate.
Defined.

(** The body for the tube rack F of [rows_AFC]. *)
Lemma bodies_carry_the_looked_up_identifiers_witness :
  (∃ u env env',
     Some "uuid-Heron Lysed Tube Rack"%string = Some u ∧
     ((TUBE_RACK = PLATE ∧
       get_entity_uuid PLATE_PURPOSE_ENTITY LYSATE_PLATE_PURPOSE env = (Ok u, env')) ∨
      (TUBE_RACK = TUBE_RACK ∧
       get_entity_uuid PLATE_PURPOSE_ENTITY LYSATE_TR_PURPOSE env = (Ok u, env')))) ∧
  ∃ rows g r u env env',
    fetched app (world rows_AFC) = Some rows ∧
    g ∈ groupby container_barcode rows ∧ g.1 = "F"%string ∧ head g.2 = Some r ∧
    Some "uuid-s2"%string = Some u ∧
    get_entity_uuid STUDY_ENTITY (study r) env = (Ok u, env').
Proof.
  apply (bodies_carry_the_looked_up_identifiers app (world rows_AFC)
           (run app (world rows_AFC)).1 (after (world rows_AFC))
           (trace (after (world rows_AFC))) TUBE_RACK "F"
           (Some "uuid-s2"%string) (Some "uuid-Heron Lysed Tube Rack"%string)).
  - apply run_after_any.
  - reflexivity.
  - apply list_elem_of_lookup. exists 10%nat. reflexivity.
Defined.

(** The statements of the run on [rows_AFC]: the fetch, then a write for
    A and a write for G. *)
Lemma run_statements_witness :
  statements (trace (after (world rows_AFC))) =
    SelectUnwrangled (MLWH_DB_TABLE app) (CGAP_EXTRACTION_DESTINATION app)
    :: (UpdateWrangled (MLWH_DB_TABLE app) <$> updates (trace (after (world rows_AFC)))) ∧
  Forall (fun bcs => bcs ≠ []) (updates (trace (after (world rows_AFC)))).
Proof.
  apply (run_statements app (world rows_AFC) (run app (world rows_AFC)).1
           (after (world rows_AFC)) (trace (after (world rows_AFC)))).
  - apply run_after_any.
  - reflexivity.
Defined.

(** The run on [rows_odd] ends at ODD after A was created: A is not
    marked and is fetched again. *)
Lemma aborted_run_drops_the_last_group_witness :
  updates (trace (after (world rows_odd))) =
    written (removelast (groupby succeeded (submissions (trace (after (world rows_odd)))))) ∧
  ∀ kg s, last (groupby succeeded (submissions (trace (after (world rows_odd))))) = Some kg →
    s ∈ kg.2 →
    s ∈ submissions (trace (after (world rows_odd))) ∧
    (s.1.1 ∉ concat (updates (trace (after (world rows_odd))))) ∧
    ∀ rows r, fetched app (world rows_odd) = Some rows → r ∈ rows →
              container_barcode r = s.1.1 →
              ∃ rows2, fetched app (after (world rows_odd)) = Some rows2 ∧ r ∈ rows2.
Proof.
  apply (aborted_run_drops_the_last_group app (world rows_odd)
           (mkExn Exception_
              "cgap extraction job can not handle labware type: LabwareType.WELL")
           (after (world rows_odd)) (trace (after (world rows_odd)))).
  - apply run_after_raise. reflexivity.
  - reflexivity.
Defined.

(** The run on [rows_AFC] logs the response to the request for F. *)
Lemma failed_responses_are_logged_witness :
  logged_bodies (trace (after (world rows_AFC))) =
  (fun s : string * Resp * Z => s.1.2)
    <$> List.filter (fun s => negb (succeeded s))
          (submissions (trace (after (world rows_AFC)))).
Proof.
  apply (failed_responses_are_logged app (world rows_AFC) (Some tt)
           (after (world rows_AFC)) (trace (after (world rows_AFC)))).
  - apply run_after_ok. reflexivity.
  - reflexivity.
Defined.

(** What the run on [rows_AFC] changes in the warehouse. *)
Lemma run_only_sets_markers_witness :
  (∀ t, t ≠ MLWH_DB_TABLE app →
        mlwh (after (world rows_AFC)) !! t = mlwh (world rows_AFC) !! t) ∧
  (mlwh (world rows_AFC) !! MLWH_DB_TABLE app = None →
   mlwh (after (world rows_AFC)) !! MLWH_DB_TABLE app = None) ∧
  ∀ rows0, mlwh (world rows_AFC) !! MLWH_DB_TABLE app = Some rows0 →
    ∃ rows', mlwh (after (world rows_AFC)) !! MLWH_DB_TABLE app = Some rows' ∧
      Forall2 (fun r r' =>
                 r' = r ∨
                 ∃ t response,
                   r' = set_wrangled t r ∧
                   (container_barcode r, response, HTTPStatus.CREATED)
                   ∈ submissions (trace (after (world rows_AFC))))
        rows0 rows'.
Proof.
  apply (run_only_sets_markers app (world rows_AFC) (run app (world rows_AFC)).1
           (after (world rows_AFC)) (trace (after (world rows_AFC)))).
  - apply run_after_any.
  - reflexivity.
Defined.

(** The submissions of the run on [rows_AFC]. *)
Lemma submitted_once_and_unwrangled_witness :
  NoDup (submitted (trace (after (world rows_AFC)))) ∧
  ∀ b, b ∈ submitted (trace (after (world rows_AFC))) →
       ∃ rows0 r, mlwh (world rows_AFC) !! MLWH_DB_TABLE app = Some rows0 ∧ r ∈ rows0 ∧
                  container_barcode r = b ∧
                  destination r = CGAP_EXTRACTION_DESTINATION app ∧
                  wrangled r = None.
Proof.
  apply (submitted_once_and_unwrangled app (world rows_AFC) (run app (world rows_AFC)).1
           (after (world rows_AFC)) (trace (after (world rows_AFC)))).
  - apply run_after_any.
  - reflexivity.
Defined.

(** The INFO lines of the run on [rows_AFC]. *)
Lemma run_info_log_witness :
  info_log (trace (after (world rows_AFC))) =
  Text "Starting cgap extraction job"
  :: (success_line <$> updates (trace (after (world rows_AFC)))).
Proof.
  apply (run_info_log app (world rows_AFC) (run app (world rows_AFC)).1
           (after (world rows_AFC)) (trace (after (world rows_AFC)))).
  - apply run_after_any.
  - reflexivity.
Defined.

(** After the run on [rows_AFC] the next fetch returns the row of F. *)
Lemma next_fetch_after_run_witness :
  fetched app (after (world rows_AFC)) =
    Some (filter (fun r => container_barcode r
                           ∉ concat (updates (trace (after (world rows_AFC))))) rows_AFC) ∧
  (Ok (Some tt) = Ok (Some tt) →
   (∀ r, r ∈ rows_AFC →
      (r ∈ filter (fun r => container_barcode r
                            ∉ concat (updates (trace (after (world rows_AFC))))) rows_AFC ↔
       ∃ response status_code,
         (container_barcode r, response, status_code)
         ∈ submissions (trace (after (world rows_AFC))) ∧
         status_code ≠ HTTPStatus.CREATED)) ∧
   (Forall (fun s => s.2 = HTTPStatus.CREATED) (submissions (trace (after (world rows_AFC)))) →
    fetched app (after (world rows_AFC)) = Some [])).
Proof.
  apply (next_fetch_after_run app (world rows_AFC) (Ok (Some tt))
           (after (world rows_AFC)) (trace (after (world rows_AFC))) rows_AFC).
  - apply run_after_ok. reflexivity.
  - reflexivity.
  - vm_compute. reflexivity.
Defined.

End MoreRuns.
